(** * A shallow embedding of [expense_tracker.py]

    The ledger is a CSV file ([expenses.csv]) that every command reads
    whole, changes in memory and writes back whole.  The development
    follows the layers of the program:

    - [Text]: Python strings as lists of code points below 256, with
      [str.strip], [int(..)], [str(..)] and the format fields used by
      the program, the conversions between [int] and text being limited
      to 4300 digits;
    - [Dates]: [datetime.date], [isoformat] and [strptime "%Y-%m-%d"];
    - [Dec]: [decimal.Decimal] (sign, coefficient, exponent, specials),
      its string conversions, exact within the widest context, and
      addition under the default context (28 digits, half-even,
      Emax = 999999);
    - [Csv]: the excel dialect writer and the reader state machine with
      its limit of 131072 characters on a field, [DictReader] and
      [DictWriter];
    - [Tracker]: the functions of the program over an explicit world
      (file, standard input, standard output);
    - [Cli]: the menu loop [main], which runs for a number of turns
      given in advance; more turns than there are lines of input are
      always enough.

    The limits are those of an interpreter left as it starts
    ([sys.get_int_max_str_digits()] = 4300, [csv.field_size_limit()] =
    131072).  Not modelled: characters above code point 255; the dash
    U+2014 in two messages of [main] is a parameter of [Cli]. *)

From Stdlib Require Import Ascii String ZArith NArith QArith Qpower Lia Bool Arith List.
From Stdlib Require Import Permutation Sorted.
Import ListNotations.
Close Scope Q_scope.

(* ================================================================= *)
(** * Definitions *)
(* ================================================================= *)

Module Text.

(** A Python [str] is a sequence of code points; [lit] reads a literal. *)
Abbreviation pystr := (list ascii).
Definition lit (s : string) : pystr := list_ascii_of_string s.

Definition ord (c : ascii) : N := N_of_ascii c.

(** [str.isspace] on the code points below 256. *)
Definition isspace (c : ascii) : bool :=
  let n := ord c in
  (((9 <=? n) && (n <=? 13)) || ((28 <=? n) && (n <=? 32))
   || (n =? 133) || (n =? 160))%N.

Definition isdigit (c : ascii) : bool :=
  let n := ord c in ((48 <=? n) && (n <=? 57))%N.

(** The white space that [int(..)] skips around a literal: it leaves
    out the four separators 28..31 that [str.isspace] accepts. *)
Definition isspace_int (c : ascii) : bool :=
  let n := ord c in
  (((9 <=? n) && (n <=? 13)) || (n =? 32) || (n =? 133) || (n =? 160))%N.

Section Strip.
Variable ws : ascii -> bool.

Fixpoint lstrip_by (s : pystr) : pystr :=
  match s with
  | c :: t => if ws c then lstrip_by t else s
  | [] => []
  end.

Definition rstrip_by (s : pystr) : pystr := rev (lstrip_by (rev s)).

Definition strip_by (s : pystr) : pystr := rstrip_by (lstrip_by s).
End Strip.

(** [s.strip()] *)
Definition strip (s : pystr) : pystr := strip_by isspace s.

(** [s or d] on strings: the empty string is false. *)
Definition str_or (s d : pystr) : pystr :=
  match s with [] => d | _ => s end.

Definition str_eqb (a b : pystr) : bool :=
  if list_eq_dec ascii_dec a b then true else false.

(** ** Integers and text *)

Definition digit_char (d : N) : ascii := ascii_of_N (48 + d).
Definition digit_val (c : ascii) : N := ord c - 48.

Fixpoint digits_fuel (fuel : nat) (n : N) (acc : pystr) : pystr :=
  match fuel with
  | O => acc
  | S f =>
      let acc' := digit_char (n mod 10) :: acc in
      if (n <? 10)%N then acc' else digits_fuel f (n / 10) acc'
  end.

(** Decimal digits of a natural number, most significant first. *)
Definition str_of_N (n : N) : pystr := digits_fuel (S (N.size_nat n)) n [].

(** The decimal text of an integer: its sign and its digits. *)
Definition str_of_int (z : Z) : pystr :=
  if (z <? 0)%Z then "-"%char :: str_of_N (Z.abs_N z) else str_of_N (Z.to_N z).

(** The limit of the interpreter on the digits of an [int] that is
    converted from or to text ([sys.get_int_max_str_digits()]). *)
Definition max_str_digits : N := 4300.

(** The integer has no more digits than the limit. *)
Definition int_ok (z : Z) : bool :=
  (N.of_nat (length (str_of_N (Z.abs_N z))) <=? max_str_digits)%N.

(** [str(z)] for an [int], and [z] in a format field; [None] stands
    for [ValueError]: the integer has more digits than the limit. *)
Definition str_int (z : Z) : option pystr :=
  if int_ok z then Some (str_of_int z) else None.

Definition N_of_digits (s : pystr) : N :=
  fold_left (fun acc c => 10 * acc + digit_val c)%N s 0%N.

(** The body of an integer literal accepted by [int(..)]: digits, with
    single underscores allowed between two digits. *)
Fixpoint int_body (s : pystr) (after_digit : bool) (acc : N) : option N :=
  match s with
  | [] => if after_digit then Some acc else None
  | c :: t =>
      if isdigit c then int_body t true (10 * acc + digit_val c)%N
      else if Ascii.eqb c "_" && after_digit then int_body t false acc
      else None
  end.

(** An integer literal: an optional sign and the body. *)
Definition int_literal (t : pystr) : option Z :=
  match t with
  | "-"%char :: u => option_map (fun n => (- Z.of_N n)%Z) (int_body u false 0)
  | "+"%char :: u => option_map Z.of_N (int_body u false 0)
  | u => option_map Z.of_N (int_body u false 0)
  end.

(** [int(s)]: [None] stands for [ValueError], which is raised for a
    text that is no literal and for a text with more digits than the
    limit, leading zeros counted. *)
Definition py_int (s : pystr) : option Z :=
  let t := strip_by isspace_int s in
  if (max_str_digits <? N.of_nat (length (filter isdigit t)))%N then None
  else int_literal t.

(** ** Format fields *)

Definition spaces (n : nat) : pystr := repeat " "%char n.
Definition zeros (n : nat) : pystr := repeat "0"%char n.

(** [f"{s:<w}"] *)
Definition ljust (w : nat) (s : pystr) : pystr := s ++ spaces (w - length s).
(** [f"{s:>w}"] *)
Definition rjust (w : nat) (s : pystr) : pystr := spaces (w - length s) ++ s.

(** ["%0wd" % z] and [f"{z:0wd}"] where the conversion succeeds: the
    sign counts in the width. *)
Definition fmt_0d (w : nat) (z : Z) : pystr :=
  if (z <? 0)%Z
  then let d := str_of_N (Z.abs_N z) in "-"%char :: zeros (w - 1 - length d) ++ d
  else let d := str_of_N (Z.to_N z) in zeros (w - length d) ++ d.

(** ["%+d" % z] *)
Definition fmt_plus_d (z : Z) : pystr :=
  if (z <? 0)%Z then "-"%char :: str_of_N (Z.abs_N z)
  else "+"%char :: str_of_N (Z.to_N z).

(** [s.split(sep)] for a one-character separator. *)
Fixpoint split_on (sep : ascii) (s : pystr) : list pystr :=
  match s with
  | [] => [[]]
  | c :: t =>
      if Ascii.eqb c sep then [] :: split_on sep t
      else match split_on sep t with
           | p :: ps => (c :: p) :: ps
           | [] => [[c]]
           end
  end.

(** [s.replace(c, empty)] for a one-character pattern. *)
Definition remove_char (c : ascii) (s : pystr) : pystr :=
  filter (fun x => negb (Ascii.eqb x c)) s.

End Text.
Import Text.

(* ----------------------------------------------------------------- *)
(** ** [datetime.date] *)

Module Dates.

Record date := mkdate { year : Z; month : Z; day : Z }.

Definition is_leap (y : Z) : bool :=
  ((y mod 4 =? 0) && (negb (y mod 100 =? 0) || (y mod 400 =? 0)))%Z.

Definition days_in_month (y m : Z) : Z :=
  match m with
  | 2 => if is_leap y then 29 else 28
  | 4 | 6 | 9 | 11 => 30
  | _ => 31
  end%Z.

(** The dates that [datetime.date] can hold. *)
Definition valid_date (d : date) : bool :=
  ((1 <=? year d) && (year d <=? 9999) && (1 <=? month d) && (month d <=? 12)
   && (1 <=? day d) && (day d <=? days_in_month (year d) (month d)))%Z.

(** [date.min] *)
Definition date_min : date := mkdate 1 1 1.

Definition date_compare (a b : date) : comparison :=
  match (year a ?= year b)%Z with
  | Eq => match (month a ?= month b)%Z with
          | Eq => (day a ?= day b)%Z
          | c => c
          end
  | c => c
  end.

(** [a < b] on dates. *)
Definition date_ltb (a b : date) : bool :=
  match date_compare a b with Lt => true | _ => false end.

(** [d.isoformat()]: ["%04d-%02d-%02d"]. *)
Definition isoformat (d : date) : pystr :=
  fmt_0d 4 (year d) ++ "-"%char :: fmt_0d 2 (month d) ++ "-"%char :: fmt_0d 2 (day d).

Definition chr_in (lo hi c : ascii) : bool :=
  ((ord lo <=? ord c) && (ord c <=? ord hi))%N.

(** The alternatives of the [%m] pattern, [1[0-2]|0[1-9]|[1-9]], in
    the order the regular expression tries them: matched text and rest. *)
Definition alts_m (s : pystr) : list (pystr * pystr) :=
  match s with
  | a :: b :: t =>
      (if Ascii.eqb a "1" && chr_in "0" "2" b then [([a; b], t)] else [])
      ++ (if Ascii.eqb a "0" && chr_in "1" "9" b then [([a; b], t)] else [])
      ++ (if chr_in "1" "9" a then [([a], b :: t)] else [])
  | [a] => if chr_in "1" "9" a then [([a], [])] else []
  | [] => []
  end.

(** The [%d] pattern, [3[0-1]|[1-2]\d|0[1-9]|[1-9]| [1-9]]. *)
Definition alts_d (s : pystr) : list (pystr * pystr) :=
  match s with
  | a :: b :: t =>
      (if Ascii.eqb a "3" && chr_in "0" "1" b then [([a; b], t)] else [])
      ++ (if chr_in "1" "2" a && isdigit b then [([a; b], t)] else [])
      ++ (if Ascii.eqb a "0" && chr_in "1" "9" b then [([a; b], t)] else [])
      ++ (if chr_in "1" "9" a then [([a], b :: t)] else [])
      ++ (if Ascii.eqb a " " && chr_in "1" "9" b then [([a; b], t)] else [])
  | [a] => if chr_in "1" "9" a then [([a], [])] else []
  | [] => []
  end.

(** First month alternative after which ["-"] and a day match. *)
Fixpoint match_m_d (ms : list (pystr * pystr)) : option (pystr * pystr * pystr) :=
  match ms with
  | [] => None
  | (m, "-"%char :: r) :: ms' =>
      match alts_d r with
      | (d, r') :: _ => Some (m, d, r')
      | [] => match_m_d ms'
      end
  | _ :: ms' => match_m_d ms'
  end.

(** [datetime.strptime(s, "%Y-%m-%d").date()]; [None] is [ValueError]
    (no match, unconverted data, or a day the calendar does not have). *)
Definition strptime_ymd (s : pystr) : option date :=
  match s with
  | y1 :: y2 :: y3 :: y4 :: "-"%char :: t =>
      if forallb isdigit [y1; y2; y3; y4] then
        match match_m_d (alts_m t) with
        | Some (m, d, []) =>
            match py_int [y1; y2; y3; y4], py_int m, py_int d with
            | Some y, Some mo, Some dy =>
                let r := mkdate y mo dy in
                if valid_date r then Some r else None
            | _, _, _ => None
            end
        | _ => None
        end
      else None
  | _ => None
  end.

End Dates.
Import Dates.

(* ----------------------------------------------------------------- *)
(** ** [decimal.Decimal] *)

Module Dec.

(** A decimal is [(-1)^sign * coeff * 10^exp], an infinity, or a NaN
    (quiet or signaling) with a payload; payload [0] is the empty one. *)
Inductive Decimal :=
| Fin (sign : bool) (coeff : N) (exp : Z)
| Inf (sign : bool)
| NaN (sign : bool) (signaling : bool) (payload : N).

Definition sign_str (s : bool) : pystr := if s then ["-"%char] else [].

(** [str(d)]: the to-scientific-string conversion. *)
Definition dec_str (d : Decimal) : pystr :=
  match d with
  | Inf s => sign_str s ++ lit "Infinity"
  | NaN s sig p =>
      sign_str s ++ (if sig then lit "sNaN" else lit "NaN")
      ++ (if (p =? 0)%N then [] else str_of_N p)
  | Fin s c e =>
      let ds := str_of_N c in
      let len := Z.of_nat (length ds) in
      let leftdigits := (e + len)%Z in
      let dotplace :=
        if ((e <=? 0) && (-6 <? leftdigits))%Z then leftdigits else 1%Z in
      let intpart :=
        if (dotplace <=? 0)%Z then ["0"%char]
        else if (len <=? dotplace)%Z then ds ++ zeros (Z.to_nat (dotplace - len))
        else firstn (Z.to_nat dotplace) ds in
      let fracpart :=
        if (dotplace <=? 0)%Z then "."%char :: zeros (Z.to_nat (- dotplace)) ++ ds
        else if (len <=? dotplace)%Z then []
        else "."%char :: skipn (Z.to_nat dotplace) ds in
      let exp :=
        if (leftdigits =? dotplace)%Z then []
        else "E"%char :: fmt_plus_d (leftdigits - dotplace) in
      sign_str s ++ intpart ++ fracpart ++ exp
  end.

(** Maximal prefix of digits, and the rest. *)
Fixpoint span_digits (s : pystr) : pystr * pystr :=
  match s with
  | c :: t =>
      if isdigit c then let (d, r) := span_digits t in (c :: d, r) else ([], s)
  | [] => ([], [])
  end.

Definition to_lower (c : ascii) : ascii :=
  if ((65 <=? ord c) && (ord c <=? 90))%N then ascii_of_N (ord c + 32) else c.

Definition lower (s : pystr) : pystr := map to_lower s.

(** The exponent part [(E[-+]?\d+)?] followed by the end of the text. *)
Definition parse_exponent (s : pystr) : option Z :=
  match s with
  | [] => Some 0%Z
  | c :: t =>
      if Ascii.eqb (to_lower c) "e" then
        let '(neg, t') :=
          match t with
          | "-"%char :: u => (true, u)
          | "+"%char :: u => (false, u)
          | _ => (false, t)
          end in
        match span_digits t' with
        | ((_ :: _) as ds, []) =>
            Some (if neg then - Z.of_N (N_of_digits ds) else Z.of_N (N_of_digits ds))%Z
        | _ => None
        end
      else None
  end.

(** A finite numeric string: digits, optional fraction, optional exponent. *)
Definition parse_finite (sgn : bool) (s : pystr) : option Decimal :=
  let (ip, r1) := span_digits s in
  let '(fp, r2) :=
    match r1 with
    | "."%char :: t => span_digits t
    | _ => ([], r1)
    end in
  match ip ++ fp with
  | [] => None
  | ds =>
      match parse_exponent r2 with
      | Some e => Some (Fin sgn (N_of_digits ds) (e - Z.of_nat (length fp)))
      | None => None
      end
  end.

Definition parse_special (sgn : bool) (s : pystr) : option Decimal :=
  let l := lower s in
  if str_eqb l (lit "inf") || str_eqb l (lit "infinity") then Some (Inf sgn)
  else
    let '(sig, r) :=
      match l with
      | "s"%char :: u => (true, u)
      | _ => (false, l)
      end in
    match r with
    | "n"%char :: "a"%char :: "n"%char :: diag =>
        if forallb isdigit diag then Some (NaN sgn sig (N_of_digits diag)) else None
    | _ => None
    end.

(** The optional sign in front of a numeric string. *)
Definition split_sign (t : pystr) : bool * pystr :=
  match t with
  | "-"%char :: r => (true, r)
  | "+"%char :: r => (false, r)
  | _ => (false, t)
  end.

(** [len(self._int)] *)
Definition ndigits (c : N) : Z := Z.of_nat (length (str_of_N c)).

(** The conversion from text is exact, within the widest context that
    the library has: [MAX_PREC] digits, exponents from [MIN_ETINY], an
    adjusted exponent up to [MAX_EMAX]. *)
Definition MAX_PREC : Z := 999999999999999999.
Definition MAX_EMAX : Z := 999999999999999999.
Definition MIN_ETINY : Z := -1999999999999999997.

Definition in_maxcontext (d : Decimal) : bool :=
  match d with
  | Fin _ c e =>
      ((ndigits c <=? MAX_PREC) && (MIN_ETINY <=? e) && (e + ndigits c - 1 <=? MAX_EMAX))%Z
  | _ => true
  end.

(** [Decimal(s)] for a string; [None] is [InvalidOperation]: the text
    is no numeric string, or its value is outside the widest context. *)
Definition Decimal_of_str (s : pystr) : option Decimal :=
  let t := remove_char "_" (strip s) in
  let '(sgn, body) := split_sign t in
  match parse_finite sgn body with
  | Some d => if in_maxcontext d then Some d else None
  | None => parse_special sgn body
  end.

(** *** Arithmetic in the default context *)

Definition prec : Z := 28.
Definition Emax : Z := 999999.
Definition Emin : Z := -999999.
Definition Etiny : Z := Emin - prec + 1.
Definition Etop : Z := Emax - prec + 1.

(** The signals that the default context traps: they raise. *)
Inductive signal := InvalidOperation | Overflow.

Inductive arith (A : Type) : Type :=
| Val (a : A)
| Trap (s : signal).
Arguments Val {A} a.
Arguments Trap {A} s.

(** [ROUND_HALF_EVEN] when the last [k >= 1] digits of [c] are dropped. *)
Definition round_half_even (c : N) (k : N) : N :=
  let q := (c / 10 ^ k)%N in
  let r := (c mod 10 ^ k)%N in
  let half := (5 * 10 ^ (k - 1))%N in
  if ((half <? r) || ((r =? half) && N.odd q))%N then (q + 1)%N else q.

(** [Decimal._fix]: round a finite result to the context. *)
Definition dec_fix (s : bool) (c : N) (e : Z) : arith Decimal :=
  if (c =? 0)%N then Val (Fin s 0 (Z.min (Z.max e Etiny) Emax))
  else
    let exp_min0 := (ndigits c + e - prec)%Z in
    if (Etop <? exp_min0)%Z then Trap Overflow
    else
      let exp_min := Z.max exp_min0 Etiny in
      if (e <? exp_min)%Z then
        let digits := (ndigits c + e - exp_min)%Z in
        let '(c1, e1) := if (digits <? 0)%Z then (1%N, (exp_min - 1)%Z) else (c, e) in
        let q := round_half_even c1 (Z.to_N (exp_min - e1)) in
        let '(q', exp') :=
          if (prec <? ndigits q)%Z then ((q / 10)%N, (exp_min + 1)%Z) else (q, exp_min) in
        if (Etop <? exp')%Z then Trap Overflow else Val (Fin s q' exp')
      else Val (Fin s c e).

Definition signed (s : bool) (c : N) : Z := if s then (- Z.of_N c)%Z else Z.of_N c.

(** The exact sum of two finite decimals, at the smaller exponent.  A
    zero sum is negative only when both operands are. *)
Definition exact_add (s1 : bool) (c1 : N) (e1 : Z) (s2 : bool) (c2 : N) (e2 : Z)
  : bool * N * Z :=
  let e := Z.min e1 e2 in
  let z := (signed s1 c1 * 10 ^ (e1 - e) + signed s2 c2 * 10 ^ (e2 - e))%Z in
  (if (z =? 0)%Z then s1 && s2 else (z <? 0)%Z, Z.abs_N z, e).

(** [Decimal._fix_nan]: a payload keeps its last [prec] digits. *)
Definition fix_nan (s sig : bool) (p : N) : Decimal :=
  if ((p =? 0)%N || (ndigits p <=? prec)%Z) then NaN s sig p
  else NaN s sig (p mod 10 ^ 28)%N.

(** [a + b] ([Decimal.__add__]): the exact sum rounded by the context;
    the shortcuts the library takes for distant exponents give the
    same result. *)
Definition dec_add (a b : Decimal) : arith Decimal :=
  match a, b with
  | NaN _ true _, _ => Trap InvalidOperation
  | _, NaN _ true _ => Trap InvalidOperation
  | NaN s false p, _ => Val (fix_nan s false p)
  | _, NaN s false p => Val (fix_nan s false p)
  | Inf s1, Inf s2 => if xorb s1 s2 then Trap InvalidOperation else Val (Inf s1)
  | Inf s1, Fin _ _ _ => Val (Inf s1)
  | Fin _ _ _, Inf s2 => Val (Inf s2)
  | Fin s1 c1 e1, Fin s2 c2 e2 =>
      let '(s, c, e) := exact_add s1 c1 e1 s2 c2 e2 in dec_fix s c e
  end.

(** [a < b] ([Decimal.__lt__]): a NaN operand signals. *)
Definition dec_lt (a b : Decimal) : arith bool :=
  match a, b with
  | NaN _ _ _, _ | _, NaN _ _ _ => Trap InvalidOperation
  | Inf s1, Inf s2 => Val (s1 && negb s2)
  | Inf s1, Fin _ _ _ => Val s1
  | Fin _ _ _, Inf s2 => Val (negb s2)
  | Fin s1 c1 e1, Fin s2 c2 e2 =>
      let e := Z.min e1 e2 in
      Val (signed s1 c1 * 10 ^ (e1 - e) <? signed s2 c2 * 10 ^ (e2 - e))%Z
  end.

Definition is_nan (d : Decimal) : bool :=
  match d with NaN _ _ _ => true | _ => false end.

Definition is_finite (d : Decimal) : bool :=
  match d with Fin _ _ _ => true | _ => false end.

(** [Decimal("0")] and [Decimal(0)] *)
Definition dec_zero : Decimal := Fin false 0 0.

End Dec.
Import Dec.

(* ----------------------------------------------------------------- *)
(** ** The [csv] module, excel dialect *)

Module Csv.

Definition CR : ascii := "013"%char.
Definition LF : ascii := "010"%char.
Definition dquote : ascii := "034"%char.
Definition comma : ascii := ","%char.

Definition is_newline (c : ascii) : bool := Ascii.eqb c CR || Ascii.eqb c LF.

(** *** Writer ([QUOTE_MINIMAL], doubled quotes, lines end in CR LF) *)

Definition needs_quote (c : ascii) : bool :=
  Ascii.eqb c comma || Ascii.eqb c dquote || is_newline c.

Definition escape_char (c : ascii) : pystr :=
  if Ascii.eqb c dquote then [dquote; dquote] else [c].

Definition write_field (f : pystr) : pystr :=
  if existsb needs_quote f then dquote :: flat_map escape_char f ++ [dquote] else f.

Fixpoint join (sep : ascii) (l : list pystr) : pystr :=
  match l with
  | [] => []
  | [x] => x
  | x :: t => x ++ sep :: join sep t
  end.

(** [writer.writerow(row)]; a lone empty field is written quoted. *)
Definition writerow (row : list pystr) : pystr :=
  match row with
  | [[]] => [dquote; dquote; CR; LF]
  | _ => join comma (map write_field row) ++ [CR; LF]
  end.

(** *** Reader *)

(** The lines a file opened with [newline=''] iterates over: they end
    after CR LF, CR or LF, and keep their ending. *)
Fixpoint file_lines (s : pystr) (cur : pystr) : list pystr :=
  match s with
  | [] => match cur with [] => [] | _ => [cur] end
  | c :: t =>
      if Ascii.eqb c LF then (cur ++ [c]) :: file_lines t []
      else if Ascii.eqb c CR then
        match t with
        | c' :: t' =>
            if Ascii.eqb c' LF then (cur ++ [c; c']) :: file_lines t' []
            else (cur ++ [c]) :: file_lines t []
        | [] => [cur ++ [c]]
        end
      else file_lines t (cur ++ [c])
  end.

Inductive rstate :=
| START_RECORD | START_FIELD | IN_FIELD
| IN_QUOTED_FIELD | QUOTE_IN_QUOTED_FIELD | EAT_CRNL.

Record reader := mkreader {
  state : rstate;
  field : pystr;            (* the field being read *)
  fields : list pystr       (* the fields of the record so far *)
}.

Definition parse_reset : reader := mkreader START_RECORD [] [].

(** [csv.field_size_limit()] *)
Definition field_limit : N := 131072.

(** One more character in the field; [None] is [csv.Error]: the field
    is at the limit already. *)
Definition parse_add_char (r : reader) (c : ascii) (st : rstate) : option reader :=
  if (field_limit <=? N.of_nat (length (field r)))%N then None
  else Some (mkreader st (field r ++ [c]) (fields r)).

Definition parse_save_field (r : reader) (st : rstate) : reader :=
  mkreader st [] (fields r ++ [field r]).

Definition set_state (r : reader) (st : rstate) : reader :=
  mkreader st (field r) (fields r).

(** After the end of a field: the state that follows a line end. *)
Definition eol_state (c : option ascii) : rstate :=
  match c with None => START_RECORD | Some _ => EAT_CRNL end.

Definition is_eol (c : option ascii) : bool :=
  match c with None => true | Some x => is_newline x end.

Definition start_field (r : reader) (c : option ascii) : option reader :=
  match c with
  | None => Some (parse_save_field r START_RECORD)
  | Some x =>
      if is_newline x then Some (parse_save_field r EAT_CRNL)
      else if Ascii.eqb x dquote then Some (set_state r IN_QUOTED_FIELD)
      else if Ascii.eqb x comma then Some (parse_save_field r START_FIELD)
      else parse_add_char r x IN_FIELD
  end.

(** [parse_process_char]: one character, or [None] for the end of a
    line; [None] as a result is [csv.Error]. *)
Definition parse_process_char (r : reader) (c : option ascii) : option reader :=
  match state r with
  | START_RECORD =>
      match c with
      | None => Some r
      | Some x => if is_newline x then Some (set_state r EAT_CRNL)
                  else start_field r c
      end
  | START_FIELD => start_field r c
  | IN_FIELD =>
      match c with
      | None => Some (parse_save_field r START_RECORD)
      | Some x =>
          if is_newline x then Some (parse_save_field r EAT_CRNL)
          else if Ascii.eqb x comma then Some (parse_save_field r START_FIELD)
          else parse_add_char r x IN_FIELD
      end
  | IN_QUOTED_FIELD =>
      match c with
      | None => Some r
      | Some x =>
          if Ascii.eqb x dquote then Some (set_state r QUOTE_IN_QUOTED_FIELD)
          else parse_add_char r x IN_QUOTED_FIELD
      end
  | QUOTE_IN_QUOTED_FIELD =>
      match c with
      | None => Some (parse_save_field r START_RECORD)
      | Some x =>
          if Ascii.eqb x dquote then parse_add_char r x IN_QUOTED_FIELD
          else if Ascii.eqb x comma then Some (parse_save_field r START_FIELD)
          else if is_newline x then Some (parse_save_field r EAT_CRNL)
          else parse_add_char r x IN_FIELD
      end
  | EAT_CRNL =>
      match c with
      | None => Some (set_state r START_RECORD)
      | Some x => if is_newline x then Some r else None
      end
  end.

Fixpoint feed (r : reader) (cs : pystr) : option reader :=
  match cs with
  | [] => Some r
  | c :: t =>
      match parse_process_char r (Some c) with
      | Some r' => feed r' t
      | None => None
      end
  end.

(** One line: its characters, then the end-of-line event. *)
Definition feed_line (r : reader) (line : pystr) : option reader :=
  match feed r line with
  | Some r' => parse_process_char r' None
  | None => None
  end.

(** What iterating over a reader gives: the records it returned, and
    whether the input was read to its end; [false] is [csv.Error],
    raised after these records were returned. *)
Definition read : Type := (list (list pystr) * bool)%type.

Definition add_record (row : list pystr) (x : read) : read := (row :: fst x, snd x).

Definition broken : read := ([], false).

(** The records of [csv.reader(f)]: a record ends with the line after
    which the reader is back at [START_RECORD]; at the end of the
    input an open quoted field is saved as it stands. *)
Fixpoint records (r : reader) (lines : list pystr) : read :=
  match lines with
  | [] =>
      match state r, field r with
      | START_RECORD, [] => ([], true)
      | IN_QUOTED_FIELD, _ | _, _ :: _ => ([fields r ++ [field r]], true)
      | _, [] => ([], true)
      end
  | l :: ls =>
      match feed_line r l with
      | None => broken
      | Some r' =>
          match state r' with
          | START_RECORD => add_record (fields r') (records parse_reset ls)
          | _ => records r' ls
          end
      end
  end.

Definition reader_rows (text : pystr) : read :=
  records parse_reset (file_lines text []).

(** *** [DictReader] *)

(** A cell is a string, or [None] where the row was too short. *)
Definition cell := option pystr.

(** A row: the cells by field name, and under the key [None] the
    cells beyond the field names, when there are any. *)
Record rowdict := mkrow {
  items : list (pystr * cell);
  restkey : option (list pystr)
}.

Fixpoint dict_set {V} (d : list (pystr * V)) (k : pystr) (v : V) : list (pystr * V) :=
  match d with
  | [] => [(k, v)]
  | (k', v') :: t =>
      if str_eqb k k' then (k', v) :: t else (k', v') :: dict_set t k v
  end.

Fixpoint dict_get {V} (d : list (pystr * V)) (k : pystr) : option V :=
  match d with
  | [] => None
  | (k', v) :: t => if str_eqb k k' then Some v else dict_get t k
  end.

Definition make_row (fieldnames row : list pystr) : rowdict :=
  let d := fold_left (fun d kv => dict_set d (fst kv) (Some (snd kv)))
                     (combine fieldnames row) [] in
  let d' := fold_left (fun d k => dict_set d k None)
                      (skipn (length row) fieldnames) d in
  mkrow d' (if (length fieldnames <? length row)%nat
            then Some (skipn (length fieldnames) row) else None).

Definition row_is_blank (r : list pystr) : bool :=
  match r with [] => true | _ => false end.

(** The rows of [csv.DictReader(f)]: the first record gives the field
    names, empty records are passed over. *)
Definition DictReader (rows : list (list pystr)) : list rowdict :=
  match rows with
  | [] => []
  | fieldnames :: data =>
      map (make_row fieldnames) (filter (fun r => negb (row_is_blank r)) data)
  end.

(** [row.get(k, default)] *)
Definition row_get (r : rowdict) (k : pystr) (default : cell) : cell :=
  match dict_get (items r) k with
  | Some v => v
  | None => default
  end.

(** [not row] *)
Definition row_is_empty (r : rowdict) : bool :=
  match items r, restkey r with
  | [], None => true
  | _, _ => false
  end.

End Csv.
Import Csv.

(* ----------------------------------------------------------------- *)
(** ** The program *)

Module Tracker.

Definition FIELDNAMES : list pystr :=
  [lit "id"; lit "date"; lit "category"; lit "amount"; lit "currency"; lit "description"].

(** An expense, as [load_expenses] and [add_expense] build it. *)
Record expense := mkexpense {
  e_id : Z;
  e_date : option date;
  e_category : pystr;
  e_amount : Decimal;
  e_currency : pystr;
  e_description : pystr
}.

(** *** The world: the file, the console, the calendar *)

Inductive exn :=
| AttributeError              (* [None.strip()] *)
| CsvError                    (* [csv.Error] *)
| FileNotFoundError
| EOFError                    (* [input()] at the end of the input *)
| ValueError                  (* [str(..)] of an [int] beyond the digit limit *)
| DecimalException (s : signal).

(** What the program writes: a printed line, or the prompt of [input]. *)
Inductive out := Line (s : pystr) | Prompt (s : pystr).

Record World := mkworld {
  file : option pystr;        (* [expenses.csv], [None] when it does not exist *)
  stdin : list pystr;         (* the lines still to be typed *)
  stdout : list out;
  today : date                (* [date.today()] *)
}.

Inductive outcome (A : Type) : Type :=
| Ok (a : A) (w : World)
| Raise (e : exn) (w : World).
Arguments Ok {A} a w.
Arguments Raise {A} e w.

Definition M (A : Type) : Type := World -> outcome A.

Definition ret {A} (a : A) : M A := fun w => Ok a w.

Definition bind {A B} (m : M A) (k : A -> M B) : M B :=
  fun w => match m w with
           | Ok a w' => k a w'
           | Raise e w' => Raise e w'
           end.

Notation "x <- m ;; k" := (bind m (fun x => k))
  (at level 61, m at next level, right associativity).
Notation "m ;;; k" := (bind m (fun _ => k))
  (at level 61, right associativity).

Definition raise {A} (e : exn) : M A := fun w => Raise e w.

Definition emit (o : out) (w : World) : World :=
  mkworld (file w) (stdin w) (stdout w ++ [o]) (today w).

Definition print (s : pystr) : M unit := fun w => Ok tt (emit (Line s) w).

Definition input (prompt : pystr) : M pystr :=
  fun w =>
    let w' := emit (Prompt prompt) w in
    match stdin w' with
    | [] => Raise EOFError w'
    | l :: ls => Ok l (mkworld (file w') ls (stdout w') (today w'))
    end.

Definition read_file : M pystr :=
  fun w => match file w with
           | Some t => Ok t w
           | None => Raise FileNotFoundError w
           end.

Definition write_file (t : pystr) : M unit :=
  fun w => Ok tt (mkworld (Some t) (stdin w) (stdout w) (today w)).

Definition file_exists : M bool :=
  fun w => Ok (match file w with Some _ => true | None => false end) w.

Definition get_today : M date := fun w => Ok (today w) w.

Definition lift_arith {A} (a : arith A) : M A :=
  match a with
  | Val v => ret v
  | Trap s => raise (DecimalException s)
  end.

(** [str(z)] in a command. *)
Definition str_m (z : Z) : M pystr :=
  match str_int z with
  | Some s => ret s
  | None => raise ValueError
  end.

(** [f"{z:0wd}"] in a command. *)
Definition fmt_m (w : nat) (z : Z) : M pystr :=
  if int_ok z then ret (fmt_0d w z) else raise ValueError.

Fixpoint print_all (ls : list pystr) : M unit :=
  match ls with
  | [] => ret tt
  | l :: t => print l ;;; print_all t
  end.

(** *** [ensure_file] *)

Definition header_text : pystr := writerow FIELDNAMES.

Definition ensure_file : M unit :=
  ex <- file_exists ;;
  if negb ex then write_file header_text else ret tt.

(** *** [load_expenses] *)

Inductive loaded :=
| Skipped                     (* [continue] *)
| Kept (e : expense)          (* [expenses.append(expense)] *)
| Failed (x : exn).

Definition cell_truthy (c : cell) : bool :=
  match c with Some (_ :: _) => true | _ => false end.

(** [c.strip()] then the rest of the row; [None] has no [strip]. *)
Definition with_strip (c : cell) (k : pystr -> loaded) : loaded :=
  match c with
  | Some s => k (strip s)
  | None => Failed AttributeError
  end.

(** The date of a stripped cell: absent when blank or unparseable. *)
Definition date_of_text (d_str : pystr) : option date :=
  match d_str with
  | [] => None
  | _ => strptime_ymd d_str
  end.

(** The amount of a stripped cell: [0] when blank or unparseable. *)
Definition amount_of_text (amt_str : pystr) : Decimal :=
  match amt_str with
  | [] => dec_zero
  | _ => match Decimal_of_str amt_str with
         | Some a => a
         | None => dec_zero
         end
  end.

(** The body of the loop over the rows. *)
Definition load_row (row : rowdict) : loaded :=
  if row_is_empty row || negb (cell_truthy (row_get row (lit "id") None)) then Skipped
  else
    match row_get row (lit "id") None with
    | None => Skipped
    | Some id_text =>
        match py_int id_text with
        | None => Skipped
        | Some eid =>
            with_strip (row_get row (lit "date") (Some [])) (fun d_str =>
            let d := date_of_text d_str in
            with_strip (row_get row (lit "amount") (Some [])) (fun amt_str =>
            let amount := amount_of_text amt_str in
            with_strip (row_get row (lit "category") (Some [])) (fun cat =>
            with_strip (row_get row (lit "currency") (Some [])) (fun cur =>
            with_strip (row_get row (lit "description") (Some [])) (fun descr =>
            Kept (mkexpense eid d (str_or cat (lit "uncategorized")) amount
                            (str_or cur (lit "USD")) (str_or descr [])))))))
        end
    end.

Fixpoint load_rows (rows : list rowdict) (expenses : list expense)
  : exn + list expense :=
  match rows with
  | [] => inr expenses
  | row :: rest =>
      match load_row row with
      | Skipped => load_rows rest expenses
      | Kept e => load_rows rest (expenses ++ [e])
      | Failed x => inl x
      end
  end.

(** What [load_expenses] makes of the text of the file.  The rows are
    read one by one: an exception of the loop body comes before the
    [csv.Error] of a later record. *)
Definition parse_expenses (text : pystr) : exn + list expense :=
  let (rows, complete) := reader_rows text in
  match load_rows (DictReader rows) [] with
  | inl x => inl x
  | inr expenses => if complete then inr expenses else inl CsvError
  end.

Definition load_expenses : M (list expense) :=
  ensure_file ;;;
  text <- read_file ;;
  match parse_expenses text with
  | inl x => raise x
  | inr expenses => ret expenses
  end.

(** *** [save_expenses] *)

(** The cells written for an expense whose id converts to text. *)
Definition expense_row (e : expense) : list pystr :=
  [ str_of_int (e_id e);
    match e_date e with Some d => isoformat d | None => [] end;
    e_category e;
    dec_str (e_amount e);
    e_currency e;
    e_description e ].

(** The file with the header and a row for each of the expenses. *)
Definition render_expenses (expenses : list expense) : pystr :=
  header_text ++ flat_map (fun e => writerow (expense_row e)) expenses.

(** The rows are written one after the other: [str(e["id"])] fails at
    the first id beyond the digit limit, and the file, closed by
    [with], keeps the header and the rows written before. *)
Fixpoint write_rows (expenses : list expense) (written : pystr) : pystr * bool :=
  match expenses with
  | [] => (written, true)
  | e :: rest =>
      if int_ok (e_id e) then write_rows rest (written ++ writerow (expense_row e))
      else (written, false)
  end.

Definition save_expenses (expenses : list expense) : M unit :=
  let (text, done) := write_rows expenses header_text in
  write_file text ;;;
  if done then ret tt else raise ValueError.

(** *** [next_id] *)

Definition next_id (expenses : list expense) : Z :=
  match expenses with
  | [] => 1
  | e :: rest => fold_left Z.max (map e_id rest) (e_id e) + 1
  end%Z.

(** *** [add_expense] *)

Definition add_expense : M unit :=
  expenses <- load_expenses ;;
  let eid := next_id expenses in
  today <- get_today ;;
  typed <- input (lit "Date (YYYY-MM-DD) [default " ++ isoformat today ++ lit "]: ") ;;
  let date_input := str_or (strip typed) (isoformat today) in
  match strptime_ymd date_input with
  | None => print (lit "Invalid date format. Use YYYY-MM-DD. Expense not added.")
  | Some dt =>
      typed <- input (lit "Category (e.g., food, transport, rent) [default: uncategorized]: ") ;;
      let category := str_or (strip typed) (lit "uncategorized") in
      typed <- input (lit "Amount (numbers only, e.g. 12.50): ") ;;
      match Decimal_of_str (strip typed) with
      | None => print (lit "Invalid amount. Use numbers like 12.50. Expense not added.")
      | Some amount =>
          typed <- input (lit "Currency [default USD]: ") ;;
          let currency := str_or (strip typed) (lit "USD") in
          typed <- input (lit "Description (optional): ") ;;
          let description := strip typed in
          let new_expense := mkexpense eid (Some dt) category amount currency description in
          save_expenses (expenses ++ [new_expense]) ;;;
          id_text <- str_m eid ;;
          print (lit "Added expense id=" ++ id_text ++ lit ": " ++ dec_str amount
                 ++ lit " " ++ currency ++ lit " on " ++ isoformat dt
                 ++ lit " (" ++ category ++ lit ")")
      end
  end.

(** *** [list_expenses] *)

Section Sorted.
Variables (A : Type) (lt : A -> A -> bool).

(** [x] comes from before the elements of [l] in the input: it stays
    before those it is not smaller than. *)
Fixpoint insert_desc (x : A) (l : list A) : list A :=
  match l with
  | [] => [x]
  | y :: t => if lt x y then y :: insert_desc x t else x :: y :: t
  end.

(** [sorted(l, key=.., reverse=True)]: descending and stable. *)
Definition sorted_desc (l : list A) : list A := fold_right insert_desc [] l.
End Sorted.
Arguments insert_desc {A} lt x l.
Arguments sorted_desc {A} lt l.

(** [x["date"] or date.min] *)
Definition date_key (e : expense) : date :=
  match e_date e with Some d => d | None => date_min end.

Definition sort_by_date (expenses : list expense) : list expense :=
  sorted_desc (fun x y => date_ltb (date_key x) (date_key y)) expenses.

(** [l[:limit]] *)
Definition slice_to {A} (limit : Z) (l : list A) : list A :=
  if (limit <? 0)%Z then firstn (length l - Z.to_nat (- limit)) l
  else firstn (Z.to_nat limit) l.

Definition sp (a b : pystr) : pystr := a ++ " "%char :: b.

Definition table_header : pystr :=
  sp (ljust 4 (lit "id")) (sp (ljust 10 (lit "date")) (sp (ljust 15 (lit "category"))
    (sp (rjust 10 (lit "amount")) (sp (ljust 8 (lit "currency")) (lit "description"))))).

Definition table_row (e : expense) : pystr :=
  let date_str := match e_date e with Some d => isoformat d | None => [] end in
  sp (ljust 4 (str_of_int (e_id e))) (sp (ljust 10 date_str) (sp (ljust 15 (e_category e))
    (sp (rjust 10 (dec_str (e_amount e))) (sp (ljust 8 (e_currency e)) (e_description e))))).

(** The rows that [list_expenses] shows. *)
Definition listed (expenses : list expense) (limit : Z) : list expense :=
  slice_to limit (sort_by_date expenses).

(** The loop that prints the rows: the id of each goes through a
    format field. *)
Fixpoint print_rows (es : list expense) : M unit :=
  match es with
  | [] => ret tt
  | e :: rest =>
      (if int_ok (e_id e) then print (table_row e) else raise ValueError) ;;;
      print_rows rest
  end.

Definition list_expenses (expenses : option (list expense)) (limit : Z) : M unit :=
  expenses <- match expenses with
              | None => load_expenses
              | Some l => ret l
              end ;;
  match expenses with
  | [] => print (lit "No expenses found.")
  | _ =>
      print table_header ;;;
      print_rows (listed expenses limit)
  end.

(** *** [delete_expense] *)

Definition delete_expense : M unit :=
  expenses <- load_expenses ;;
  match expenses with
  | [] => print (lit "No expenses to delete.")
  | _ =>
      list_expenses (Some expenses) 50 ;;;
      typed <- input (lit "Enter expense id to delete: ") ;;
      match py_int (strip typed) with
      | None => print (lit "Invalid id. Cancelled.")
      | Some eid =>
          let new_expenses := filter (fun e => negb (e_id e =? eid)%Z) expenses in
          if (length new_expenses =? length expenses)%nat
          then print (lit "No expense with that id. Nothing deleted.")
          else
            save_expenses new_expenses ;;;
            id_text <- str_m eid ;;
            print (lit "Deleted expense id=" ++ id_text ++ lit ".")
      end
  end.

(** *** [summarize_expenses] *)

(** [year = int(parts[0]); mon = int(parts[1])] over [month.split("-")];
    [None] is any exception of the [try] block. *)
Definition parse_month (month : pystr) : option (Z * Z) :=
  match split_on "-" month with
  | p0 :: rest =>
      match py_int p0 with
      | None => None
      | Some y =>
          match rest with
          | p1 :: _ => match py_int p1 with
                       | Some m => Some (y, m)
                       | None => None
                       end
          | [] => None
          end
      end
  | [] => None
  end.

Definition in_month (y m : Z) (e : expense) : bool :=
  match e_date e with
  | Some d => ((year d =? y) && (month d =? m))%Z
  | None => false
  end.

(** [sum(..)] over decimals: it starts from the integer [0]. *)
Definition py_sum (l : list Decimal) : arith Decimal :=
  match l with
  | [] => Val dec_zero
  | x :: t =>
      fold_left (fun acc y => match acc with
                              | Val a => dec_add a y
                              | Trap s => Trap s
                              end)
                t (dec_add dec_zero x)
  end.

(** The loop that fills [by_cat], a dict in insertion order. *)
Fixpoint by_category (l : list expense) (by_cat : list (pystr * Decimal))
  : arith (list (pystr * Decimal)) :=
  match l with
  | [] => Val by_cat
  | e :: t =>
      let cat := e_category e in
      let cur := match dict_get by_cat cat with
                 | Some v => v
                 | None => dec_zero            (* [setdefault] *)
                 end in
      match dec_add cur (e_amount e) with
      | Val v => by_category t (dict_set by_cat cat v)
      | Trap s => Trap s
      end
  end.

(** [sorted(by_cat.items(), key=lambda x: x[1], reverse=True)]: every
    item of a list of two or more is compared, and comparing a NaN
    signals. *)
Definition sort_by_subtotal (items : list (pystr * Decimal))
  : arith (list (pystr * Decimal)) :=
  if (2 <=? length items)%nat && existsb (fun kv => is_nan (snd kv)) items
  then Trap InvalidOperation
  else Val (sorted_desc (fun x y => match dec_lt (snd x) (snd y) with
                                    | Val b => b
                                    | Trap _ => false
                                    end) items).

Definition category_line (kv : pystr * Decimal) : pystr :=
  lit " - " ++ fst kv ++ lit ": " ++ dec_str (snd kv).

(** The records in scope and the title: all of them when no month is
    given ([if month:] is false for [None] and for the empty text),
    those of the month otherwise; [None] when the month does not parse.
    The numbers of the title were returned by [int(..)], so that their
    conversion to text does not fail: this is what [scope_of] returns. *)
Definition month_scope (month : option pystr) (expenses : list expense)
  : option (list expense * pystr) :=
  match month with
  | None | Some [] => Some (expenses, lit "Summary (all time)")
  | Some m =>
      match parse_month m with
      | None => None
      | Some (year, mon) =>
          Some (filter (in_month year mon) expenses,
                lit "Summary for " ++ str_of_int year ++ lit "-" ++ fmt_0d 2 mon)
      end
  end.

Definition total_line (total : Decimal) (first : expense) : pystr :=
  lit "Total: " ++ dec_str total ++ lit " " ++ e_currency first.

(** The records in scope and the title, as the program computes them:
    the title is made after the [try] block and the loop that filters. *)
Definition scope_of (month : option pystr) (expenses : list expense)
  : M (option (list expense * pystr)) :=
  match month with
  | None | Some [] => ret (Some (expenses, lit "Summary (all time)"))
  | Some m =>
      match parse_month m with
      | None => ret None
      | Some (year, mon) =>
          y <- str_m year ;;
          mo <- fmt_m 2 mon ;;
          ret (Some (filter (in_month year mon) expenses,
                     lit "Summary for " ++ y ++ lit "-" ++ mo))
      end
  end.

Definition summarize_expenses (month : option pystr) : M unit :=
  expenses <- load_expenses ;;
  match expenses with
  | [] => print (lit "No expenses to summarize.")
  | _ =>
      scope <- scope_of month expenses ;;
      match scope with
      | None => print (lit "Invalid month format. Use YYYY-MM (e.g., 2025-10).")
      | Some ([], title) => print (lit "No expenses for " ++ title ++ lit ".")
      | Some ((first :: _) as filtered, title) =>
          total <- lift_arith (py_sum (map e_amount filtered)) ;;
          by_cat <- lift_arith (by_category filtered []) ;;
          print title ;;;
          print (total_line total first) ;;;
          print (lit "By category:") ;;;
          lines <- lift_arith (sort_by_subtotal by_cat) ;;
          print_all (map category_line lines)
      end
  end.

(** The world after some more output. *)
Definition with_out (w : World) (o : list out) : World :=
  mkworld (file w) (stdin w) (stdout w ++ o) (today w).

(** The store holds the records [es]: the file exists and reads as [es]. *)
Definition holds (w : World) (es : list expense) : Prop :=
  exists text, file w = Some text /\ parse_expenses text = inr es.

End Tracker.
Import Tracker.

(* ----------------------------------------------------------------- *)
(** ** The menu *)

Module Cli.

(** [c.lower()] on the code points below 256. *)
Definition lower_char (c : ascii) : ascii :=
  let n := ord c in
  if (((65 <=? n) && (n <=? 90))
      || ((192 <=? n) && (n <=? 222) && negb (n =? 215)))%N
  then ascii_of_N (n + 32) else c.

(** [s.lower()] *)
Definition str_lower (s : pystr) : pystr := map lower_char s.

(** [choice in (..)] *)
Definition str_in (s : pystr) (l : list pystr) : bool := existsb (str_eqb s) l.

(** How one turn of the loop ends: [continue] or the end of the body,
    or [break]. *)
Inductive step := Continue | Break.

Section Main.
(** Two messages of [main] carry the dash U+2014, a code point that
    [pystr] does not have: its text is left open. *)
Variable dash : pystr.

Definition banner : pystr :=
  lit "Simple Expense Tracker " ++ dash
  ++ lit " enter a choice. (type 'help' to see options)".

(** [print("Goodbye .. saved in", CSV_FILE)]: the two joined by a space. *)
Definition goodbye : pystr :=
  lit "Goodbye " ++ dash ++ lit " your expenses are saved in"
  ++ " "%char :: lit "expenses.csv".

Definition options_text : pystr :=
  LF :: lit "Options: [A]dd  [D]elete  [L]ist  [S]ummarize  [Q]uit".

(** The body of [while True] once the choice has been read. *)
Definition dispatch (choice : pystr) : M step :=
  match choice with
  | [] => ret Continue
  | _ =>
      if str_in choice [lit "a"; lit "add"] then add_expense ;;; ret Continue
      else if str_in choice [lit "d"; lit "delete"] then delete_expense ;;; ret Continue
      else if str_in choice [lit "l"; lit "list"] then list_expenses None 20 ;;; ret Continue
      else if str_in choice [lit "s"; lit "summarize"] then
        typed <- input (lit "Enter month (YYYY-MM) or press Enter for all: ") ;;
        summarize_expenses (match strip typed with
                            | [] => None
                            | month => Some month
                            end) ;;;
        ret Continue
      else if str_in choice [lit "q"; lit "quit"; lit "exit"] then
        print goodbye ;;; ret Break
      else if str_in choice [lit "help"; lit "h"; lit "?"] then
        print (lit "Commands: add, delete, list, summarize, quit") ;;; ret Continue
      else print (lit "Unknown option. Type 'help' for commands.") ;;; ret Continue
  end.

(** The body of [while True]. *)
Definition main_body : M step :=
  print options_text ;;;
  typed <- input (lit "Choose: ") ;;
  dispatch (str_lower (strip typed)).

(** The loop, for at most [fuel] turns; [None] when they are used up. *)
Fixpoint main_loop (fuel : nat) (w : World) : option (outcome unit) :=
  match fuel with
  | O => None
  | S f =>
      match main_body w with
      | Raise e w' => Some (Raise e w')
      | Ok Break w' => Some (Ok tt w')
      | Ok Continue w' => main_loop f w'
      end
  end.

Definition main (fuel : nat) (w : World) : option (outcome unit) :=
  match (ensure_file ;;; print banner) w with
  | Raise e w' => Some (Raise e w')
  | Ok _ w' => main_loop fuel w'
  end.
End Main.

End Cli.
Import Cli.

(* ----------------------------------------------------------------- *)
(** ** The reader in one pass *)

(** [reader_rows] cuts the text into lines and feeds them one by one.
    The same records come out of one pass over the characters, the end
    of a line being signalled when its last character has been seen:
    at LF, or after CR when the next character is not LF. *)
Inductive line_mode := Fresh | Mid | AfterCR.

(** The end of the input, for [records]. *)
Definition finish (r : reader) : read :=
  match state r, field r with
  | START_RECORD, [] => ([], true)
  | IN_QUOTED_FIELD, _ | _, _ :: _ => ([fields r ++ [field r]], true)
  | _, [] => ([], true)
  end.

(** The end of a line: the record is complete when the reader is back
    at [START_RECORD]. *)
Definition end_line (r : reader) (k : reader -> read) : read :=
  match parse_process_char r None with
  | None => broken
  | Some r' =>
      match state r' with
      | START_RECORD => add_record (fields r') (k parse_reset)
      | _ => k r'
      end
  end.

Fixpoint stream (text : pystr) (r : reader) (m : line_mode) {struct text} : read :=
  match text with
  | [] => match m with
          | Fresh => finish r
          | _ => end_line r finish
          end
  | c :: t =>
      if Ascii.eqb c LF then
        match parse_process_char r (Some c) with
        | None => broken
        | Some r1 => end_line r1 (fun r2 => stream t r2 Fresh)
        end
      else
        let go := fun r0 =>
          match parse_process_char r0 (Some c) with
          | None => broken
          | Some r1 => stream t r1 (if Ascii.eqb c CR then AfterCR else Mid)
          end in
        match m with
        | AfterCR => end_line r go
        | _ => go r
        end
  end.

Definition mode_of (cur : pystr) : line_mode :=
  match cur with [] => Fresh | _ => Mid end.

(** A field that the reader accepts: no longer than the limit. *)
Definition fits (f : pystr) : Prop := (N.of_nat (length f) <= field_limit)%N.

(** A reader that expects a field. *)
Definition at_start (r : reader) : Prop :=
  (state r = START_RECORD \/ state r = START_FIELD) /\ field r = [].

(** A reader at the end of the field it holds. *)
Definition at_end (r : reader) : Prop :=
  state r = START_FIELD \/ state r = IN_FIELD \/ state r = QUOTE_IN_QUOTED_FIELD.

(* ----------------------------------------------------------------- *)
(** ** Characters that conversions leave alone *)

(** Neither white space nor an underscore. *)
Definition clean (c : ascii) : bool := negb (isspace c) && negb (Ascii.eqb c "_").

(* ----------------------------------------------------------------- *)
(** ** Checks settled by computation *)

(** The four characters of a year read back as that year. *)
Definition year_ok (y : Z) : bool :=
  match fmt_0d 4 y with
  | [a; b; c; d] =>
      forallb isdigit [a; b; c; d]
      && match py_int [a; b; c; d] with
         | Some v => (v =? y)%Z
         | None => false
         end
  | _ => false
  end.

(** The month and day of [isoformat] match [%m-%d] to the end, read
    back as that month and day, and hold no white space. *)
Definition month_day_ok (m d : Z) : bool :=
  let text := fmt_0d 2 m ++ "-"%char :: fmt_0d 2 d in
  forallb (fun c => negb (isspace c)) text
  && match match_m_d (alts_m text) with
     | Some (mt, dt, []) =>
         match py_int mt, py_int dt with
         | Some m', Some d' => (m' =? m)%Z && (d' =? d)%Z
         | _, _ => false
         end
     | _ => false
     end.

(** The text [YYYY-MM] of a year and a month. *)
Definition month_text (y mon : Z) : pystr := fmt_0d 4 y ++ "-"%char :: fmt_0d 2 mon.

(** The two characters of a month are digits and read back as that
    month. *)
Definition month_ok (mon : Z) : bool :=
  forallb isdigit (fmt_0d 2 mon)
  && match py_int (fmt_0d 2 mon) with
     | Some v => (v =? mon)%Z
     | None => false
     end.

(** The integers from [lo] to [hi]. *)
Definition Z_range (lo hi : Z) : list Z :=
  map (fun i => (lo + Z.of_nat i)%Z) (seq 0 (Z.to_nat (hi + 1 - lo))).

(* ----------------------------------------------------------------- *)
(** ** Notions used in the statements *)

(** The records that deleting [eid] keeps. *)
Definition keep_others (eid : Z) (es : list expense) : list expense :=
  filter (fun e => negb (e_id e =? eid)%Z) es.

(** Three records, and a world whose file holds the given records
    and where [typed] is about to be typed. *)
Definition r_food : expense :=
  mkexpense 1 (Some (mkdate 2025 10 1)) (lit "food") (Fin false 1010 (-2)) (lit "USD") (lit "lunch").
Definition r_rent : expense :=
  mkexpense 2 (Some (mkdate 2025 10 31)) (lit "rent") (Fin false 20 (-2)) (lit "EUR") [].
Definition r_taxi : expense :=
  mkexpense 3 (Some (mkdate 2025 11 1)) (lit "food") (Fin false 500 (-2)) (lit "USD") (lit "taxi").

Definition world_of (es : list expense) (typed : list pystr) : World :=
  mkworld (Some (render_expenses es)) typed [] (mkdate 2025 11 3).

(** The form [YYYY-MM] that the program asks for: four digits, a dash,
    two digits. *)
Definition well_formed_month (m : pystr) : bool :=
  match m with
  | [y1; y2; y3; y4; dash; m1; m2] =>
      forallb isdigit [y1; y2; y3; y4; m1; m2] && Ascii.eqb dash "-"
  | _ => false
  end.

Definition msg_invalid_month : pystr :=
  lit "Invalid month format. Use YYYY-MM (e.g., 2025-10).".

Definition msg_nothing_to_summarize : pystr := lit "No expenses to summarize.".

(** Two records of October 2025 whose amounts differ by thirty orders
    of magnitude. *)
Definition r_big : expense :=
  mkexpense 1 (Some (mkdate 2025 10 1)) (lit "misc") (Fin false 1 30) (lit "USD") [].
Definition r_one : expense :=
  mkexpense 2 (Some (mkdate 2025 10 2)) (lit "misc") (Fin false 1 0) (lit "USD") [].

(** [a] is not earlier than [b] in the order of [list_expenses]. *)
Definition not_before (a b : expense) : Prop :=
  date_ltb (date_key a) (date_key b) = false.

Definition r_undated : expense :=
  mkexpense 4 None (lit "misc") (Fin false 1 0) (lit "USD") [].
Definition r_first_day : expense :=
  mkexpense 5 (Some date_min) (lit "misc") (Fin false 2 0) (lit "USD") [].

(** The number that a finite decimal denotes. *)
Definition dec_value (d : Decimal) : Q :=
  match d with
  | Fin s c e => (inject_Z (signed s c) * 10 ^ e)%Q
  | _ => 0%Q
  end.

(** The sum of these numbers, in the rationals. *)
Definition sum_values (l : list Decimal) : Q :=
  fold_right (fun d q => (dec_value d + q)%Q) 0%Q l.

(** The size of a finite decimal counted in units of [10^e0]. *)
Definition weight (e0 : Z) (d : Decimal) : Z :=
  match d with
  | Fin _ c e => (Z.of_N c * 10 ^ (e - e0))%Z
  | _ => 0%Z
  end.

Definition total_weight (e0 : Z) (l : list Decimal) : Z :=
  fold_right (fun d z => (weight e0 d + z)%Z) 0%Z l.

Definition finite_from (e0 : Z) (d : Decimal) : Prop :=
  exists s c e, d = Fin s c e /\ (e0 <= e)%Z.

(** The amounts stay within the context: they are finite, none has an
    exponent below [e0], itself between [Etiny] and [0], and counted in
    units of [10^e0] their sizes add up to less than [10^28]. *)
Definition within_context (e0 : Z) (l : list Decimal) : Prop :=
  (Etiny <= e0 <= 0)%Z /\ Forall (finite_from e0) l /\ (total_weight e0 l < 10 ^ prec)%Z.

(** The signed size of a finite decimal in units of [10^e0]. *)
Definition aligned (e0 : Z) (d : Decimal) : Z :=
  match d with
  | Fin s c e => (signed s c * 10 ^ (e - e0))%Z
  | _ => 0%Z
  end.

Definition total_aligned (e0 : Z) (l : list Decimal) : Z :=
  fold_right (fun d z => (aligned e0 d + z)%Z) 0%Z l.

(** One step of [sum]. *)
Definition sum_step (acc : arith Decimal) (y : Decimal) : arith Decimal :=
  match acc with
  | Val a => dec_add a y
  | Trap s => Trap s
  end.

(** The amounts of the records of one category. *)
Definition amounts_of (cat : pystr) (l : list expense) : list Decimal :=
  map e_amount (filter (fun e => str_eqb (e_category e) cat) l).

(** What the entry of [by_cat] for [cat] must be once the records [P]
    have been added: absent when no record of [P] has the category,
    the exact sum of the amounts of the category otherwise. *)
Definition subtotal_ok (e0 : Z) (P : list expense) (cat : pystr) (v : option Decimal) : Prop :=
  match v with
  | Some d =>
      In cat (map e_category P)
      /\ exists s c e,
           d = Fin s c e /\ (e0 <= e <= 0)%Z
           /\ aligned e0 d = total_aligned e0 (amounts_of cat P)
           /\ (weight e0 d <= total_weight e0 (amounts_of cat P))%Z
  | None => ~ In cat (map e_category P)
  end.

(** *** Worlds and commands *)

(** The world in which a command ends, whether it returns or raises. *)
Definition final {A} (o : outcome A) : World :=
  match o with Ok _ w | Raise _ w => w end.

(** A command for which [R] relates the world it starts in to the
    world it ends in. *)
Definition preserves (R : World -> World -> Prop) {A} (m : M A) : Prop :=
  forall w, R w (final (m w)).

(** The file, once there, is the same; the input still to be read is
    what remains of the input after some lines were read. *)
Definition keeps_file (w w' : World) : Prop :=
  forall text, file w = Some text -> file w' = Some text.

Definition reads_on (w w' : World) : Prop :=
  exists used, stdin w = used ++ stdin w'.

(** No input was read. *)
Definition same_input (w w' : World) : Prop := stdin w' = stdin w.

(** The world once the file exists. *)
Definition with_file (w : World) : World :=
  mkworld (Some match file w with Some t => t | None => header_text end)
          (stdin w) (stdout w) (today w).

(** The record is of the day [d], an undated record being of [date.min]. *)
Definition same_day (d : date) (e : expense) : bool :=
  match date_compare (date_key e) d with Eq => true | _ => false end.

(** A finite subtotal. *)
Definition finite_item (kv : pystr * Decimal) : Prop := is_finite (snd kv) = true.

(** [x] is shown before [y]: its subtotal is not the smaller one. *)
Definition not_smaller (x y : pystr * Decimal) : Prop :=
  (dec_value (snd y) <= dec_value (snd x))%Q.

(** The width of the columns in front of the description. *)
Definition columns_width : nat := 4 + 1 + 10 + 1 + 15 + 1 + 10 + 1 + 8 + 1.

(** The record fits the columns of the table. *)
Definition fits_columns (e : expense) : Prop :=
  (length (str_of_int (e_id e)) <= 4)%nat
  /\ (forall d, e_date e = Some d -> valid_date d = true)
  /\ (length (e_category e) <= 15)%nat
  /\ (length (dec_str (e_amount e)) <= 10)%nat
  /\ (length (e_currency e) <= 8)%nat.

(** What [delete_expense] shows before it asks for an id. *)
Definition delete_preview (es : list expense) : list out :=
  Line table_header :: map Line (map table_row (listed es 50))
  ++ [Prompt (lit "Enter expense id to delete: ")].

Definition prompt_date (w : World) : out :=
  Prompt (lit "Date (YYYY-MM-DD) [default " ++ isoformat (today w) ++ lit "]: ").

Definition prompt_category : out :=
  Prompt (lit "Category (e.g., food, transport, rent) [default: uncategorized]: ").

Definition prompt_amount : out := Prompt (lit "Amount (numbers only, e.g. 12.50): ").

Definition prompt_currency : out := Prompt (lit "Currency [default USD]: ").

Definition prompt_description : out := Prompt (lit "Description (optional): ").

(** The five questions of [add_expense]. *)
Definition add_prompts (w : World) : list out :=
  [prompt_date w; prompt_category; prompt_amount; prompt_currency; prompt_description].

(** The line that confirms the addition of a dated record. *)
Definition added_line (e : expense) : pystr :=
  lit "Added expense id=" ++ str_of_int (e_id e) ++ lit ": " ++ dec_str (e_amount e)
  ++ lit " " ++ e_currency e ++ lit " on "
  ++ match e_date e with Some d => isoformat d | None => [] end
  ++ lit " (" ++ e_category e ++ lit ")".

(** The choice typed at the menu, as [main] compares it. *)
Definition choice_of (typed : pystr) : pystr := str_lower (strip typed).

Definition is_quit (typed : pystr) : bool :=
  str_in (choice_of typed) [lit "q"; lit "quit"; lit "exit"].

(** *** What loading makes of a row *)

(** The id of a row that is kept: the id cell is present, not empty,
    and reads as an integer. *)
Definition row_id (row : rowdict) : option Z :=
  if row_is_empty row then None
  else match row_get row (lit "id") None with
       | Some (c :: t) => py_int (c :: t)
       | _ => None
       end.

(** The stripped text of a cell, empty when the row has no such key. *)
Definition row_text (row : rowdict) (k : pystr) : pystr :=
  match row_get row k (Some []) with
  | Some s => strip s
  | None => []
  end.

(** The record of a kept row, with the defaults of each field. *)
Definition row_expense (eid : Z) (row : rowdict) : expense :=
  mkexpense eid
    (date_of_text (row_text row (lit "date")))
    (str_or (row_text row (lit "category")) (lit "uncategorized"))
    (amount_of_text (row_text row (lit "amount")))
    (str_or (row_text row (lit "currency")) (lit "USD"))
    (str_or (row_text row (lit "description")) []).

(** The records of the rows whose id reads as an integer, in order. *)
Definition kept_rows (rows : list rowdict) : list expense :=
  flat_map (fun r => match row_id r with
                     | Some eid => [row_expense eid r]
                     | None => []
                     end) rows.

(** No cell of the row is [None]: the row was not shorter than the header. *)
Definition row_complete (row : rowdict) : Prop :=
  Forall (fun kv => snd kv <> None) (items row).

(** A record that the file keeps as it is: a date of the calendar,
    and text fields without white space around them, the category and
    the currency not empty. *)
Definition storable (e : expense) : Prop :=
  (forall d, e_date e = Some d -> valid_date d = true)
  /\ strip (e_category e) = e_category e /\ e_category e <> []
  /\ strip (e_currency e) = e_currency e /\ e_currency e <> []
  /\ strip (e_description e) = e_description e.

(** A record within the limits of the conversions: its id converts
    to text, its amount is within the widest decimal context, and the
    csv reader accepts each of its six cells. *)
Definition fits_store (e : expense) : Prop :=
  int_ok (e_id e) = true
  /\ in_maxcontext (e_amount e) = true
  /\ Forall fits (expense_row e).

(** A file with a row of one cell between a row without a numeric id
    and a full row. *)
Definition short_row_file : pystr :=
  header_text
  ++ lit "x,2025-01-01,food,1.00,USD,a" ++ [CR; LF]
  ++ lit "7" ++ [CR; LF]
  ++ lit "8,2025-01-02,food,2,USD,b" ++ [CR; LF].

(** The same file with the short row filled up with empty cells. *)
Definition full_row_file : pystr :=
  header_text
  ++ lit "x,2025-01-01,food,1.00,USD,a" ++ [CR; LF]
  ++ lit "7,,,,," ++ [CR; LF]
  ++ lit "8,2025-01-02,food,2,USD,b" ++ [CR; LF].

(** A record with a comma in its category and with quotes and a line
    end in its description. *)
Definition r_quoted : expense :=
  mkexpense 6 (Some (mkdate 2025 10 5)) (lit "food, drink") (Fin false 5 0) (lit "USD")
            (lit "a " ++ dquote :: lit "late" ++ dquote :: lit " lunch" ++ [CR; LF]
             ++ lit "for two").

(** A record whose description starts with a space. *)
Definition r_spaced : expense :=
  mkexpense 1 (Some (mkdate 2025 10 1)) (lit "food") (Fin false 1250 (-2)) (lit "USD")
            (lit " lunch").

(* ================================================================= *)
(** * Properties *)
(* ================================================================= *)

Example str_of_int_ex : str_of_int 1203 = lit "1203" /\ str_of_int (-45) = lit "-45" /\ str_of_int 0 = lit "0".
Proof. repeat split; reflexivity. Qed.

Example py_int_ex :
  py_int (lit " 1_000 ") = Some 1000%Z /\ py_int (lit "007") = Some 7%Z /\
  py_int (lit "-12") = Some (-12)%Z /\ py_int (lit "1__0") = None /\
  py_int [] = None /\ py_int (lit "x1") = None /\ py_int (lit "+") = None.
Proof. repeat split; reflexivity. Qed.

Example split_ex : split_on "-" (lit "2025-10") = [lit "2025"; lit "10"] /\ split_on "-" [] = [[]].
Proof. repeat split; reflexivity. Qed.

Example isoformat_ex : isoformat (mkdate 2025 10 1) = lit "2025-10-01" /\ isoformat (mkdate 987 1 31) = lit "0987-01-31".
Proof. split; reflexivity. Qed.

Example strptime_ex :
  strptime_ymd (lit "2025-10-01") = Some (mkdate 2025 10 1) /\
  strptime_ymd (lit "2025-1-5") = Some (mkdate 2025 1 5) /\
  strptime_ymd (lit "2025-02-29") = None /\
  strptime_ymd (lit "2024-02-29") = Some (mkdate 2024 2 29) /\
  strptime_ymd (lit "2025-13-01") = None /\
  strptime_ymd (lit "2025-10-32") = None /\
  strptime_ymd (lit "0000-10-01") = None /\
  strptime_ymd (lit "2025-10-01 ") = None /\
  strptime_ymd (lit "25-10-01") = None.
Proof. repeat split; reflexivity. Qed.

Example dec_str_ex :
  dec_str (Fin false 1010 (-2)) = lit "10.10" /\
  dec_str (Fin true 5 (-3)) = lit "-0.005" /\
  dec_str (Fin false 5 (-7)) = lit "5E-7" /\
  dec_str (Fin false 123 (-9)) = lit "1.23E-7" /\
  dec_str (Fin false 12 3) = lit "1.2E+4" /\
  dec_str (Fin false 0 0) = lit "0" /\
  dec_str (Fin false 0 (-2)) = lit "0.00" /\
  dec_str (Fin false 0 2) = lit "0E+2" /\
  dec_str (NaN true false 12) = lit "-NaN12" /\
  dec_str (Inf false) = lit "Infinity".
Proof. repeat split; reflexivity. Qed.

Example Decimal_of_str_ex :
  Decimal_of_str (lit "10.10") = Some (Fin false 1010 (-2)) /\
  Decimal_of_str (lit "-.5") = Some (Fin true 5 (-1)) /\
  Decimal_of_str (lit "1.") = Some (Fin false 1 0) /\
  Decimal_of_str (lit "1_000e-2") = Some (Fin false 1000 (-2)) /\
  Decimal_of_str (lit "1.2E+4") = Some (Fin false 12 3) /\
  Decimal_of_str (lit "nan") = Some (NaN false false 0) /\
  Decimal_of_str (lit "-sNaN007") = Some (NaN true true 7) /\
  Decimal_of_str (lit "INF") = Some (Inf false) /\
  Decimal_of_str (lit ".") = None /\
  Decimal_of_str (lit "1e") = None /\
  Decimal_of_str (lit "12,5") = None /\
  Decimal_of_str (lit "abc") = None.
Proof. repeat split; reflexivity. Qed.

Example dec_add_ex :
  dec_add (Fin false 1010 (-2)) (Fin false 20 (-2)) = Val (Fin false 1030 (-2)) /\
  dec_add (Fin false 1 0) (Fin true 1 (-1)) = Val (Fin false 9 (-1)) /\
  dec_add (Fin false 1 0) (Fin true 1 0) = Val (Fin false 0 0) /\
  dec_add (Fin true 0 0) (Fin true 0 (-2)) = Val (Fin true 0 (-2)) /\
  dec_add (Fin false 1 30) (Fin false 1 0) = Val (Fin false 1000000000000000000000000000 3) /\
  dec_add (Fin false 9999999999999999999999999999 0) (Fin false 5 (-1))
    = Val (Fin false 1000000000000000000000000000 1) /\
  dec_add (Fin false 25 (-1)) (Fin false 10000000000000000000000000000 0)
    = Val (Fin false 1000000000000000000000000000 1) /\
  dec_add (Fin false 1 999999) (Fin false 9 999999) = Trap Overflow /\
  dec_add (Inf false) (Inf true) = Trap InvalidOperation /\
  dec_add (Fin false 1 0) (NaN false false 3) = Val (NaN false false 3).
Proof. repeat split; vm_compute; reflexivity. Qed.

Example writerow_ex :
  writerow [lit "a"; lit "b,c"; [dquote]; []; lit " d "]
  = lit "a," ++ [dquote] ++ lit "b,c" ++ [dquote] ++ lit ","
    ++ [dquote; dquote; dquote; dquote] ++ lit ",, d " ++ [CR; LF].
Proof. reflexivity. Qed.

Example reader_rows_ex :
  reader_rows (lit "a,b" ++ [LF] ++ lit "c" ++ [CR; CR; LF] ++ lit "d")
    = ([[lit "a"; lit "b"]; [lit "c"]; []; [lit "d"]], true) /\
  reader_rows (lit "a," ++ [dquote] ++ lit "b" ++ [CR; LF] ++ lit "c" ++ [dquote] ++ lit ",d" ++ [CR; LF])
    = ([[lit "a"; lit "b" ++ [CR; LF] ++ lit "c"; lit "d"]], true) /\
  reader_rows ([dquote] ++ lit "a" ++ [dquote] ++ lit "b,c") = ([[lit "ab"; lit "c"]], true) /\
  reader_rows ([dquote] ++ lit "abc" ++ [CR; LF]) = ([[lit "abc" ++ [CR; LF]]], true) /\
  reader_rows (lit "," ++ [CR; LF]) = ([[[]; []]], true) /\
  reader_rows ([dquote; dquote; CR; LF]) = ([[[]]], true) /\
  reader_rows ([dquote] ++ lit "a" ++ [dquote; CR; dquote] ++ lit "b" ++ [dquote])
    = ([[lit "a"]; [lit "b"]], true) /\
  reader_rows [] = ([], true).
Proof. repeat split; reflexivity. Qed.

Example DictReader_ex :
  DictReader
    (fst (reader_rows (lit "id,date" ++ [CR; LF] ++ lit "1,2" ++ [CR; LF] ++ lit "3" ++ [CR; LF]
                       ++ lit "4,5,6" ++ [CR; LF; CR; LF] ++ lit "7,8" ++ [CR; LF])))
  = [ mkrow [(lit "id", Some (lit "1")); (lit "date", Some (lit "2"))] None;
      mkrow [(lit "id", Some (lit "3")); (lit "date", None)] None;
      mkrow [(lit "id", Some (lit "4")); (lit "date", Some (lit "5"))] (Some [lit "6"]);
      mkrow [(lit "id", Some (lit "7")); (lit "date", Some (lit "8"))] None ].
Proof. reflexivity. Qed.

(* ----------------------------------------------------------------- *)
(** ** The world and the store *)

Lemma with_out_nil w : with_out w [] = w.
Proof. destruct w; unfold with_out; simpl. now rewrite app_nil_r. Qed.

Lemma with_out_app w a b : with_out (with_out w a) b = with_out w (a ++ b).
Proof. unfold with_out; simpl. now rewrite app_assoc. Qed.

Lemma print_run s w : print s w = Ok tt (with_out w [Line s]).
Proof. reflexivity. Qed.

Lemma print_all_run ls w : print_all ls w = Ok tt (with_out w (map Line ls)).
Proof.
  revert w; induction ls as [|l ls IH]; intros w; simpl.
  - now rewrite with_out_nil.
  - unfold bind. rewrite print_run, IH, with_out_app. reflexivity.
Qed.

Lemma input_run p l ls w :
  stdin w = l :: ls ->
  input p w = Ok l (mkworld (file w) ls (stdout w ++ [Prompt p]) (today w)).
Proof. intros H. unfold input; simpl. now rewrite H. Qed.

Arguments parse_expenses : simpl never.
Arguments header_text : simpl never.
Arguments render_expenses : simpl never.

Lemma ensure_file_run w :
  ensure_file w = Ok tt (match file w with
                         | Some _ => w
                         | None => mkworld (Some header_text) (stdin w) (stdout w) (today w)
                         end).
Proof.
  unfold ensure_file, file_exists, write_file, bind, ret.
  destruct (file w); reflexivity.
Qed.

Lemma load_expenses_run w text :
  file w = Some text ->
  load_expenses w = match parse_expenses text with
                    | inl x => Raise x w
                    | inr es => Ok es w
                    end.
Proof.
  intros Hf. unfold load_expenses, bind. rewrite ensure_file_run, Hf.
  unfold read_file. rewrite Hf.
  destruct (parse_expenses text); reflexivity.
Qed.

Lemma load_expenses_holds w es : holds w es -> load_expenses w = Ok es w.
Proof.
  intros (text & Hf & Hp). rewrite (load_expenses_run _ _ Hf), Hp. reflexivity.
Qed.

Lemma parse_header_text : parse_expenses header_text = inr [].
Proof. reflexivity. Qed.

(** Without a file, [load_expenses] creates it and finds no record. *)
Lemma load_expenses_absent w :
  file w = None ->
  load_expenses w = Ok [] (mkworld (Some header_text) (stdin w) (stdout w) (today w)).
Proof.
  intros Hf. unfold load_expenses, bind. rewrite ensure_file_run, Hf.
  unfold read_file; cbn [file]. rewrite parse_header_text. reflexivity.
Qed.

Lemma load_expenses_inv w es w1 :
  load_expenses w = Ok es w1 ->
  (holds w es /\ w1 = w) \/ (file w = None /\ es = []).
Proof.
  destruct (file w) as [text|] eqn:Hf.
  - rewrite (load_expenses_run _ _ Hf).
    destruct (parse_expenses text) as [x|l] eqn:Hp; intros H; inversion H; subst.
    left; split; [exists text; auto | reflexivity].
  - rewrite (load_expenses_absent _ Hf). intros H; inversion H; subst. now right.
Qed.

(** A load that finds records has changed nothing. *)
Lemma load_expenses_nonempty w es w1 :
  load_expenses w = Ok es w1 -> es <> [] -> holds w es /\ w1 = w.
Proof.
  intros H Hne. destruct (load_expenses_inv _ _ _ H) as [?|[_ ?]]; [assumption | contradiction].
Qed.

(* ----------------------------------------------------------------- *)
(** ** [next_id] *)

Lemma fold_max_ge l a : (a <= fold_left Z.max l a)%Z.
Proof. revert a; induction l as [|x l IH]; intros a; simpl; [lia|]. specialize (IH (Z.max a x)). lia. Qed.

Lemma fold_max_upper l a x : In x l -> (x <= fold_left Z.max l a)%Z.
Proof.
  revert a; induction l as [|y l IH]; intros a; simpl; [tauto|].
  intros [->|Hin]; [|now apply IH].
  pose proof (fold_max_ge l (Z.max a x)). lia.
Qed.

Lemma fold_max_attained l a : fold_left Z.max l a = a \/ In (fold_left Z.max l a) l.
Proof.
  revert a; induction l as [|y l IH]; intros a; simpl; [now left|].
  destruct (IH (Z.max a y)) as [H|H]; [|now right; right].
  rewrite H. destruct (Z.max_spec a y) as [[_ ->]|[_ ->]]; [right; now left | now left].
Qed.

Lemma next_id_above es x : In x es -> (e_id x < next_id es)%Z.
Proof.
  destruct es as [|e es]; simpl; [tauto|].
  intros [<-|Hin].
  - pose proof (fold_max_ge (map e_id es) (e_id e)). lia.
  - pose proof (fold_max_upper (map e_id es) (e_id e) (e_id x) (in_map e_id _ _ Hin)). lia.
Qed.

Lemma next_id_attained e es :
  exists x, In x (e :: es) /\ next_id (e :: es) = (e_id x + 1)%Z.
Proof.
  simpl. destruct (fold_max_attained (map e_id es) (e_id e)) as [H|H].
  - exists e. rewrite H. auto.
  - apply in_map_iff in H. destruct H as (x & Hx & Hin). exists x. rewrite Hx. auto.
Qed.

Lemma next_id_fresh es d c a cu ds :
  NoDup (map e_id es) ->
  NoDup (map e_id (es ++ [mkexpense (next_id es) d c a cu ds])).
Proof.
  intros Hnd. rewrite map_app; simpl.
  assert (Hnot : ~ In (next_id es) (map e_id es)).
  { intros Hin. apply in_map_iff in Hin. destruct Hin as (x & Hx & Hin).
    pose proof (next_id_above _ _ Hin). lia. }
  clear - Hnd Hnot. induction (map e_id es) as [|y l IH]; simpl.
  - constructor; [tauto | constructor].
  - inversion Hnd; subst. constructor.
    + rewrite in_app_iff; simpl. intros [H|[H|[]]]; [tauto|]. apply Hnot. now left.
    + apply IH; [assumption|]. intros H. apply Hnot. now right.
Qed.

(* ----------------------------------------------------------------- *)
(** ** Decimal sums *)

Lemma digits_fuel_length fuel n acc k :
  (n < 10 ^ N.of_nat (S k))%N ->
  (length (digits_fuel fuel n acc) <= S k + length acc)%nat.
Proof.
  revert n acc k; induction fuel as [|f IH]; intros n acc k Hn; cbn [digits_fuel]; [lia|].
  cbv zeta. destruct (N.ltb_spec n 10); [cbn [length]; lia|].
  destruct k as [|k].
  - change (10 ^ N.of_nat 1)%N with 10%N in Hn. lia.
  - assert (Hdiv : (n / 10 < 10 ^ N.of_nat (S k))%N).
    { apply N.Div0.div_lt_upper_bound.
      replace (N.of_nat (S (S k))) with (N.succ (N.of_nat (S k))) in Hn by lia.
      rewrite N.pow_succ_r' in Hn. exact Hn. }
    specialize (IH (n / 10)%N (digit_char (n mod 10) :: acc) k Hdiv).
    cbn [length] in IH. cbv zeta. lia.
Qed.

(** A coefficient below [10^28] has at most 28 digits. *)
Lemma ndigits_le_prec c : (c < 10 ^ 28)%N -> (ndigits c <= prec)%Z.
Proof.
  intros H. unfold ndigits, str_of_N.
  pose proof (digits_fuel_length (S (N.size_nat c)) c [] 27 H) as Hl.
  change (length (@nil ascii)) with 0%nat in Hl. unfold prec. lia.
Qed.

(** Within these bounds the context leaves a result as it is. *)
Lemma dec_fix_id s c e :
  (c < 10 ^ 28)%N -> (Etiny <= e <= 0)%Z -> dec_fix s c e = Val (Fin s c e).
Proof.
  intros Hc He. unfold dec_fix.
  pose proof (ndigits_le_prec c Hc) as Hn.
  unfold Etiny, Etop, Emax, Emin, prec in *.
  destruct (N.eqb_spec c 0) as [->|_].
  - f_equal. f_equal. lia.
  - destruct (Z.ltb_spec (999999 - 28 + 1) (ndigits c + e - 28)); [lia|].
    destruct (Z.ltb_spec e (Z.max (ndigits c + e - 28) (-999999 - 28 + 1))); [lia|].
    reflexivity.
Qed.

Lemma signed_abs s c : (Z.abs (signed s c) = Z.of_N c)%Z.
Proof. unfold signed. destruct s; lia. Qed.

Lemma pow10_pos k : (0 < 10 ^ k)%Z \/ (k < 0)%Z.
Proof. destruct (Z.leb_spec 0 k); [left; now apply Z.pow_pos_nonneg | now right]. Qed.

Lemma pow10_split a b : (0 <= a)%Z -> (0 <= b)%Z -> (10 ^ (a + b) = 10 ^ a * 10 ^ b)%Z.
Proof. intros. now apply Z.pow_add_r. Qed.

(** The exact sum, counted in units of [10^e0]. *)
Lemma exact_add_aligned e0 s1 c1 e1 s2 c2 e2 :
  (e0 <= e1)%Z -> (e0 <= e2)%Z ->
  exists s c,
    exact_add s1 c1 e1 s2 c2 e2 = (s, c, Z.min e1 e2)
    /\ (signed s c * 10 ^ (Z.min e1 e2 - e0)
        = signed s1 c1 * 10 ^ (e1 - e0) + signed s2 c2 * 10 ^ (e2 - e0))%Z
    /\ (Z.of_N c * 10 ^ (Z.min e1 e2 - e0)
        <= Z.of_N c1 * 10 ^ (e1 - e0) + Z.of_N c2 * 10 ^ (e2 - e0))%Z.
Proof.
  intros H1 H2. unfold exact_add.
  set (e := Z.min e1 e2).
  set (z := (signed s1 c1 * 10 ^ (e1 - e) + signed s2 c2 * 10 ^ (e2 - e))%Z).
  exists (if (z =? 0)%Z then s1 && s2 else (z <? 0)%Z), (Z.abs_N z).
  assert (He : (e0 <= e)%Z) by (unfold e; lia).
  assert (Hp1 : (10 ^ (e1 - e0) = 10 ^ (e1 - e) * 10 ^ (e - e0))%Z).
  { rewrite <- pow10_split by (unfold e; lia). f_equal. lia. }
  assert (Hp2 : (10 ^ (e2 - e0) = 10 ^ (e2 - e) * 10 ^ (e - e0))%Z).
  { rewrite <- pow10_split by (unfold e; lia). f_equal. lia. }
  assert (Hpos : (0 < 10 ^ (e - e0))%Z) by (apply Z.pow_pos_nonneg; lia).
  assert (Hq1 : (0 < 10 ^ (e1 - e))%Z) by (apply Z.pow_pos_nonneg; unfold e; lia).
  assert (Hq2 : (0 < 10 ^ (e2 - e))%Z) by (apply Z.pow_pos_nonneg; unfold e; lia).
  assert (Hsz : signed (if (z =? 0)%Z then s1 && s2 else (z <? 0)%Z) (Z.abs_N z) = z).
  { unfold signed. rewrite N2Z.inj_abs_N.
    destruct (Z.eqb_spec z 0) as [->|Hz].
    - destruct (s1 && s2); reflexivity.
    - destruct (Z.ltb_spec z 0); lia. }
  split; [reflexivity|]. split.
  - rewrite Hsz, Hp1, Hp2. unfold z. ring.
  - rewrite N2Z.inj_abs_N, Hp1, Hp2.
    pose proof (signed_abs s1 c1) as Ha1. pose proof (signed_abs s2 c2) as Ha2.
    rewrite <- Ha1, <- Ha2.
    assert (Hz : (Z.abs z <= Z.abs (signed s1 c1) * 10 ^ (e1 - e)
                             + Z.abs (signed s2 c2) * 10 ^ (e2 - e))%Z).
    { unfold z.
      rewrite <- (Z.abs_eq (10 ^ (e1 - e))) at 2 by lia.
      rewrite <- (Z.abs_eq (10 ^ (e2 - e))) at 2 by lia.
      rewrite <- !Z.abs_mul. apply Z.abs_triangle. }
    nia.
Qed.

(** Adding two finite decimals whose sizes stay below [10^28]: the
    result is the exact sum. *)
Lemma dec_add_exact e0 s1 c1 e1 s2 c2 e2 :
  (Etiny <= e0)%Z -> (e0 <= e1)%Z -> (e0 <= e2)%Z -> (Z.min e1 e2 <= 0)%Z ->
  (Z.of_N c1 * 10 ^ (e1 - e0) + Z.of_N c2 * 10 ^ (e2 - e0) < 10 ^ prec)%Z ->
  exists s c,
    dec_add (Fin s1 c1 e1) (Fin s2 c2 e2) = Val (Fin s c (Z.min e1 e2))
    /\ (signed s c * 10 ^ (Z.min e1 e2 - e0)
        = signed s1 c1 * 10 ^ (e1 - e0) + signed s2 c2 * 10 ^ (e2 - e0))%Z
    /\ (Z.of_N c * 10 ^ (Z.min e1 e2 - e0)
        <= Z.of_N c1 * 10 ^ (e1 - e0) + Z.of_N c2 * 10 ^ (e2 - e0))%Z.
Proof.
  intros H0 H1 H2 Hmin Hw.
  destruct (exact_add_aligned e0 s1 c1 e1 s2 c2 e2 H1 H2) as (s & c & Hex & Hval & Hsize).
  exists s, c. split; [|split; assumption].
  unfold dec_add. rewrite Hex. apply dec_fix_id; [|lia].
  assert (Hpos : (0 < 10 ^ (Z.min e1 e2 - e0))%Z) by (apply Z.pow_pos_nonneg; lia).
  assert (Hc : (Z.of_N c < 10 ^ 28)%Z) by (unfold prec in Hw; nia).
  apply N2Z.inj_lt. rewrite N2Z.inj_pow. exact Hc.
Qed.

Lemma py_sum_fold l : py_sum l = fold_left sum_step l (Val dec_zero).
Proof. destruct l; reflexivity. Qed.

Lemma weight_nonneg e0 d : (0 <= weight e0 d)%Z.
Proof.
  destruct d as [s c e| |]; simpl; try lia.
Qed.

Lemma total_weight_nonneg e0 l : (0 <= total_weight e0 l)%Z.
Proof.
  induction l as [|d l IH]; simpl; [lia|]. pose proof (weight_nonneg e0 d). lia.
Qed.

Lemma total_weight_app e0 l1 l2 :
  total_weight e0 (l1 ++ l2) = (total_weight e0 l1 + total_weight e0 l2)%Z.
Proof. induction l1 as [|d l1 IH]; simpl; [reflexivity | rewrite IH; lia]. Qed.

Lemma total_aligned_app e0 l1 l2 :
  total_aligned e0 (l1 ++ l2) = (total_aligned e0 l1 + total_aligned e0 l2)%Z.
Proof. induction l1 as [|d l1 IH]; simpl; [reflexivity | rewrite IH; lia]. Qed.

(** The running sum stays exact as long as the sizes fit. *)
Lemma sum_fold_exact e0 l :
  forall s0 c0 a0,
    (Etiny <= e0)%Z -> (e0 <= a0 <= 0)%Z -> Forall (finite_from e0) l ->
    (weight e0 (Fin s0 c0 a0) + total_weight e0 l < 10 ^ prec)%Z ->
    exists s c e,
      fold_left sum_step l (Val (Fin s0 c0 a0)) = Val (Fin s c e)
      /\ (e0 <= e <= 0)%Z
      /\ aligned e0 (Fin s c e) = (aligned e0 (Fin s0 c0 a0) + total_aligned e0 l)%Z
      /\ (weight e0 (Fin s c e) <= weight e0 (Fin s0 c0 a0) + total_weight e0 l)%Z.
Proof.
  induction l as [|x l IH]; intros s0 c0 a0 H0 Ha Hfin Hw.
  - exists s0, c0, a0. simpl in *. repeat split; lia.
  - inversion Hfin as [|? ? (sx & cx & ex & -> & Hex) Hfin']; subst.
    cbn [total_weight fold_right] in Hw. fold (total_weight e0 l) in Hw.
    pose proof (total_weight_nonneg e0 l) as Hnn.
    destruct (dec_add_exact e0 s0 c0 a0 sx cx ex) as (s & c & Hadd & Hval & Hsize);
      try lia.
    { cbn [weight] in Hw. lia. }
    cbn [fold_left sum_step]. rewrite Hadd.
    destruct (IH s c (Z.min a0 ex)) as (s' & c' & e' & Hfold & He' & Hal & Hwt);
      try assumption; try lia.
    { cbn [weight] in *. lia. }
    exists s', c', e'. split; [exact Hfold|]. split; [exact He'|].
    cbn [total_aligned total_weight fold_right aligned weight] in *.
    fold (total_aligned e0 l). fold (total_weight e0 l). split; lia.
Qed.

Lemma ten_nonzero : ~ (10 == 0)%Q.
Proof. intros H. discriminate H. Qed.

(** From units of [10^e0] back to the number denoted. *)
Lemma dec_value_aligned e0 s c e :
  (e0 <= e)%Z ->
  (dec_value (Fin s c e) == inject_Z (aligned e0 (Fin s c e)) * 10 ^ e0)%Q.
Proof.
  intros He. cbn [dec_value aligned].
  rewrite inject_Z_mult, (Zpower_Qpower 10 (e - e0)) by lia.
  change (inject_Z 10) with 10%Q.
  rewrite <- Qmult_assoc, <- Qpower_plus by exact ten_nonzero.
  replace (e - e0 + e0)%Z with e by lia. reflexivity.
Qed.

Lemma sum_values_aligned e0 l :
  Forall (finite_from e0) l ->
  (sum_values l == inject_Z (total_aligned e0 l) * 10 ^ e0)%Q.
Proof.
  induction 1 as [|x l (s & c & e & -> & He) _ IH].
  - cbn. ring.
  - cbn [sum_values total_aligned fold_right].
    fold (sum_values l). fold (total_aligned e0 l).
    rewrite inject_Z_plus, IH, (dec_value_aligned e0 s c e He). ring.
Qed.

(** The sum of amounts within the context is the exact sum. *)
Lemma py_sum_exact e0 l :
  within_context e0 l ->
  exists s c e,
    py_sum l = Val (Fin s c e) /\ (dec_value (Fin s c e) == sum_values l)%Q.
Proof.
  intros (He0 & Hfin & Hw).
  destruct (sum_fold_exact e0 l false 0%N 0%Z) as (s & c & e & Hfold & He & Hal & _);
    try assumption; try lia.
  exists s, c, e. rewrite py_sum_fold. split; [exact Hfold|].
  rewrite (dec_value_aligned e0 s c e) by lia.
  rewrite (sum_values_aligned e0 l Hfin), Hal. cbn [aligned signed]. 
  rewrite Z.mul_0_l, Z.add_0_l. reflexivity.
Qed.

Lemma str_eqb_eq a b : str_eqb a b = true <-> a = b.
Proof. unfold str_eqb. destruct (list_eq_dec ascii_dec a b); split; congruence. Qed.

Lemma str_eqb_refl a : str_eqb a a = true.
Proof. now apply str_eqb_eq. Qed.

Lemma str_eqb_neq a b : a <> b -> str_eqb a b = false.
Proof. intros H. destruct (str_eqb a b) eqn:E; [apply str_eqb_eq in E; contradiction | reflexivity]. Qed.

Lemma dict_get_set {V} (d : list (pystr * V)) k v k' :
  dict_get (dict_set d k v) k' = if str_eqb k' k then Some v else dict_get d k'.
Proof.
  induction d as [|[k0 v0] d IH]; simpl.
  - reflexivity.
  - destruct (str_eqb k k0) eqn:E; simpl.
    + apply str_eqb_eq in E. subst k0. destruct (str_eqb k' k); reflexivity.
    + destruct (str_eqb k' k0) eqn:E'.
      * apply str_eqb_eq in E'. subst k0.
        destruct (str_eqb k' k) eqn:E''; [|reflexivity].
        apply str_eqb_eq in E''. subst k'. rewrite str_eqb_refl in E. discriminate.
      * exact IH.
Qed.

Lemma amounts_of_app cat P Q :
  amounts_of cat (P ++ Q) = amounts_of cat P ++ amounts_of cat Q.
Proof. unfold amounts_of. now rewrite filter_app, map_app. Qed.

Lemma amounts_of_absent cat P : ~ In cat (map e_category P) -> amounts_of cat P = [].
Proof.
  induction P as [|e P IH]; [reflexivity|].
  intros Hn. unfold amounts_of in *. simpl.
  rewrite str_eqb_neq by (intros E; apply Hn; now left).
  apply IH. intros H. apply Hn. now right.
Qed.

Lemma amounts_of_weight e0 cat P :
  (total_weight e0 (amounts_of cat P) <= total_weight e0 (map e_amount P))%Z.
Proof.
  induction P as [|e P IH]; [simpl; lia|].
  unfold amounts_of in *. simpl. pose proof (weight_nonneg e0 (e_amount e)).
  destruct (str_eqb (e_category e) cat); simpl; lia.
Qed.

(** The loop over the records keeps every entry of [by_cat] exact. *)
Lemma by_category_exact e0 l :
  forall P d,
    (Etiny <= e0 <= 0)%Z ->
    Forall (finite_from e0) (map e_amount (P ++ l)) ->
    (total_weight e0 (map e_amount (P ++ l)) < 10 ^ prec)%Z ->
    (forall cat, subtotal_ok e0 P cat (dict_get d cat)) ->
    exists d', by_category l d = Val d'
               /\ forall cat, subtotal_ok e0 (P ++ l) cat (dict_get d' cat).
Proof.
  induction l as [|e l IH]; intros P d He0 Hfin Hw Hinv.
  - exists d. rewrite app_nil_r. auto.
  - assert (Hx : finite_from e0 (e_amount e)).
    { rewrite Forall_forall in Hfin. apply Hfin. rewrite map_app, in_app_iff. right. now left. }
    destruct Hx as (sx & cx & ex & Hamt & Hex).
    set (cat := e_category e).
    assert (Hcur : exists s0 c0 a0,
               match dict_get d cat with Some v => v | None => dec_zero end = Fin s0 c0 a0
               /\ (e0 <= a0 <= 0)%Z
               /\ aligned e0 (Fin s0 c0 a0) = total_aligned e0 (amounts_of cat P)
               /\ (weight e0 (Fin s0 c0 a0) <= total_weight e0 (amounts_of cat P))%Z).
    { specialize (Hinv cat). destruct (dict_get d cat) as [v|]; simpl in Hinv.
      - destruct Hinv as (_ & s0 & c0 & a0 & -> & Ha & Hal & Hwt). exists s0, c0, a0. auto.
      - exists false, 0%N, 0%Z. rewrite (amounts_of_absent cat P Hinv).
        repeat split; simpl; lia. }
    destruct Hcur as (s0 & c0 & a0 & Hcur & Ha0 & Hal0 & Hw0).
    assert (Hbound : (total_weight e0 (amounts_of cat P) + weight e0 (e_amount e)
                      <= total_weight e0 (map e_amount (P ++ e :: l)))%Z).
    { rewrite map_app, total_weight_app. cbn [map total_weight fold_right].
      fold (total_weight e0 (map e_amount l)).
      pose proof (amounts_of_weight e0 cat P).
      pose proof (total_weight_nonneg e0 (map e_amount l)). lia. }
    destruct (dec_add_exact e0 s0 c0 a0 sx cx ex) as (s & c & Hadd & Hval & Hsize); try lia.
    { rewrite Hamt in Hbound. cbn [weight] in *. lia. }
    cbn [by_category]. fold cat. rewrite Hcur, Hamt, Hadd.
    destruct (IH (P ++ [e]) (dict_set d cat (Fin s c (Z.min a0 ex)))) as (d' & Hd' & Hinv');
      try assumption.
    + now rewrite <- app_assoc.
    + now rewrite <- app_assoc.
    + intros cat'. rewrite dict_get_set.
      destruct (str_eqb cat' cat) eqn:E.
      * apply str_eqb_eq in E. subst cat'. cbn [subtotal_ok]. split.
        { rewrite map_app, in_app_iff. right. now left. }
        exists s, c, (Z.min a0 ex). split; [reflexivity|]. split; [lia|].
        rewrite amounts_of_app, total_aligned_app, total_weight_app.
        unfold amounts_of at 2 4. cbn [filter]. fold cat. rewrite str_eqb_refl.
        cbn [map total_aligned total_weight fold_right]. rewrite Hamt.
        cbn [aligned weight] in *. split; lia.
      * assert (Hne : cat' <> cat) by (intros ->; rewrite str_eqb_refl in E; discriminate).
        assert (Hsame : amounts_of cat' (P ++ [e]) = amounts_of cat' P).
        { rewrite amounts_of_app. unfold amounts_of at 2. cbn [filter]. fold cat.
          rewrite str_eqb_neq by congruence. cbn. apply app_nil_r. }
        specialize (Hinv cat'). destruct (dict_get d cat') as [v|]; cbn [subtotal_ok] in *.
        -- destruct Hinv as (Hin & Hrest). split.
           ++ rewrite map_app, in_app_iff. now left.
           ++ rewrite Hsame. exact Hrest.
        -- rewrite map_app, in_app_iff. cbn [map In]. fold cat. intuition congruence.
    + exists d'. split; [exact Hd'|]. intros cat'. specialize (Hinv' cat').
      now rewrite <- app_assoc in Hinv'.
Qed.

Lemma amounts_of_finite e0 cat P :
  Forall (finite_from e0) (map e_amount P) -> Forall (finite_from e0) (amounts_of cat P).
Proof.
  unfold amounts_of. rewrite !Forall_forall. intros H x Hx. apply H.
  apply in_map_iff in Hx. destruct Hx as (e & <- & Hin). apply filter_In in Hin.
  apply in_map. tauto.
Qed.

Lemma dict_get_none {V} (d : list (pystr * V)) k :
  dict_get d k = None <-> ~ In k (map fst d).
Proof.
  induction d as [|[k' v] d IH]; cbn [dict_get map fst In]; [tauto|].
  destruct (str_eqb k k') eqn:E.
  - apply str_eqb_eq in E. subst. split; [discriminate | tauto].
  - assert (k <> k') by (intros ->; rewrite str_eqb_refl in E; discriminate).
    rewrite IH. intuition congruence.
Qed.

Lemma dict_set_keys {V} (d : list (pystr * V)) k v :
  map fst (dict_set d k v)
  = match dict_get d k with
    | Some _ => map fst d
    | None => map fst d ++ [k]
    end.
Proof.
  induction d as [|[k' v'] d IH]; cbn [dict_set dict_get]; [reflexivity|].
  destruct (str_eqb k k'); cbn [map fst]; [reflexivity|].
  rewrite IH. destruct (dict_get d k); reflexivity.
Qed.

Lemma dict_set_nodup {V} (d : list (pystr * V)) k v :
  NoDup (map fst d) -> NoDup (map fst (dict_set d k v)).
Proof.
  intros H. rewrite dict_set_keys. destruct (dict_get d k) eqn:E; [exact H|].
  apply dict_get_none in E. apply NoDup_app; [exact H | repeat constructor; intros [] |].
  intros x Hx [<-|[]]. contradiction.
Qed.

(** Each category has one entry in [by_cat]. *)
Lemma by_category_nodup l :
  forall d d', by_category l d = Val d' -> NoDup (map fst d) -> NoDup (map fst d').
Proof.
  induction l as [|e l IH]; intros d d' H Hd; cbn [by_category] in H.
  - inversion H; subst. exact Hd.
  - cbv zeta in H. destruct (dec_add _ (e_amount e)) as [v|s]; [|discriminate].
    apply (IH _ _ H). now apply dict_set_nodup.
Qed.

Lemma dict_get_nodup {V} (d : list (pystr * V)) k v :
  NoDup (map fst d) -> In (k, v) d -> dict_get d k = Some v.
Proof.
  induction d as [|[k' v'] d IH]; intros Hnd Hin; [destruct Hin|].
  cbn [map fst] in Hnd. inversion Hnd as [|? ? Hnot Hnd']; subst.
  cbn [dict_get]. destruct Hin as [E|Hin].
  - inversion E; subst. now rewrite str_eqb_refl.
  - destruct (str_eqb k k') eqn:E; [|now apply IH].
    apply str_eqb_eq in E. subst k'. exfalso. apply Hnot.
    change k with (fst (k, v)). now apply in_map.
Qed.

(** Within the context [by_cat] is filled without a signal: it has one
    entry for each category, finite and exact. *)
Lemma by_category_entries e0 filtered :
  within_context e0 (map e_amount filtered) ->
  exists by_cat,
    by_category filtered [] = Val by_cat
    /\ NoDup (map fst by_cat)
    /\ (forall cat, subtotal_ok e0 filtered cat (dict_get by_cat cat))
    /\ Forall finite_item by_cat.
Proof.
  intros (He0 & Hfin & Hw).
  destruct (by_category_exact e0 filtered [] [] He0 Hfin Hw) as (d' & Hd' & Hinv).
  { intros cat. cbn. tauto. }
  cbn [app] in Hinv.
  pose proof (by_category_nodup filtered [] d' Hd' (NoDup_nil _)) as Hnd.
  exists d'. repeat split; auto.
  rewrite Forall_forall. intros [k v] Hin. specialize (Hinv k).
  rewrite (dict_get_nodup _ _ _ Hnd Hin) in Hinv. cbn [subtotal_ok] in Hinv.
  destruct Hinv as (_ & s & c & e & -> & _). reflexivity.
Qed.

(** Finite subtotals are sorted without a signal. *)
Lemma sort_by_subtotal_finite by_cat :
  Forall finite_item by_cat ->
  sort_by_subtotal by_cat
  = Val (sorted_desc (fun x y => match dec_lt (snd x) (snd y) with
                                 | Val b => b
                                 | Trap _ => false
                                 end) by_cat).
Proof.
  intros Hfin. unfold sort_by_subtotal.
  assert (Hnan : existsb (fun kv => is_nan (snd kv)) by_cat = false).
  { apply not_true_is_false. intros H. apply existsb_exists in H.
    destruct H as (kv & Hin & Hn). rewrite Forall_forall in Hfin.
    specialize (Hfin kv Hin). unfold finite_item in Hfin.
    destruct (snd kv); discriminate. }
  now rewrite Hnan, andb_false_r.
Qed.

(** C2, as stated, fails: sums are rounded to the 28 digits of the
    context.  The amounts 1E+30 and 1, both accepted from the file and
    from the prompt, add up to 1.000000000000000000000000000E+30. *)
Lemma sum_exactness_counterexample :
  Decimal_of_str (lit "1E+30") = Some (Fin false 1 30)
  /\ py_sum [Fin false 1 30; Fin false 1 0] = Val (Fin false 1000000000000000000000000000 3)
  /\ ~ (dec_value (Fin false 1000000000000000000000000000 3)
        == sum_values [Fin false 1 30; Fin false 1 0])%Q.
Proof.
  split; [reflexivity|]. split; [vm_compute; reflexivity|].
  intros H. vm_compute in H. discriminate H.
Qed.

(** C2, amended.  For amounts that stay within the context (finite,
    and adding up in size to less than [10^28] in units of their
    smallest exponent, which lies between [Etiny] and [0]), the total
    is the exact sum of the amounts and the entry of each category is
    the exact sum of the amounts of that category, a category having an
    entry when a record carries it; and 10.10, 0.20 and 5.00 add up to
    15.30. *)
Theorem sum_exactness filtered e0 :
  within_context e0 (map e_amount filtered) ->
  (exists total,
      py_sum (map e_amount filtered) = Val total
      /\ is_finite total = true
      /\ (dec_value total == sum_values (map e_amount filtered))%Q)
  /\ (exists by_cat,
        by_category filtered [] = Val by_cat
        /\ forall cat,
             match dict_get by_cat cat with
             | Some sub =>
                 In cat (map e_category filtered)
                 /\ is_finite sub = true
                 /\ (dec_value sub == sum_values (amounts_of cat filtered))%Q
             | None => ~ In cat (map e_category filtered)
             end)
  /\ py_sum [Fin false 1010 (-2); Fin false 20 (-2); Fin false 500 (-2)]
     = Val (Fin false 1530 (-2))
  /\ dec_str (Fin false 1530 (-2)) = lit "15.30".
Proof.
  intros Hctx. split; [|split; [|split; reflexivity]].
  - destruct (py_sum_exact e0 _ Hctx) as (s & c & e & Hsum & Hval).
    exists (Fin s c e). auto.
  - destruct Hctx as (He0 & Hfin & Hw).
    destruct (by_category_exact e0 filtered [] [] He0 Hfin Hw) as (d' & Hd' & Hinv).
    { intros cat. cbn. tauto. }
    exists d'. split; [exact Hd'|]. intros cat. specialize (Hinv cat).
    cbn [app] in Hinv. destruct (dict_get d' cat) as [sub|]; cbn [subtotal_ok] in Hinv.
    + destruct Hinv as (Hin & s & c & e & -> & He & Hal & _).
      split; [exact Hin|]. split; [reflexivity|].
      rewrite (dec_value_aligned e0 s c e) by lia.
      rewrite (sum_values_aligned e0 (amounts_of cat filtered)), Hal by
        (now apply amounts_of_finite).
      reflexivity.
    + exact Hinv.
Qed.

Lemma sum_exactness_witness :
  (exists total,
      py_sum (map e_amount [r_food; r_rent; r_taxi]) = Val total
      /\ is_finite total = true
      /\ (dec_value total == sum_values (map e_amount [r_food; r_rent; r_taxi]))%Q)
  /\ (exists by_cat,
        by_category [r_food; r_rent; r_taxi] [] = Val by_cat
        /\ forall cat,
             match dict_get by_cat cat with
             | Some sub =>
                 In cat (map e_category [r_food; r_rent; r_taxi])
                 /\ is_finite sub = true
                 /\ (dec_value sub == sum_values (amounts_of cat [r_food; r_rent; r_taxi]))%Q
             | None => ~ In cat (map e_category [r_food; r_rent; r_taxi])
             end)
  /\ py_sum [Fin false 1010 (-2); Fin false 20 (-2); Fin false 500 (-2)]
     = Val (Fin false 1530 (-2))
  /\ dec_str (Fin false 1530 (-2)) = lit "15.30".
Proof.
  apply (sum_exactness [r_food; r_rent; r_taxi] (-2)%Z).
  split; [vm_compute; split; discriminate|]. split.
  - repeat constructor; eexists _, _, _; (split; [reflexivity | lia]).
  - vm_compute. reflexivity.
Defined.

(* ----------------------------------------------------------------- *)
(** ** The csv reader reads back what the writer wrote *)

Lemma feed_app r a b :
  feed r (a ++ b) = match feed r a with
                    | Some r' => feed r' b
                    | None => None
                    end.
Proof.
  revert r; induction a as [|c a IH]; intros r; simpl; [reflexivity|].
  destruct (parse_process_char r (Some c)); [apply IH | reflexivity].
Qed.

Lemma records_finish r : records r [] = finish r.
Proof. reflexivity. Qed.

Lemma records_line r line ls :
  records r (line :: ls)
  = match feed r line with
    | None => broken
    | Some r1 => end_line r1 (fun r2 => records r2 ls)
    end.
Proof.
  cbn [records]. unfold feed_line, end_line.
  destruct (feed r line) as [r1|]; [|reflexivity].
  destruct (parse_process_char r1 None) as [r'|]; reflexivity.
Qed.

Lemma feed_fails_records r0 cur text :
  feed r0 cur = None -> records r0 (file_lines text cur) = broken.
Proof.
  revert cur; induction text as [|c t IH]; intros cur Hf.
  - destruct cur as [|x cur]; [discriminate|]. cbn [file_lines].
    rewrite records_line, Hf. reflexivity.
  - cbn [file_lines].
    assert (Hc : forall tail, feed r0 (cur ++ tail) = None)
      by (intros tail; rewrite feed_app, Hf; reflexivity).
    destruct (Ascii.eqb c LF); [rewrite records_line, Hc; reflexivity|].
    destruct (Ascii.eqb c CR).
    + destruct t as [|c' t']; [rewrite records_line, Hc; reflexivity|].
      destruct (Ascii.eqb c' LF); rewrite records_line, Hc; reflexivity.
    + apply IH, Hc.
Qed.

Lemma file_lines_CR c t cur :
  file_lines (CR :: c :: t) cur
  = if Ascii.eqb c LF then (cur ++ [CR; c]) :: file_lines t []
    else (cur ++ [CR]) :: file_lines (c :: t) [].
Proof. reflexivity. Qed.

Lemma end_line_ext r k1 k2 :
  (forall r', k1 r' = k2 r') -> end_line r k1 = end_line r k2.
Proof.
  intros H. unfold end_line. destruct (parse_process_char r None) as [r'|]; [|reflexivity].
  destruct (state r'); rewrite ?H; reflexivity.
Qed.

(** The one-pass reader gives the records of [records] over
    [file_lines]. *)
Lemma records_stream text :
  forall r0 cur r,
    feed r0 cur = Some r ->
    records r0 (file_lines text cur) = stream text r (mode_of cur)
    /\ forall r1, parse_process_char r (Some CR) = Some r1 ->
                  records r0 (file_lines (CR :: text) cur) = stream text r1 AfterCR.
Proof.
  induction text as [|c t IH]; intros r0 cur r Hf.
  - split.
    + destruct cur as [|x cur].
      * cbn in Hf. inversion Hf; subst. reflexivity.
      * cbn [file_lines mode_of stream]. rewrite records_line, Hf. reflexivity.
    + intros r1 H1. cbn [file_lines stream].
      change (Ascii.eqb CR LF) with false. change (Ascii.eqb CR CR) with true. cbn iota.
      rewrite records_line, feed_app, Hf. cbn [feed]. rewrite H1. reflexivity.
  - assert (Hfirst : forall r0 cur r, feed r0 cur = Some r ->
              records r0 (file_lines (c :: t) cur) = stream (c :: t) r (mode_of cur)).
    { clear r0 cur r Hf. intros r0 cur r Hf.
      assert (Hgo : stream (c :: t) r (mode_of cur)
                    = if Ascii.eqb c LF then
                        match parse_process_char r (Some c) with
                        | None => broken
                        | Some r1 => end_line r1 (fun r2 => stream t r2 Fresh)
                        end
                      else
                        match parse_process_char r (Some c) with
                        | None => broken
                        | Some r1 => stream t r1 (if Ascii.eqb c CR then AfterCR else Mid)
                        end).
      { cbn [stream]. destruct (Ascii.eqb c LF); [reflexivity|].
        destruct cur; reflexivity. }
      rewrite Hgo. clear Hgo.
      destruct (Ascii.eqb c LF) eqn:ELF.
      - cbn [file_lines]. rewrite ELF, records_line, feed_app, Hf. cbn [feed].
        destruct (parse_process_char r (Some c)) as [r1|]; [|reflexivity].
        apply end_line_ext. intros r2.
        apply (proj1 (IH r2 [] r2 eq_refl)).
      - destruct (Ascii.eqb c CR) eqn:ECR.
        + apply Ascii.eqb_eq in ECR. subst c.
          destruct (parse_process_char r (Some CR)) as [r1|] eqn:H1.
          * apply (proj2 (IH r0 cur r Hf) r1 H1).
          * (* the line that holds CR cannot be fed *)
            assert (Hfail : feed r0 (cur ++ [CR]) = None)
              by (rewrite feed_app, Hf; cbn [feed]; now rewrite H1).
            cbn [file_lines]. change (Ascii.eqb CR LF) with false.
            change (Ascii.eqb CR CR) with true. cbn iota.
            destruct t as [|c' t'].
            -- rewrite records_line, Hfail. reflexivity.
            -- destruct (Ascii.eqb c' LF).
               ++ rewrite records_line.
                  replace (cur ++ [CR; c']) with ((cur ++ [CR]) ++ [c'])
                    by (rewrite <- app_assoc; reflexivity).
                  rewrite feed_app, Hfail. reflexivity.
               ++ rewrite records_line, Hfail. reflexivity.
        + cbn [file_lines]. rewrite ELF, ECR.
          destruct (parse_process_char r (Some c)) as [r1|] eqn:H1.
          * assert (Hf1 : feed r0 (cur ++ [c]) = Some r1)
              by (rewrite feed_app, Hf; cbn [feed]; now rewrite H1).
            rewrite (proj1 (IH r0 (cur ++ [c]) r1 Hf1)).
            destruct cur; reflexivity.
          * apply feed_fails_records. rewrite feed_app, Hf. cbn [feed]. now rewrite H1. }
    split; [now apply Hfirst|].
    intros r1 H1.
    assert (Hf1 : feed r0 (cur ++ [CR]) = Some r1)
      by (rewrite feed_app, Hf; cbn [feed]; now rewrite H1).
    rewrite file_lines_CR.
    destruct (Ascii.eqb c LF) eqn:ELF.
    + rewrite records_line.
      replace (cur ++ [CR; c]) with ((cur ++ [CR]) ++ [c])
        by (rewrite <- app_assoc; reflexivity).
      rewrite feed_app, Hf1. cbn [feed stream]. rewrite ELF.
      destruct (parse_process_char r1 (Some c)) as [r2|]; [|reflexivity].
      apply end_line_ext. intros r3. apply (proj1 (IH r3 [] r3 eq_refl)).
    + rewrite records_line, Hf1. cbn [stream]. rewrite ELF.
      apply end_line_ext. intros r2.
      rewrite (Hfirst r2 [] r2 eq_refl). cbn [stream mode_of]. rewrite ELF. reflexivity.
Qed.

Lemma reader_rows_stream text : reader_rows text = stream text parse_reset Fresh.
Proof. apply (proj1 (records_stream text parse_reset [] parse_reset eq_refl)). Qed.

(** Below the limit a character is added to the field. *)
Lemma parse_add_char_fits r c st :
  (N.of_nat (length (field r)) < field_limit)%N ->
  parse_add_char r c st = Some (mkreader st (field r ++ [c]) (fields r)).
Proof.
  intros H. unfold parse_add_char.
  destruct (N.leb_spec field_limit (N.of_nat (length (field r)))); [lia | reflexivity].
Qed.

Lemma end_line_quoted r k : state r = IN_QUOTED_FIELD -> end_line r k = k r.
Proof.
  intros H. unfold end_line, parse_process_char. rewrite H. cbn iota. now rewrite H.
Qed.

Lemma stream_in_quoted c t r m r1 :
  state r = IN_QUOTED_FIELD ->
  parse_process_char r (Some c) = Some r1 -> state r1 <> START_RECORD ->
  (Ascii.eqb c LF = true -> state r1 = IN_QUOTED_FIELD) ->
  stream (c :: t) r m
  = stream t r1 (if Ascii.eqb c LF then Fresh else if Ascii.eqb c CR then AfterCR else Mid).
Proof.
  intros H Hp Hst Hlf. cbn [stream].
  destruct (Ascii.eqb c LF) eqn:ELF.
  - rewrite Hp. now rewrite end_line_quoted by auto.
  - destruct m; try (rewrite Hp; reflexivity).
    rewrite end_line_quoted by exact H. rewrite Hp. reflexivity.
Qed.

Lemma stream_in_quoted_quote t r m :
  state r = IN_QUOTED_FIELD ->
  stream (dquote :: t) r m = stream t (set_state r QUOTE_IN_QUOTED_FIELD) Mid.
Proof.
  intros H.
  rewrite (stream_in_quoted dquote t r m (set_state r QUOTE_IN_QUOTED_FIELD) H).
  - reflexivity.
  - unfold parse_process_char. rewrite H. reflexivity.
  - discriminate.
  - discriminate.
Qed.

Lemma stream_in_quoted_char c t r m :
  state r = IN_QUOTED_FIELD -> Ascii.eqb c dquote = false ->
  (N.of_nat (length (field r)) < field_limit)%N ->
  stream (c :: t) r m
  = stream t (mkreader IN_QUOTED_FIELD (field r ++ [c]) (fields r))
      (if Ascii.eqb c LF then Fresh else if Ascii.eqb c CR then AfterCR else Mid).
Proof.
  intros H Hc Hfit.
  apply (stream_in_quoted c t r m _ H).
  - unfold parse_process_char. rewrite H, Hc. now apply parse_add_char_fits.
  - discriminate.
  - reflexivity.
Qed.

(** A doubled quote inside a quoted field is one quote of the field. *)
Lemma stream_quote_quote t r m :
  state r = IN_QUOTED_FIELD ->
  (N.of_nat (length (field r)) < field_limit)%N ->
  stream (dquote :: dquote :: t) r m
  = stream t (mkreader IN_QUOTED_FIELD (field r ++ [dquote]) (fields r)) Mid.
Proof.
  intros H Hfit. rewrite (stream_in_quoted_quote _ r m H).
  cbn [stream]. change (Ascii.eqb dquote LF) with false.
  change (Ascii.eqb dquote CR) with false. cbn iota. cbv zeta.
  assert (Hp : parse_process_char (set_state r QUOTE_IN_QUOTED_FIELD) (Some dquote)
               = Some (mkreader IN_QUOTED_FIELD (field r ++ [dquote]) (fields r))).
  { unfold parse_process_char. cbn [set_state state].
    change (Ascii.eqb dquote dquote) with true. cbn iota.
    now rewrite parse_add_char_fits by exact Hfit. }
  now rewrite Hp.
Qed.

(** The body of a quoted field. *)
Lemma stream_quoted_body f :
  forall r m,
    state r = IN_QUOTED_FIELD ->
    (N.of_nat (length (field r) + length f) <= field_limit)%N ->
    exists m', forall rest,
      stream (flat_map escape_char f ++ rest) r m
      = stream rest (mkreader IN_QUOTED_FIELD (field r ++ f) (fields r)) m'.
Proof.
  induction f as [|c f IH]; intros r m H Hfit.
  - exists m. intros rest. destruct r as [st fl fs]. cbn in *. subst st. now rewrite app_nil_r.
  - cbn [length] in Hfit.
    assert (Hlt : (N.of_nat (length (field r)) < field_limit)%N) by lia.
    assert (Hnext : forall st, (N.of_nat (length (field (mkreader st (field r ++ [c]) (fields r)))
                                          + length f) <= field_limit)%N).
    { intros st. cbn [field]. rewrite length_app. cbn [length]. lia. }
    destruct (Ascii.eqb c dquote) eqn:EQ.
    + apply Ascii.eqb_eq in EQ. subst c.
      destruct (IH (mkreader IN_QUOTED_FIELD (field r ++ [dquote]) (fields r)) Mid eq_refl
                  (Hnext _)) as (m' & Hm').
      exists m'. intros rest. cbn [flat_map]. unfold escape_char at 1.
      change (Ascii.eqb dquote dquote) with true. cbn iota. cbn [app].
      rewrite (stream_quote_quote _ r m H Hlt), Hm'. cbn [field fields].
      now rewrite <- app_assoc.
    + destruct (IH (mkreader IN_QUOTED_FIELD (field r ++ [c]) (fields r))
                  (if Ascii.eqb c LF then Fresh else if Ascii.eqb c CR then AfterCR else Mid)
                  eq_refl (Hnext _)) as (m' & Hm').
      exists m'. intros rest. cbn [flat_map]. unfold escape_char at 1. rewrite EQ.
      cbn [app]. rewrite (stream_in_quoted_char c _ r m H EQ Hlt), Hm'. cbn [field fields].
      now rewrite <- app_assoc.
Qed.

Lemma plain_char c :
  needs_quote c = false ->
  Ascii.eqb c comma = false /\ Ascii.eqb c dquote = false /\ is_newline c = false
  /\ Ascii.eqb c LF = false /\ Ascii.eqb c CR = false.
Proof.
  unfold needs_quote, is_newline. intros H.
  destruct (Ascii.eqb c comma), (Ascii.eqb c dquote), (Ascii.eqb c CR), (Ascii.eqb c LF);
    try discriminate; auto.
Qed.

Lemma stream_in_field c t r m :
  state r = IN_FIELD -> needs_quote c = false -> m <> AfterCR ->
  (N.of_nat (length (field r)) < field_limit)%N ->
  stream (c :: t) r m = stream t (mkreader IN_FIELD (field r ++ [c]) (fields r)) Mid.
Proof.
  intros H Hc Hm Hfit. destruct (plain_char c Hc) as (H1 & H2 & H3 & H4 & H5).
  cbn [stream]. rewrite H4, H5. unfold parse_process_char. rewrite H, H3, H1.
  rewrite parse_add_char_fits by exact Hfit.
  destruct m; [reflexivity | reflexivity | contradiction].
Qed.

(** The body of a field written as it is. *)
Lemma stream_plain_body f :
  forall r m rest,
    state r = IN_FIELD -> existsb needs_quote f = false -> m <> AfterCR ->
    (N.of_nat (length (field r) + length f) <= field_limit)%N ->
    exists m', m' <> AfterCR
               /\ stream (f ++ rest) r m
                  = stream rest (mkreader IN_FIELD (field r ++ f) (fields r)) m'.
Proof.
  induction f as [|c f IH]; intros r m rest H Hf Hm Hfit.
  - exists m. split; [exact Hm|]. destruct r as [st fl fs]. cbn in *. subst st.
    now rewrite app_nil_r.
  - cbn [existsb] in Hf. apply orb_false_iff in Hf. destruct Hf as [Hc Hf].
    cbn [length] in Hfit.
    cbn [app]. rewrite (stream_in_field c _ r m H Hc Hm) by lia.
    destruct (IH (mkreader IN_FIELD (field r ++ [c]) (fields r)) Mid rest eq_refl Hf)
      as (m' & Hm' & Heq); [discriminate | cbn [field]; rewrite length_app; cbn [length]; lia |].
    exists m'. split; [exact Hm'|]. rewrite Heq. cbn [field fields].
    now rewrite <- app_assoc.
Qed.

Lemma stream_start_plain c t r m :
  at_start r -> needs_quote c = false -> m <> AfterCR ->
  stream (c :: t) r m = stream t (mkreader IN_FIELD [c] (fields r)) Mid.
Proof.
  intros [Hs Hf] Hc Hm. destruct (plain_char c Hc) as (H1 & H2 & H3 & H4 & H5).
  cbn [stream]. rewrite H4, H5.
  assert (Hp : parse_process_char r (Some c) = Some (mkreader IN_FIELD [c] (fields r))).
  { unfold parse_process_char, start_field.
    destruct Hs as [-> | ->]; rewrite H3, ?H2, ?H1;
      (rewrite parse_add_char_fits by (rewrite Hf; reflexivity)); now rewrite Hf. }
  rewrite Hp. destruct m; [reflexivity | reflexivity | contradiction].
Qed.

Lemma stream_start_quote t r m :
  at_start r -> m <> AfterCR ->
  stream (dquote :: t) r m = stream t (mkreader IN_QUOTED_FIELD [] (fields r)) Mid.
Proof.
  intros [Hs Hf] Hm. cbn [stream].
  change (Ascii.eqb dquote LF) with false. change (Ascii.eqb dquote CR) with false.
  assert (Hp : parse_process_char r (Some dquote)
               = Some (mkreader IN_QUOTED_FIELD [] (fields r))).
  { unfold parse_process_char, start_field, set_state.
    destruct Hs as [-> | ->]; cbn; rewrite Hf; reflexivity. }
  cbn iota. cbv zeta. rewrite Hp. destruct m; [reflexivity | reflexivity | contradiction].
Qed.

(** A written field leaves the reader at the end of that field. *)
Lemma stream_field f r m :
  at_start r -> m <> AfterCR -> fits f ->
  exists r' m',
    m' <> AfterCR /\ field r' = f /\ fields r' = fields r
    /\ (state r' = IN_FIELD \/ state r' = QUOTE_IN_QUOTED_FIELD
        \/ (f = [] /\ state r' = state r))
    /\ forall rest, stream (write_field f ++ rest) r m = stream rest r' m'.
Proof.
  intros Hst Hm Hfit. unfold fits in Hfit. unfold write_field.
  destruct (existsb needs_quote f) eqn:Hq.
  - destruct (stream_quoted_body f (mkreader IN_QUOTED_FIELD [] (fields r)) Mid eq_refl Hfit)
      as (m1 & Hbody).
    exists (mkreader QUOTE_IN_QUOTED_FIELD f (fields r)), Mid.
    split; [discriminate|]. split; [reflexivity|]. split; [reflexivity|].
    split; [right; now left|].
    intros rest. cbn [app]. rewrite (stream_start_quote _ r m Hst Hm).
    rewrite <- app_assoc. rewrite Hbody. cbn [app field fields].
    rewrite stream_in_quoted_quote by reflexivity. reflexivity.
  - destruct f as [|c f].
    + exists r, m. destruct Hst as [Hs Hf]. repeat split; auto.
    + cbn [existsb] in Hq. apply orb_false_iff in Hq. destruct Hq as [Hc Hq].
      cbn [length] in Hfit.
      assert (Hfit' : (N.of_nat (length (field (mkreader IN_FIELD [c] (fields r)))
                                 + length f) <= field_limit)%N)
        by (cbn [field length]; lia).
      exists (mkreader IN_FIELD (c :: f) (fields r)), Mid.
      split; [discriminate|]. split; [reflexivity|]. split; [reflexivity|].
      split; [now left|].
      intros rest. cbn [app]. rewrite (stream_start_plain c _ r m Hst Hc Hm).
      destruct (stream_plain_body f (mkreader IN_FIELD [c] (fields r)) Mid rest eq_refl Hq)
        as (m2 & Hm2 & Heq); [discriminate | exact Hfit' |].
      rewrite Heq. cbn [field fields app].
      (* the mode after a plain body is [Mid] or the mode before it *)
      clear - Hm2. destruct m2; [| reflexivity | contradiction].
      destruct rest as [|x rest]; [|cbn [stream]; destruct (Ascii.eqb x LF); reflexivity].
      reflexivity.
Qed.

Lemma stream_comma t r m :
  state r = START_RECORD \/ at_end r -> m <> AfterCR ->
  stream (comma :: t) r m = stream t (mkreader START_FIELD [] (fields r ++ [field r])) Mid.
Proof.
  intros Hs Hm. cbn [stream].
  change (Ascii.eqb comma LF) with false. change (Ascii.eqb comma CR) with false.
  assert (Hp : parse_process_char r (Some comma)
               = Some (mkreader START_FIELD [] (fields r ++ [field r]))).
  { unfold parse_process_char, start_field, parse_save_field, at_end in *.
    destruct Hs as [-> | [-> | [-> | ->]]]; reflexivity. }
  cbn iota. cbv zeta. rewrite Hp. destruct m; [reflexivity | reflexivity | contradiction].
Qed.

Lemma stream_crlf t r m :
  at_end r -> m <> AfterCR ->
  stream (CR :: LF :: t) r m
  = add_record (fields r ++ [field r]) (stream t parse_reset Fresh).
Proof.
  intros Hs Hm.
  assert (Hp : parse_process_char r (Some CR)
               = Some (mkreader EAT_CRNL [] (fields r ++ [field r]))).
  { unfold parse_process_char, start_field, parse_save_field, at_end in *.
    destruct Hs as [-> | [-> | ->]]; reflexivity. }
  cbn [stream].
  change (Ascii.eqb CR LF) with false. change (Ascii.eqb CR CR) with true.
  change (Ascii.eqb LF LF) with true. cbn iota. cbv zeta.
  destruct m; [| | contradiction]; rewrite Hp; reflexivity.
Qed.

Lemma join_cons sep x y l : join sep (x :: y :: l) = x ++ sep :: join sep (y :: l).
Proof. reflexivity. Qed.

(** The fields of a record, up to the end of its line. *)
Lemma stream_fields fs :
  forall f r m rest,
    at_start r -> m <> AfterCR ->
    state r = START_FIELD \/ fs <> [] \/ f <> [] ->
    Forall fits (f :: fs) ->
    stream (join comma (map write_field (f :: fs)) ++ CR :: LF :: rest) r m
    = add_record (fields r ++ f :: fs) (stream rest parse_reset Fresh).
Proof.
  induction fs as [|g fs IH]; intros f r m rest Hst Hm Hside Hfits;
    inversion Hfits as [|? ? Hf0 Hrest]; subst.
  - cbn [map join].
    destruct (stream_field f r m Hst Hm Hf0) as (r' & m' & Hm' & Hf & Hfs & Hstate & Heq).
    rewrite Heq. rewrite stream_crlf; [now rewrite Hf, Hfs | | exact Hm'].
    unfold at_end. destruct Hstate as [H | [H | [Hnil H]]]; auto.
    destruct Hside as [Hs | [Hs | Hs]]; [left; congruence | contradiction | contradiction].
  - cbn [map]. rewrite join_cons, <- app_assoc. cbn [app].
    change (write_field g :: map write_field fs) with (map write_field (g :: fs)).
    destruct (stream_field f r m Hst Hm Hf0) as (r' & m' & Hm' & Hf & Hfs & Hstate & Heq).
    rewrite Heq. rewrite stream_comma; [| | exact Hm'].
    + rewrite Hf, Hfs.
      rewrite (IH g (mkreader START_FIELD [] (fields r ++ [f])) Mid rest).
      * cbn [fields]. now rewrite <- app_assoc.
      * split; [now right | reflexivity].
      * discriminate.
      * now left.
      * exact Hrest.
    + unfold at_end. destruct Hst as [Hs _].
      destruct Hstate as [H | [H | [_ H]]]; auto.
      rewrite H. destruct Hs; auto.
Qed.

(** One written record is read back as that record. *)
Lemma stream_writerow row rest :
  Forall fits row ->
  stream (writerow row ++ rest) parse_reset Fresh
  = add_record row (stream rest parse_reset Fresh).
Proof.
  intros Hfits.
  destruct row as [|f fs]; [reflexivity|].
  destruct fs as [|g fs].
  - destruct f as [|c f]; [reflexivity|].
    unfold writerow. rewrite <- app_assoc. cbn [app].
    apply (stream_fields [] (c :: f) parse_reset Fresh rest).
    + split; [now left | reflexivity].
    + discriminate.
    + right; right; discriminate.
    + exact Hfits.
  - assert (Hw : writerow (f :: g :: fs)
                 = join comma (map write_field (f :: g :: fs)) ++ [CR; LF])
      by (destruct f; reflexivity).
    rewrite Hw, <- app_assoc. cbn [app].
    apply (stream_fields (g :: fs) f parse_reset Fresh rest).
    + split; [now left | reflexivity].
    + discriminate.
    + right; left; discriminate.
    + exact Hfits.
Qed.

(** The reader reads back the records that the writer wrote, when no
    field of theirs is longer than the limit. *)
Theorem reader_rows_writerows rows :
  Forall (Forall fits) rows ->
  reader_rows (flat_map writerow rows) = (rows, true).
Proof.
  intros Hfits. rewrite reader_rows_stream.
  induction Hfits as [|row rows Hrow _ IH]; [reflexivity|].
  cbn [flat_map]. rewrite (stream_writerow row _ Hrow), IH. reflexivity.
Qed.

Example reader_rows_writerows_ex :
  reader_rows (flat_map writerow [[lit "a,b"; [dquote; CR; LF; dquote]; []]; []; [[]]; [[CR]]])
  = ([[lit "a,b"; [dquote; CR; LF; dquote]; []]; []; [[]]; [[CR]]], true).
Proof. reflexivity. Qed.

(* ----------------------------------------------------------------- *)
(** ** Text that reads back *)

Lemma lstrip_by_id ws s :
  match s with c :: _ => ws c = false | [] => True end -> lstrip_by ws s = s.
Proof. destruct s as [|c s]; [reflexivity|]. intros H. cbn. now rewrite H. Qed.

(** Text without white space is left alone by [strip]. *)
Lemma strip_by_id ws s : forallb (fun c => negb (ws c)) s = true -> strip_by ws s = s.
Proof.
  intros H. rewrite forallb_forall in H.
  assert (Hc : forall c, In c s -> ws c = false).
  { intros c Hin. specialize (H c Hin). now destruct (ws c). }
  unfold strip_by, rstrip_by.
  rewrite (lstrip_by_id ws s) by (destruct s; [exact I | apply Hc; now left]).
  rewrite (lstrip_by_id ws (rev s)).
  - apply rev_involutive.
  - destruct (rev s) as [|c t] eqn:E; [exact I|].
    apply Hc. apply in_rev. rewrite E. now left.
Qed.

Lemma digit_char_val d : (d < 10)%N -> digit_val (digit_char d) = d.
Proof.
  intros H.
  assert (Hd : In d [0; 1; 2; 3; 4; 5; 6; 7; 8; 9]%N).
  { cbn. lia. }
  cbn in Hd. repeat (destruct Hd as [<- | Hd]; [reflexivity|]). destruct Hd.
Qed.

Lemma digit_char_isdigit d : (d < 10)%N -> isdigit (digit_char d) = true.
Proof.
  intros H.
  assert (Hd : In d [0; 1; 2; 3; 4; 5; 6; 7; 8; 9]%N).
  { cbn. lia. }
  cbn in Hd. repeat (destruct Hd as [<- | Hd]; [reflexivity|]). destruct Hd.
Qed.

Lemma N_of_digits_fuel fuel :
  forall n acc,
    (n < 10 ^ N.of_nat fuel)%N ->
    N_of_digits (digits_fuel fuel n acc)
    = fold_left (fun a c => 10 * a + digit_val c)%N acc n.
Proof.
  unfold N_of_digits.
  induction fuel as [|f IH]; intros n acc Hn.
  - cbn in Hn. assert (n = 0%N) by lia. subst n. reflexivity.
  - cbn [digits_fuel]. cbv zeta.
    assert (Hmod : (n mod 10 < 10)%N) by (apply N.mod_lt; lia).
    destruct (N.ltb_spec n 10) as [Hlt|Hge].
    + cbn [fold_left]. rewrite digit_char_val by exact Hmod.
      rewrite N.mod_small by exact Hlt. reflexivity.
    + rewrite IH.
      * cbn [fold_left]. rewrite digit_char_val by exact Hmod.
        f_equal. rewrite (N.div_mod n 10) at 3 by lia. reflexivity.
      * apply N.Div0.div_lt_upper_bound.
        replace (N.of_nat (S f)) with (N.succ (N.of_nat f)) in Hn by lia.
        now rewrite N.pow_succ_r' in Hn.
Qed.

Lemma size_nat_pow10 n : (n < 10 ^ N.of_nat (S (N.size_nat n)))%N.
Proof.
  assert (H2 : (n < 2 ^ N.of_nat (N.size_nat n))%N).
  { destruct n as [|p]; [cbn; lia|].
    cbn [N.size_nat]. induction p as [p IH|p IH|]; cbn [Pos.size_nat].
    - replace (N.of_nat (S (Pos.size_nat p))) with (N.succ (N.of_nat (Pos.size_nat p))) by lia.
      rewrite N.pow_succ_r'. lia.
    - replace (N.of_nat (S (Pos.size_nat p))) with (N.succ (N.of_nat (Pos.size_nat p))) by lia.
      rewrite N.pow_succ_r'. lia.
    - cbn. lia. }
  eapply N.lt_le_trans; [exact H2|].
  etransitivity; [apply N.pow_le_mono_l with (b := 10%N); lia|].
  apply N.pow_le_mono_r; lia.
Qed.

(** The digits of a number read back as that number. *)
Lemma N_of_digits_str n : N_of_digits (str_of_N n) = n.
Proof. unfold str_of_N. rewrite N_of_digits_fuel by apply size_nat_pow10. reflexivity. Qed.

Lemma digits_fuel_isdigit fuel :
  forall n acc,
    forallb isdigit acc = true -> forallb isdigit (digits_fuel fuel n acc) = true.
Proof.
  induction fuel as [|f IH]; intros n acc Hacc; [exact Hacc|].
  cbn [digits_fuel]. cbv zeta.
  assert (Hd : isdigit (digit_char (n mod 10)) = true)
    by (apply digit_char_isdigit, N.mod_lt; lia).
  destruct (n <? 10)%N; [|apply IH]; cbn [forallb]; now rewrite Hd.
Qed.

Lemma str_of_N_isdigit n : forallb isdigit (str_of_N n) = true.
Proof. now apply digits_fuel_isdigit. Qed.

Lemma digits_fuel_nonempty fuel n acc : digits_fuel (S fuel) n acc <> [].
Proof.
  revert n acc; induction fuel as [|f IH]; intros n acc; cbn [digits_fuel]; cbv zeta.
  - destruct (n <? 10)%N; discriminate.
  - destruct (n <? 10)%N; [discriminate|]. apply IH.
Qed.

Lemma str_of_N_nonempty n : str_of_N n <> [].
Proof. apply digits_fuel_nonempty. Qed.

Lemma int_body_digits ds :
  forall b a,
    forallb isdigit ds = true -> ds <> [] ->
    int_body ds b a = Some (fold_left (fun a c => 10 * a + digit_val c)%N ds a).
Proof.
  induction ds as [|c ds IH]; intros b a Hd Hne; [contradiction|].
  cbn [forallb] in Hd. apply andb_true_iff in Hd. destruct Hd as [Hc Hd].
  cbn [int_body fold_left]. rewrite Hc.
  destruct ds as [|c' ds']; [reflexivity|].
  apply IH; [exact Hd | discriminate].
Qed.

Lemma isdigit_not_space c : isdigit c = true -> isspace c = false /\ isspace_int c = false.
Proof.
  unfold isdigit, isspace, isspace_int. cbv zeta. intros H.
  apply andb_true_iff in H. destruct H as [H1 H2].
  apply N.leb_le in H1. apply N.leb_le in H2.
  split.
  - repeat (apply orb_false_iff; split); try (apply andb_false_iff);
      try (apply N.eqb_neq; lia).
    + right. apply N.leb_gt. lia.
    + right. apply N.leb_gt. lia.
  - repeat (apply orb_false_iff; split); try (apply andb_false_iff);
      try (apply N.eqb_neq; lia).
    right. apply N.leb_gt. lia.
Qed.

Lemma filter_all {A} (p : A -> bool) l : forallb p l = true -> filter p l = l.
Proof.
  induction l as [|x l IH]; [reflexivity|]. cbn [forallb filter].
  intros H. apply andb_true_iff in H. destruct H as [Hx Hl]. now rewrite Hx, IH.
Qed.

Lemma str_of_N_length n k :
  (n < 10 ^ N.of_nat (S k))%N -> (length (str_of_N n) <= S k)%nat.
Proof.
  intros H. unfold str_of_N.
  pose proof (digits_fuel_length (S (N.size_nat n)) n [] k H) as Hl.
  cbn [length] in Hl. lia.
Qed.

Lemma digit_val_le c : isdigit c = true -> (digit_val c <= 9)%N.
Proof.
  unfold isdigit, digit_val. cbv zeta. intros H.
  apply andb_true_iff in H. destruct H as [_ H]. apply N.leb_le in H. lia.
Qed.

(** A literal of [k] digits is below [10^k]. *)
Lemma int_body_bound u :
  forall b acc n,
    int_body u b acc = Some n ->
    (n < (acc + 1) * 10 ^ N.of_nat (length (filter isdigit u)))%N.
Proof.
  induction u as [|c u IH]; intros b acc n H; cbn [int_body filter] in *.
  - destruct b; [|discriminate]. inversion H; subst. cbn. lia.
  - destruct (isdigit c) eqn:Hc.
    + apply IH in H. pose proof (digit_val_le c Hc) as Hd.
      cbn [length]. rewrite Nat2N.inj_succ, N.pow_succ_r'.
      eapply N.lt_le_trans; [exact H|]. nia.
    + destruct (Ascii.eqb c "_" && b); [|discriminate]. now apply IH in H.
Qed.

Lemma int_literal_bound t z :
  int_literal t = Some z ->
  (Z.abs_N z < 10 ^ N.of_nat (length (filter isdigit t)))%N.
Proof.
  assert (Hb : forall u n, int_body u false 0 = Some n ->
                           (n < 10 ^ N.of_nat (length (filter isdigit u)))%N).
  { intros u n H. apply int_body_bound in H. now rewrite N.add_0_l, N.mul_1_l in H. }
  assert (Hpos : forall u n, int_body u false 0 = Some n ->
            forall z', (z' = Z.of_N n \/ z' = - Z.of_N n)%Z ->
            (Z.abs_N z' < 10 ^ N.of_nat (length (filter isdigit u)))%N).
  { intros u n H z' Hz. apply Hb in H.
    replace (Z.abs_N z') with n by (destruct Hz; subst z'; lia). exact H. }
  unfold int_literal.
  destruct t as [|c u].
  - cbn. discriminate.
  - destruct (int_body u false 0) as [n|] eqn:Hu;
      destruct (int_body (c :: u) false 0) as [n'|] eqn:Hcu;
      destruct c as [[] [] [] [] [] [] [] []]; cbn [option_map];
      try discriminate; intros H; inversion H; subst;
      first [ now apply (Hpos _ _ Hcu); auto
            | apply (Hpos _ _ Hu); auto ].
Qed.

Lemma pow10_length n k :
  (0 < k)%N -> (n < 10 ^ k)%N -> (N.of_nat (length (str_of_N n)) <= k)%N.
Proof.
  intros Hk Hn.
  assert (Hk' : k = N.of_nat (S (N.to_nat (N.pred k)))) by lia.
  rewrite Hk' in Hn. apply str_of_N_length in Hn. lia.
Qed.

(** What [int(..)] returns, [str(..)] converts. *)
Lemma py_int_ok s z : py_int s = Some z -> int_ok z = true.
Proof.
  unfold py_int, int_ok. cbv zeta.
  set (t := strip_by isspace_int s).
  destruct (N.ltb_spec max_str_digits (N.of_nat (length (filter isdigit t)))) as [|Hle];
    [discriminate|].
  intros H. apply int_literal_bound in H. apply N.leb_le.
  apply pow10_length; [reflexivity|].
  eapply N.lt_le_trans; [exact H|]. apply N.pow_le_mono_r; [discriminate | exact Hle].
Qed.

Lemma int_literal_unsigned c t :
  isdigit c = true ->
  int_literal (c :: t) = option_map Z.of_N (int_body (c :: t) false 0).
Proof.
  intros Hc. unfold int_literal.
  destruct c as [[] [] [] [] [] [] [] []]; try reflexivity; discriminate Hc.
Qed.

(** [int(str(z)) = z] for an integer within the limit. *)
Lemma py_int_str z : int_ok z = true -> py_int (str_of_int z) = Some z.
Proof.
  unfold int_ok. intros Hok. apply N.leb_le in Hok.
  unfold str_of_int.
  destruct (Z.ltb_spec z 0) as [Hneg|Hpos].
  - unfold py_int. cbv zeta. rewrite strip_by_id.
    + cbn [filter]. change (isdigit "-") with false. cbn iota.
      rewrite (filter_all _ _ (str_of_N_isdigit (Z.abs_N z))).
      rewrite (proj2 (N.ltb_ge _ _) Hok).
      unfold int_literal.
      rewrite int_body_digits by (apply str_of_N_isdigit || apply str_of_N_nonempty).
      fold (N_of_digits (str_of_N (Z.abs_N z))). rewrite N_of_digits_str.
      cbn [option_map]. f_equal. rewrite N2Z.inj_abs_N. lia.
    + cbn [forallb]. apply andb_true_iff. split; [reflexivity|].
      pose proof (str_of_N_isdigit (Z.abs_N z)) as Hd. rewrite forallb_forall in *.
      intros c Hc. now rewrite (proj2 (isdigit_not_space c (Hd c Hc))).
  - replace (Z.abs_N z) with (Z.to_N z) in Hok by lia.
    pose proof (str_of_N_isdigit (Z.to_N z)) as Hd.
    pose proof (str_of_N_nonempty (Z.to_N z)) as Hne.
    pose proof (N_of_digits_str (Z.to_N z)) as Hval.
    destruct (str_of_N (Z.to_N z)) as [|c t]; [contradiction|].
    unfold py_int. cbv zeta. rewrite strip_by_id.
    + rewrite (filter_all _ _ Hd), (proj2 (N.ltb_ge _ _) Hok).
      rewrite int_literal_unsigned
        by (cbn [forallb] in Hd; now apply andb_true_iff in Hd).
      rewrite int_body_digits by (assumption || discriminate).
      fold (N_of_digits (c :: t)). rewrite Hval. cbn [option_map]. f_equal. lia.
    + rewrite forallb_forall in *.
      intros x Hx. now rewrite (proj2 (isdigit_not_space x (Hd x Hx))).
Qed.

(* ----------------------------------------------------------------- *)
(** ** Dates that read back *)

Lemma Z_range_In lo hi z : (lo <= z <= hi)%Z -> In z (Z_range lo hi).
Proof.
  intros H. unfold Z_range. apply in_map_iff. exists (Z.to_nat (z - lo)).
  split; [lia|]. apply in_seq. lia.
Qed.

Lemma year_ok_all : forallb year_ok (Z_range 1 9999) = true.
Proof. vm_compute. reflexivity. Qed.

Lemma month_day_ok_all :
  forallb (fun m => forallb (month_day_ok m) (Z_range 1 31)) (Z_range 1 12) = true.
Proof. vm_compute. reflexivity. Qed.

Lemma valid_date_bounds d :
  valid_date d = true ->
  (1 <= year d <= 9999 /\ 1 <= month d <= 12 /\ 1 <= day d <= 31)%Z.
Proof.
  unfold valid_date. rewrite !andb_true_iff, !Z.leb_le.
  intros (((((H1 & H2) & H3) & H4) & H5) & H6).
  assert (days_in_month (year d) (month d) <= 31)%Z.
  { unfold days_in_month. destruct (month d) as [|[[[|[]|]|[[]|[]|]|]|[[[]|[]|]|[[]|[]|]|]|]|];
      try lia; destruct (is_leap (year d)); lia. }
  lia.
Qed.

(** [strptime(d.isoformat(), "%Y-%m-%d").date() = d], and the text of
    [isoformat] is not empty and holds no white space. *)
Lemma strptime_isoformat d :
  valid_date d = true ->
  strptime_ymd (isoformat d) = Some d
  /\ strip (isoformat d) = isoformat d
  /\ isoformat d <> [].
Proof.
  intros Hv. destruct (valid_date_bounds d Hv) as (Hy & Hm & Hd).
  pose proof year_ok_all as HY. rewrite forallb_forall in HY.
  specialize (HY (year d) (Z_range_In 1 9999 (year d) ltac:(lia))).
  pose proof month_day_ok_all as HM. rewrite forallb_forall in HM.
  specialize (HM (month d) (Z_range_In 1 12 (month d) ltac:(lia))).
  rewrite forallb_forall in HM.
  specialize (HM (day d) (Z_range_In 1 31 (day d) ltac:(lia))).
  unfold isoformat. unfold year_ok in HY. unfold month_day_ok in HM. cbv zeta in HM.
  destruct (fmt_0d 4 (year d)) as [|a [|b [|c [|e [|? ?]]]]]; try discriminate.
  apply andb_true_iff in HY. destruct HY as [Hdig HY].
  destruct (py_int [a; b; c; e]) as [v|] eqn:Hint; [|discriminate].
  apply Z.eqb_eq in HY. subst v.
  set (text := fmt_0d 2 (month d) ++ "-"%char :: fmt_0d 2 (day d)) in *.
  apply andb_true_iff in HM. destruct HM as [Hsp HM].
  split; [|split; [|discriminate]].
  - cbn [app]. unfold strptime_ymd. rewrite Hdig.
    destruct (match_m_d (alts_m text)) as [[[mt dt] [|? ?]]|]; try discriminate.
    rewrite Hint.
    destruct (py_int mt) as [m'|]; [|discriminate].
    destruct (py_int dt) as [d'|]; [|discriminate].
    apply andb_true_iff in HM. destruct HM as [E1 E2].
    apply Z.eqb_eq in E1. apply Z.eqb_eq in E2. subst m' d'.
    destruct d as [y m dd]. cbn [year month day] in *. now rewrite Hv.
  - apply strip_by_id. cbn [app forallb].
    cbn [forallb] in Hdig. rewrite !andb_true_iff in Hdig.
    destruct Hdig as (Ha & Hb & Hc & He & _).
    rewrite (proj1 (isdigit_not_space a Ha)), (proj1 (isdigit_not_space b Hb)),
      (proj1 (isdigit_not_space c Hc)), (proj1 (isdigit_not_space e He)).
    cbn. exact Hsp.
Qed.

(* ----------------------------------------------------------------- *)
(** ** Decimals that read back *)

Lemma span_digits_app ds rest :
  forallb isdigit ds = true ->
  match rest with c :: _ => isdigit c = false | [] => True end ->
  span_digits (ds ++ rest) = (ds, rest).
Proof.
  intros Hd Hr. induction ds as [|c ds IH]; cbn [app].
  - destruct rest as [|c rest]; [reflexivity|]. cbn. now rewrite Hr.
  - cbn [forallb] in Hd. apply andb_true_iff in Hd. destruct Hd as [Hc Hd].
    cbn [span_digits]. rewrite Hc, (IH Hd). reflexivity.
Qed.

Lemma span_digits_all ds : forallb isdigit ds = true -> span_digits ds = (ds, []).
Proof.
  intros H. rewrite <- (app_nil_r ds) at 1. now apply span_digits_app.
Qed.

Lemma N_of_digits_app a b :
  N_of_digits (a ++ b)
  = fold_left (fun acc c => 10 * acc + digit_val c)%N b (N_of_digits a).
Proof. unfold N_of_digits. apply fold_left_app. Qed.

Lemma N_of_digits_zeros k ds : N_of_digits (zeros k ++ ds) = N_of_digits ds.
Proof.
  rewrite N_of_digits_app.
  replace (N_of_digits (zeros k)) with 0%N; [reflexivity|].
  induction k as [|k IH]; [reflexivity|].
  unfold zeros in *. cbn [repeat]. unfold N_of_digits in *. cbn [fold_left]. exact IH.
Qed.

Lemma zeros_isdigit k : forallb isdigit (zeros k) = true.
Proof. induction k as [|k IH]; [reflexivity | exact IH]. Qed.

Lemma zeros_length k : length (zeros k) = k.
Proof. apply repeat_length. Qed.

Lemma forallb_firstn {A} (p : A -> bool) n l :
  forallb p l = true -> forallb p (firstn n l) = true.
Proof.
  rewrite !forallb_forall. intros H x Hx. apply H. eapply (In_nth_error) in Hx.
  destruct Hx as [i Hi]. apply nth_error_In with i.
  rewrite nth_error_firstn in Hi. destruct (i <? n)%nat; [exact Hi | discriminate].
Qed.

Lemma forallb_skipn {A} (p : A -> bool) n l :
  forallb p l = true -> forallb p (skipn n l) = true.
Proof.
  intros H. rewrite <- (firstn_skipn n l), forallb_app in H.
  now apply andb_true_iff in H.
Qed.

(** ["%+d" % x] read as an exponent. *)
Lemma parse_exponent_fmt x : parse_exponent ("E"%char :: fmt_plus_d x) = Some x.
Proof.
  unfold fmt_plus_d.
  destruct (Z.ltb_spec x 0) as [Hn|Hp];
    [set (n := Z.abs_N x) | set (n := Z.to_N x)];
    pose proof (str_of_N_isdigit n) as Hd;
    pose proof (str_of_N_nonempty n) as Hne;
    pose proof (N_of_digits_str n) as Hv;
    cbn [parse_exponent]; change (Ascii.eqb (to_lower "E") "e") with true; cbn iota;
    rewrite (span_digits_all _ Hd);
    destruct (str_of_N n) as [|c t]; try contradiction;
    rewrite Hv; f_equal; subst n; lia.
Qed.

(** A numeric string in the shape that [str] produces. *)
Lemma parse_finite_shape sgn ip fp (dot : bool) (ex : option Z) :
  forallb isdigit ip = true -> forallb isdigit fp = true ->
  ip ++ fp <> [] -> (dot = false -> fp = []) ->
  parse_finite sgn
    (ip ++ (if dot then "."%char :: fp else [])
        ++ match ex with Some x => "E"%char :: fmt_plus_d x | None => [] end)
  = Some (Fin sgn (N_of_digits (ip ++ fp))
            (match ex with Some x => x | None => 0 end - Z.of_nat (length fp))).
Proof.
  intros Hip Hfp Hne Hdot. unfold parse_finite.
  set (etext := match ex with Some x => "E"%char :: fmt_plus_d x | None => [] end).
  assert (He : match etext with c :: _ => isdigit c = false | [] => True end)
    by (subst etext; destruct ex; [reflexivity | exact I]).
  assert (Hpe : parse_exponent etext = Some (match ex with Some x => x | None => 0%Z end))
    by (subst etext; destruct ex; [apply parse_exponent_fmt | reflexivity]).
  destruct dot.
  - rewrite span_digits_app by (assumption || reflexivity).
    cbn [app]. rewrite span_digits_app by assumption.
    destruct (ip ++ fp) as [|c t] eqn:E; [contradiction|].
    rewrite Hpe. reflexivity.
  - rewrite (Hdot eq_refl) in *. cbn [app length]. rewrite app_nil_r in *.
    rewrite span_digits_app by assumption.
    assert (Hr : match etext with
                 | "."%char :: t => span_digits t
                 | _ => ([], etext)
                 end = ([], etext))
      by (subst etext; destruct ex; reflexivity).
    rewrite Hr, app_nil_r.
    destruct ip as [|c t]; [contradiction|].
    rewrite Hpe. reflexivity.
Qed.

Lemma str_of_N_length_pos n : (1 <= length (str_of_N n))%nat.
Proof.
  pose proof (str_of_N_nonempty n). destruct (str_of_N n); [contradiction | cbn; lia].
Qed.

(** The text of a finite decimal: sign, digits, optional fraction,
    optional exponent, and what they add up to. *)
Lemma dec_str_fin_shape c e :
  exists ip fp (dot : bool) (ex : option Z),
    (forall s, dec_str (Fin s c e)
               = sign_str s ++ ip ++ (if dot then "."%char :: fp else [])
                 ++ match ex with Some x => "E"%char :: fmt_plus_d x | None => [] end)
    /\ forallb isdigit ip = true /\ forallb isdigit fp = true
    /\ ip <> [] /\ (dot = false -> fp = [])
    /\ N_of_digits (ip ++ fp) = c
    /\ (match ex with Some x => x | None => 0 end - Z.of_nat (length fp) = e)%Z.
Proof.
  pose proof (str_of_N_isdigit c) as Hd.
  pose proof (str_of_N_length_pos c) as HL.
  pose proof (N_of_digits_str c) as Hv.
  unfold dec_str.
  set (D := str_of_N c) in *.
  set (len := Z.of_nat (length D)).
  set (ld := (e + len)%Z).
  set (dp := if ((e <=? 0) && (-6 <? ld))%Z then ld else 1%Z).
  assert (Hdp : ((dp = ld /\ e <= 0) \/ (dp = 1 /\ (0 < e \/ ld <= -6)))%Z).
  { subst dp. destruct (Z.leb_spec e 0); destruct (Z.ltb_spec (-6) ld); cbn; lia. }
  destruct (Z.leb_spec dp 0) as [Hle|Hgt].
  - (* 0.000ddd *)
    exists ["0"%char], (zeros (Z.to_nat (- dp)) ++ D), true, None.
    assert (Heq : (ld =? dp)%Z = true) by (apply Z.eqb_eq; lia).
    split; [intros s; rewrite Heq; reflexivity|].
    split; [reflexivity|].
    split; [rewrite forallb_app, zeros_isdigit, Hd; reflexivity|].
    split; [discriminate|]. split; [discriminate|]. split.
    + change (["0"%char] ++ zeros (Z.to_nat (- dp)) ++ D)
        with (zeros (S (Z.to_nat (- dp))) ++ D).
      now rewrite N_of_digits_zeros.
    + rewrite length_app, zeros_length. subst ld len. lia.
  - destruct (Z.leb_spec len dp) as [Hlen|Hlen].
    + (* ddd, or d with an exponent *)
      assert (Hz : Z.to_nat (dp - len) = 0%nat) by (subst ld len; lia).
      exists D, [], false,
        (if (ld =? dp)%Z then None else Some (ld - dp)%Z).
      split.
      { intros s. rewrite Hz. cbn [zeros repeat]. rewrite !app_nil_r.
        destruct (ld =? dp)%Z; cbn [app]; rewrite ?app_nil_r; reflexivity. }
      split; [exact Hd|]. split; [reflexivity|].
      split; [intros E; rewrite E in HL; cbn in HL; lia|].
      split; [reflexivity|]. split; [now rewrite app_nil_r|].
      cbn [length]. destruct (Z.eqb_spec ld dp); subst ld len; lia.
    + (* d.ddd, with or without an exponent *)
      exists (firstn (Z.to_nat dp) D), (skipn (Z.to_nat dp) D), true,
        (if (ld =? dp)%Z then None else Some (ld - dp)%Z).
      split.
      { intros s. destruct (ld =? dp)%Z; reflexivity. }
      split; [now apply forallb_firstn|]. split; [now apply forallb_skipn|].
      split.
      { intros E. apply (f_equal (@length ascii)) in E.
        rewrite length_firstn in E. change (length (@nil ascii)) with 0%nat in E.
        subst len. lia. }
      split; [discriminate|]. split; [now rewrite firstn_skipn|].
      rewrite length_skipn. destruct (Z.eqb_spec ld dp); subst ld len; lia.
Qed.

Lemma isdigit_clean c : isdigit c = true -> clean c = true.
Proof. destruct c as [[] [] [] [] [] [] [] []]; try reflexivity; intros H; discriminate H. Qed.

Lemma isdigit_lower c : isdigit c = true -> to_lower c = c.
Proof. destruct c as [[] [] [] [] [] [] [] []]; try reflexivity; intros H; discriminate H. Qed.

Lemma digits_clean l : forallb isdigit l = true -> forallb clean l = true.
Proof.
  rewrite !forallb_forall. intros H c Hc. apply isdigit_clean, H, Hc.
Qed.

Lemma digits_lower l : forallb isdigit l = true -> lower l = l.
Proof.
  induction l as [|c l IH]; [reflexivity|]. cbn [forallb lower map].
  intros H. apply andb_true_iff in H. destruct H as [Hc Hl].
  rewrite (isdigit_lower c Hc). f_equal. now apply IH.
Qed.

(** Clean text goes through [strip] and the removal of underscores
    unchanged. *)
Lemma clean_text l :
  forallb clean l = true -> strip l = l /\ remove_char "_" l = l.
Proof.
  intros H. rewrite forallb_forall in H. split.
  - apply strip_by_id. rewrite forallb_forall. intros c Hc.
    specialize (H c Hc). unfold clean in H. now apply andb_true_iff in H.
  - unfold remove_char. apply forallb_filter_id. rewrite forallb_forall. intros c Hc.
    specialize (H c Hc). unfold clean in H. now apply andb_true_iff in H.
Qed.

Lemma fmt_plus_d_clean x : forallb clean (fmt_plus_d x) = true.
Proof.
  unfold fmt_plus_d. destruct (x <? 0)%Z; cbn [forallb];
    rewrite digits_clean by apply str_of_N_isdigit; reflexivity.
Qed.

Lemma sign_str_clean s : forallb clean (sign_str s) = true.
Proof. destruct s; reflexivity. Qed.

Lemma dec_str_clean d : forallb clean (dec_str d) = true.
Proof.
  destruct d as [s c e|s|s sig p].
  - destruct (dec_str_fin_shape c e) as (ip & fp & dot & ex & Hs & Hip & Hfp & _).
    rewrite Hs, !forallb_app, sign_str_clean, (digits_clean ip Hip). cbn [andb].
    apply andb_true_iff. split.
    + destruct dot; [|reflexivity]. cbn [forallb]. now rewrite (digits_clean fp Hfp).
    + destruct ex; [|reflexivity]. cbn [forallb]. now rewrite fmt_plus_d_clean.
  - destruct s; reflexivity.
  - cbn [dec_str]. rewrite !forallb_app, sign_str_clean.
    assert (Hp : forallb clean (if (p =? 0)%N then [] else str_of_N p) = true)
      by (destruct (p =? 0)%N; [reflexivity | apply digits_clean, str_of_N_isdigit]).
    rewrite Hp. destruct sig; reflexivity.
Qed.

Lemma split_sign_plain c t :
  Ascii.eqb c "-" = false -> Ascii.eqb c "+" = false -> split_sign (c :: t) = (false, c :: t).
Proof.
  destruct c as [[] [] [] [] [] [] [] []]; try reflexivity; intros H1 H2; discriminate.
Qed.

Lemma split_sign_str s c t :
  Ascii.eqb c "-" = false -> Ascii.eqb c "+" = false ->
  split_sign (sign_str s ++ c :: t) = (s, c :: t).
Proof.
  intros H1 H2. destruct s; [reflexivity|]. now apply split_sign_plain.
Qed.

Lemma isdigit_not_sign c :
  isdigit c = true -> Ascii.eqb c "-" = false /\ Ascii.eqb c "+" = false.
Proof.
  destruct c as [[] [] [] [] [] [] [] []]; try (split; reflexivity); intros H; discriminate H.
Qed.

Lemma payload_digits p :
  forallb isdigit (if (p =? 0)%N then [] else str_of_N p) = true
  /\ N_of_digits (if (p =? 0)%N then [] else str_of_N p) = p.
Proof.
  destruct (N.eqb_spec p 0) as [->|_]; [split; reflexivity|].
  split; [apply str_of_N_isdigit | apply N_of_digits_str].
Qed.

(** What [Decimal(..)] returns is within the widest context. *)
Lemma Decimal_of_str_in_maxcontext t d : Decimal_of_str t = Some d -> in_maxcontext d = true.
Proof.
  unfold Decimal_of_str. cbv zeta.
  destruct (split_sign (remove_char "_" (strip t))) as [sgn body].
  destruct (parse_finite sgn body) as [d'|].
  - destruct (in_maxcontext d') eqn:E; [|discriminate]. intros H. inversion H; subst. exact E.
  - intros H. destruct d as [s c e|s|s sig p]; [exfalso | reflexivity | reflexivity].
    revert H. unfold parse_special. cbv zeta.
    repeat match goal with
           | |- context [match ?x with _ => _ end] => destruct x; try discriminate
           end.
Qed.

(** [Decimal(str(d)) = d], for every decimal within the widest context. *)
Lemma Decimal_of_str_dec_str d : in_maxcontext d = true -> Decimal_of_str (dec_str d) = Some d.
Proof.
  intros Hmax. unfold Decimal_of_str.
  destruct (clean_text (dec_str d) (dec_str_clean d)) as [-> ->].
  destruct d as [s c e|s|s sig p].
  - destruct (dec_str_fin_shape c e) as (ip & fp & dot & ex & Hs & Hip & Hfp & Hne & Hdot & Hv & He).
    rewrite Hs.
    destruct ip as [|c0 ip']; [contradiction|].
    assert (Hc0 : isdigit c0 = true)
      by (cbn [forallb] in Hip; now apply andb_true_iff in Hip).
    destruct (isdigit_not_sign c0 Hc0) as [Hm Hp].
    cbn [app]. rewrite (split_sign_str s c0 _ Hm Hp).
    change (c0 :: ip' ++ (if dot then "."%char :: fp else [])
              ++ match ex with Some x => "E"%char :: fmt_plus_d x | None => [] end)
      with ((c0 :: ip') ++ (if dot then "."%char :: fp else [])
              ++ match ex with Some x => "E"%char :: fmt_plus_d x | None => [] end).
    rewrite (parse_finite_shape s (c0 :: ip') fp dot ex Hip Hfp) by (discriminate || assumption).
    now rewrite Hv, He, Hmax.
  - destruct s; reflexivity.
  - destruct (payload_digits p) as [Hd Hv].
    cbn [dec_str].
    set (diag := if (p =? 0)%N then [] else str_of_N p) in *.
    destruct sig.
    + change (lit "sNaN" ++ diag) with ("s"%char :: "N"%char :: "a"%char :: "N"%char :: diag).
      rewrite split_sign_str by reflexivity.
      cbn [parse_finite span_digits isdigit]. unfold parse_special.
      cbn [lower map]. fold (lower diag). rewrite (digits_lower diag Hd).
      rewrite !str_eqb_neq by discriminate. cbn [orb].
      change (to_lower "s") with "s"%char. change (to_lower "N") with "n"%char.
      change (to_lower "a") with "a"%char. cbn iota. now rewrite Hd, Hv.
    + change (lit "NaN" ++ diag) with ("N"%char :: "a"%char :: "N"%char :: diag).
      rewrite split_sign_str by reflexivity.
      cbn [parse_finite span_digits isdigit]. unfold parse_special.
      cbn [lower map]. fold (lower diag). rewrite (digits_lower diag Hd).
      rewrite !str_eqb_neq by discriminate. cbn [orb].
      change (to_lower "N") with "n"%char.
      change (to_lower "a") with "a"%char. cbn iota. now rewrite Hd, Hv.
Qed.

(* ----------------------------------------------------------------- *)
(** ** [load_expenses]: rows with a bad id, and defaults *)

Lemma dict_get_In {V} (d : list (pystr * V)) k v :
  dict_get d k = Some v -> In v (map snd d).
Proof.
  induction d as [|[k0 v0] d IH]; cbn; [discriminate|].
  destruct (str_eqb k k0); [intros H; inversion H; now left | intros H; right; now apply IH].
Qed.

Lemma row_get_complete row k :
  row_complete row -> exists s, row_get row k (Some []) = Some s.
Proof.
  intros Hc. unfold row_get. destruct (dict_get (items row) k) as [v|] eqn:E.
  - apply dict_get_In in E. apply in_map_iff in E. destruct E as (kv & <- & Hin).
    unfold row_complete in Hc. rewrite Forall_forall in Hc. specialize (Hc kv Hin).
    destruct kv as [k0 [s|]]; cbn in *; [now exists s | exfalso; now apply Hc].
  - now exists [].
Qed.

Lemma with_strip_complete row k f :
  row_complete row -> with_strip (row_get row k (Some [])) f = f (row_text row k).
Proof.
  intros Hc. unfold row_text. destruct (row_get_complete row k Hc) as (s & ->). reflexivity.
Qed.

(** On a row without missing cells the loop body skips the row when
    its id does not read as an integer, and keeps it otherwise, with
    the defaults of each field. *)
Lemma load_row_complete row :
  row_complete row ->
  load_row row = match row_id row with
                 | Some eid => Kept (row_expense eid row)
                 | None => Skipped
                 end.
Proof.
  intros Hc. unfold load_row, row_id.
  destruct (row_is_empty row); [reflexivity|]. cbn [orb].
  destruct (row_get row (lit "id") None) as [[|c t]|]; try reflexivity.
  cbn [cell_truthy negb].
  destruct (py_int (c :: t)) as [eid|]; [|reflexivity].
  rewrite !with_strip_complete by exact Hc. reflexivity.
Qed.

Lemma load_rows_tolerant rows :
  forall acc, Forall row_complete rows -> load_rows rows acc = inr (acc ++ kept_rows rows).
Proof.
  induction rows as [|row rows IH]; intros acc Hc.
  - cbn. now rewrite app_nil_r.
  - inversion Hc as [|? ? Hrow Hrest]; subst. cbn [load_rows kept_rows flat_map].
    rewrite (load_row_complete row Hrow).
    destruct (row_id row) as [eid|].
    + rewrite (IH _ Hrest). now rewrite <- app_assoc.
    + now rewrite (IH _ Hrest).
Qed.

Lemma dict_set_some_values (d : list (pystr * cell)) k v :
  Forall (fun kv => snd kv <> None) d ->
  Forall (fun kv => snd kv <> None) (dict_set d k (Some v)).
Proof.
  induction d as [|[k0 v0] d IH]; intros H; cbn.
  - constructor; [discriminate | constructor].
  - inversion H; subst. destruct (str_eqb k k0); constructor; auto. discriminate.
Qed.

(** A record with at least as many cells as the header has names
    gives a row without missing cells. *)
Lemma make_row_complete fieldnames row :
  (length fieldnames <= length row)%nat -> row_complete (make_row fieldnames row).
Proof.
  intros Hlen. unfold row_complete, make_row. cbn [items].
  rewrite skipn_all2 by exact Hlen. cbn [fold_left].
  assert (H : forall l d, Forall (fun kv : pystr * cell => snd kv <> None) d ->
                          Forall (fun kv : pystr * cell => snd kv <> None)
                            (fold_left (fun d kv => dict_set d (fst kv) (Some (snd kv))) l d)).
  { induction l as [|kv l IH]; intros d Hd; [exact Hd|].
    cbn [fold_left]. apply IH. now apply dict_set_some_values. }
  apply H. constructor.
Qed.

(** The rows of a file in which no record is shorter than the header:
    those with a bad id are left out, the others are returned in the
    order of the file with the defaults applied. *)
Lemma parse_expenses_tolerant text fieldnames data :
  reader_rows text = (fieldnames :: data, true) ->
  Forall (fun r => r = [] \/ (length fieldnames <= length r)%nat) data ->
  parse_expenses text = inr (kept_rows (DictReader (fieldnames :: data))).
Proof.
  intros Hr Hd. unfold parse_expenses. rewrite Hr.
  rewrite load_rows_tolerant; [reflexivity|].
  cbn [DictReader]. rewrite Forall_forall in *. intros row Hrow.
  apply in_map_iff in Hrow. destruct Hrow as (r & <- & Hin).
  apply filter_In in Hin. destruct Hin as [Hin Hnb].
  destruct (Hd r Hin) as [-> | Hlen]; [discriminate|].
  now apply make_row_complete.
Qed.

(** The defaults of the fields. *)
Lemma field_defaults :
  date_of_text [] = None
  /\ (forall t, strptime_ymd t = None -> date_of_text t = None)
  /\ amount_of_text [] = dec_zero
  /\ (forall t, Decimal_of_str t = None -> amount_of_text t = dec_zero)
  /\ str_or [] (lit "uncategorized") = lit "uncategorized"
  /\ str_or [] (lit "USD") = lit "USD".
Proof.
  repeat split; try reflexivity.
  - intros t H. destruct t; [reflexivity | exact H].
  - intros t H. destruct t; [reflexivity|]. cbn. now rewrite H.
Qed.

(** C9 on the code.  A record of one cell with a numeric id stops the
    load with [AttributeError]: [DictReader] fills the missing cells
    with [None], [row.get("date", "")] returns that [None], and [None]
    has no [strip].  The full row after it is not returned.  With the
    missing cells written out as empty cells the same file loads, the
    row without a numeric id left out and the defaults applied. *)
Theorem short_row_aborts_load :
  parse_expenses short_row_file = inl AttributeError
  /\ (forall typed printed day,
        load_expenses (mkworld (Some short_row_file) typed printed day)
        = Raise AttributeError (mkworld (Some short_row_file) typed printed day))
  /\ parse_expenses full_row_file
     = inr [ mkexpense 7 None (lit "uncategorized") dec_zero (lit "USD") [];
             mkexpense 8 (Some (mkdate 2025 1 2)) (lit "food") (Fin false 2 0)
                       (lit "USD") (lit "b") ].
Proof.
  assert (H : parse_expenses short_row_file = inl AttributeError) by (vm_compute; reflexivity).
  split; [exact H|]. split; [|vm_compute; reflexivity].
  intros typed printed day.
  rewrite (load_expenses_run (mkworld (Some short_row_file) typed printed day)
             short_row_file eq_refl), H.
  reflexivity.
Qed.

(* ----------------------------------------------------------------- *)
(** ** Saving then loading *)

Lemma make_row_six c0 c1 c2 c3 c4 c5 :
  make_row FIELDNAMES [c0; c1; c2; c3; c4; c5]
  = mkrow [ (lit "id", Some c0); (lit "date", Some c1); (lit "category", Some c2);
            (lit "amount", Some c3); (lit "currency", Some c4);
            (lit "description", Some c5) ] None.
Proof. reflexivity. Qed.

Lemma str_of_int_nonempty z : str_of_int z <> [].
Proof.
  unfold str_of_int. destruct (z <? 0)%Z; [discriminate | apply str_of_N_nonempty].
Qed.

Lemma dec_str_nonempty a : dec_str a <> [].
Proof.
  destruct a as [s c e|s|s sig p].
  - destruct (dec_str_fin_shape c e) as (ip & fp & dot & ex & Hs & _ & _ & Hne & _).
    rewrite Hs. destruct s, ip; try discriminate. contradiction.
  - destruct s; discriminate.
  - destruct s, sig; discriminate.
Qed.

Lemma str_or_id s d : s <> [] -> str_or s d = s.
Proof. destruct s; [contradiction | reflexivity]. Qed.

Lemma str_or_nil s : str_or s [] = s.
Proof. destruct s; reflexivity. Qed.

(** The row written for a storable record is read back as that record,
    when its id and its amount are within the limits of the conversions. *)
Lemma load_written_row e :
  storable e -> int_ok (e_id e) = true -> in_maxcontext (e_amount e) = true ->
  row_id (make_row FIELDNAMES (expense_row e)) = Some (e_id e)
  /\ row_expense (e_id e) (make_row FIELDNAMES (expense_row e)) = e.
Proof.
  intros (Hdate & Hcat & Hcat' & Hcur & Hcur' & Hdesc) Hid Hmax.
  unfold expense_row. rewrite make_row_six. split.
  - unfold row_id. cbn [row_is_empty items restkey].
    change (row_get _ (lit "id") None) with (Some (str_of_int (e_id e))).
    pose proof (str_of_int_nonempty (e_id e)) as Hne.
    pose proof (py_int_str (e_id e) Hid) as Hint.
    destruct (str_of_int (e_id e)); [contradiction | exact Hint].
  - unfold row_expense, row_text.
    change (row_get _ (lit "date") (Some []))
      with (Some (match e_date e with Some d => isoformat d | None => [] end)).
    change (row_get _ (lit "category") (Some [])) with (Some (e_category e)).
    change (row_get _ (lit "amount") (Some [])) with (Some (dec_str (e_amount e))).
    change (row_get _ (lit "currency") (Some [])) with (Some (e_currency e)).
    change (row_get _ (lit "description") (Some [])) with (Some (e_description e)).
    cbn iota.
    rewrite Hcat, Hcur, Hdesc, str_or_nil, !str_or_id by assumption.
    rewrite (proj1 (clean_text _ (dec_str_clean (e_amount e)))).
    assert (Ha : amount_of_text (dec_str (e_amount e)) = e_amount e).
    { unfold amount_of_text. pose proof (dec_str_nonempty (e_amount e)) as Hne.
      rewrite Decimal_of_str_dec_str by exact Hmax.
      destruct (dec_str (e_amount e)); [contradiction | reflexivity]. }
    assert (Hd : date_of_text (strip match e_date e with Some d => isoformat d | None => [] end)
                 = e_date e).
    { destruct (e_date e) as [d|] eqn:Ed; [|reflexivity].
      destruct (strptime_isoformat d (Hdate d eq_refl)) as (Hp & Hs & Hne).
      rewrite Hs. unfold date_of_text. destruct (isoformat d); [contradiction | exact Hp]. }
    rewrite Ha, Hd. destruct e; reflexivity.
Qed.

Lemma render_expenses_rows R :
  render_expenses R = flat_map writerow (FIELDNAMES :: map expense_row R).
Proof.
  unfold render_expenses, header_text. cbn [flat_map]. f_equal.
  induction R as [|e R IH]; [reflexivity|]. cbn [flat_map map]. now rewrite IH.
Qed.

Lemma kept_written_rows R :
  Forall storable R -> Forall fits_store R ->
  kept_rows (DictReader (FIELDNAMES :: map expense_row R)) = R.
Proof.
  intros Hs Hf. cbn [DictReader].
  induction Hs as [|e R He _ IH]; [reflexivity|].
  inversion Hf as [|? ? (Hid & Hmax & _) Hf']; subst.
  cbn [map filter row_is_blank expense_row negb kept_rows flat_map].
  fold (expense_row e). fold (kept_rows (map (make_row FIELDNAMES)
         (filter (fun r => negb (row_is_blank r)) (map expense_row R)))).
  destruct (load_written_row e He Hid Hmax) as [-> ->]. rewrite (IH Hf'). reflexivity.
Qed.

Lemma fits_fieldnames : Forall fits FIELDNAMES.
Proof.
  unfold FIELDNAMES.
  repeat (apply Forall_cons; [unfold fits; vm_compute; discriminate|]). apply Forall_nil.
Qed.

(** What is written for storable records that fit loads as these
    records. *)
Lemma parse_render R :
  Forall storable R -> Forall fits_store R -> parse_expenses (render_expenses R) = inr R.
Proof.
  intros Hs Hf. rewrite render_expenses_rows.
  rewrite (parse_expenses_tolerant _ FIELDNAMES (map expense_row R)).
  - now rewrite kept_written_rows.
  - apply reader_rows_writerows. constructor; [apply fits_fieldnames|].
    rewrite Forall_forall in *. intros r Hr. apply in_map_iff in Hr.
    destruct Hr as (e & <- & He). specialize (Hf e He). destruct Hf as (_ & _ & Hf).
    exact Hf.
  - rewrite Forall_forall. intros r Hr. apply in_map_iff in Hr.
    destruct Hr as (e & <- & _). right. cbn. lia.
Qed.

Lemma write_rows_ok es :
  forall written,
    Forall (fun e => int_ok (e_id e) = true) es ->
    write_rows es written
    = (written ++ flat_map (fun e => writerow (expense_row e)) es, true).
Proof.
  induction es as [|e es IH]; intros written H; cbn [write_rows flat_map].
  - now rewrite app_nil_r.
  - inversion H as [|? ? He Hes]; subst. rewrite He, (IH _ Hes). now rewrite <- app_assoc.
Qed.

(** When every id converts to text, [save_expenses] writes the header
    and all the rows. *)
Lemma save_expenses_run es w :
  Forall (fun e => int_ok (e_id e) = true) es ->
  save_expenses es w
  = Ok tt (mkworld (Some (render_expenses es)) (stdin w) (stdout w) (today w)).
Proof.
  intros H. unfold save_expenses. rewrite (write_rows_ok es header_text H). reflexivity.
Qed.

(** A row whose id does not convert stops the writing: the rows before
    it are in the file. *)
Lemma write_rows_last es e :
  forall written,
    Forall (fun e => int_ok (e_id e) = true) es ->
    write_rows (es ++ [e]) written
    = if int_ok (e_id e)
      then (written ++ flat_map (fun e => writerow (expense_row e)) (es ++ [e]), true)
      else (written ++ flat_map (fun e => writerow (expense_row e)) es, false).
Proof.
  induction es as [|x es IH]; intros written H; cbn [write_rows flat_map app].
  - destruct (int_ok (e_id e)); now rewrite ?app_nil_r.
  - inversion H as [|? ? Hx Hes]; subst. rewrite Hx, (IH _ Hes).
    destruct (int_ok (e_id e)); now rewrite <- app_assoc.
Qed.

Lemma fits_store_ids es :
  Forall fits_store es -> Forall (fun e => int_ok (e_id e) = true) es.
Proof. apply Forall_impl. intros e (H & _). exact H. Qed.

(** C1, as stated, fails: white space around a text field is removed
    on loading.  A record whose description is " lunch" comes back with
    the description "lunch". *)
Lemma roundtrip_counterexample :
  parse_expenses (render_expenses [r_spaced])
  = inr [mkexpense 1 (Some (mkdate 2025 10 1)) (lit "food") (Fin false 1250 (-2))
                   (lit "USD") (lit "lunch")]
  /\ parse_expenses (render_expenses [r_spaced]) <> inr [r_spaced].
Proof.
  assert (H : parse_expenses (render_expenses [r_spaced])
              = inr [mkexpense 1 (Some (mkdate 2025 10 1)) (lit "food") (Fin false 1250 (-2))
                               (lit "USD") (lit "lunch")])
    by (vm_compute; reflexivity).
  split; [exact H|]. rewrite H. intros E. inversion E.
Qed.

(** C1, amended.  For records whose dates are dates of the calendar,
    whose category, currency and description carry no white space at
    either end, the category and the currency not being empty, and
    which are within the limits of the conversions (an id of at most
    4300 digits, an amount within the widest decimal context, no cell
    longer than the 131072 characters that the csv reader accepts),
    what [save_expenses] writes is what [load_expenses] returns: every
    id, date, amount (sign, digits and exponent, and the special
    values), category, currency and description is the same, in the
    same order; the ids need be neither distinct nor positive. *)
Theorem save_load_roundtrip R w :
  Forall storable R -> Forall fits_store R ->
  parse_expenses (render_expenses R) = inr R
  /\ exists w',
       save_expenses R w = Ok tt w'
       /\ file w' = Some (render_expenses R)
       /\ load_expenses w' = Ok R w'.
Proof.
  intros Hs Hf. pose proof (parse_render R Hs Hf) as Hp. split; [exact Hp|].
  exists (mkworld (Some (render_expenses R)) (stdin w) (stdout w) (today w)).
  split; [apply save_expenses_run, fits_store_ids, Hf|]. split; [reflexivity|].
  apply load_expenses_holds. exists (render_expenses R). auto.
Qed.

Lemma save_load_roundtrip_witness :
  parse_expenses (render_expenses [r_food; r_rent; r_undated]) = inr [r_food; r_rent; r_undated]
  /\ exists w',
       save_expenses [r_food; r_rent; r_undated] (world_of [] []) = Ok tt w'
       /\ file w' = Some (render_expenses [r_food; r_rent; r_undated])
       /\ load_expenses w' = Ok [r_food; r_rent; r_undated] w'.
Proof.
  apply (save_load_roundtrip [r_food; r_rent; r_undated] (world_of [] [])).
  - repeat constructor; try (intros d H; inversion H; reflexivity); try discriminate.
  - repeat (apply Forall_cons;
            [split; [reflexivity | split; [reflexivity|]];
             repeat (apply Forall_cons; [unfold fits; vm_compute; discriminate|]);
             apply Forall_nil|]).
    apply Forall_nil.
Defined.

(* ----------------------------------------------------------------- *)
(** ** What the program stores, it reads back *)

Lemma lstrip_by_head ws s :
  match lstrip_by ws s with c :: _ => ws c = false | [] => True end.
Proof.
  induction s as [|c s IH]; [exact I|]. cbn [lstrip_by].
  destruct (ws c) eqn:E; [exact IH | exact E].
Qed.

Lemma lstrip_by_suffix ws s : exists p, s = p ++ lstrip_by ws s.
Proof.
  induction s as [|c s IH]; [now exists []|]. cbn [lstrip_by].
  destruct (ws c); [|now exists []].
  destruct IH as (p & Hp). exists (c :: p). cbn. now f_equal.
Qed.

Lemma lstrip_by_idem ws s : lstrip_by ws (lstrip_by ws s) = lstrip_by ws s.
Proof. apply lstrip_by_id, lstrip_by_head. Qed.

(** [strip] is idempotent. *)
Lemma strip_by_idem ws s : strip_by ws (strip_by ws s) = strip_by ws s.
Proof.
  unfold strip_by at 1. unfold rstrip_by at 1.
  set (t := strip_by ws s).
  assert (Hl : lstrip_by ws t = t).
  { apply lstrip_by_id. subst t. unfold strip_by, rstrip_by.
    destruct (lstrip_by_suffix ws (rev (lstrip_by ws s))) as (p & Hp).
    apply (f_equal (@rev ascii)) in Hp. rewrite rev_involutive, rev_app_distr in Hp.
    pose proof (lstrip_by_head ws s) as Hh. rewrite Hp in Hh.
    destruct (rev (lstrip_by ws (rev (lstrip_by ws s)))); [exact I | exact Hh]. }
  rewrite Hl. subst t. unfold strip_by, rstrip_by.
  rewrite rev_involutive, lstrip_by_idem. reflexivity.
Qed.

Lemma strip_idem s : strip (strip s) = strip s.
Proof. apply strip_by_idem. Qed.

Lemma strptime_valid t d : strptime_ymd t = Some d -> valid_date d = true.
Proof.
  unfold strptime_ymd.
  destruct t as [|y1 [|y2 [|y3 [|y4 [|dash t]]]]]; try discriminate.
  destruct dash as [[] [] [] [] [] [] [] []]; try discriminate.
  destruct (forallb isdigit [y1; y2; y3; y4]); [|discriminate].
  destruct (match_m_d (alts_m t)) as [[[m dd] [|? ?]]|]; try discriminate.
  destruct (py_int [y1; y2; y3; y4]); [|discriminate].
  destruct (py_int m); [|discriminate].
  destruct (py_int dd); [|discriminate].
  destruct (valid_date _) eqn:E; [|discriminate].
  intros H. inversion H; subst. exact E.
Qed.

(** A stripped text with a stripped, non-empty default. *)
Lemma str_or_strip s d :
  strip d = d -> d <> [] ->
  strip (str_or (strip s) d) = str_or (strip s) d /\ str_or (strip s) d <> [].
Proof.
  intros Hd Hne. destruct (strip s) as [|c t] eqn:E; cbn [str_or].
  - auto.
  - rewrite <- E. split; [apply strip_idem | rewrite E; discriminate].
Qed.

(** The record that loading makes of a row is storable. *)
Lemma row_expense_storable eid row : storable (row_expense eid row).
Proof.
  unfold storable, row_expense. cbn [e_date e_category e_currency e_description].
  split.
  - intros d Hd. unfold date_of_text in Hd.
    destruct (row_text row (lit "date")); [discriminate|]. now apply strptime_valid in Hd.
  - unfold row_text.
    assert (H : forall c d, strip d = d -> d <> [] ->
              strip (str_or match c with Some s => strip s | None => [] end d)
              = str_or match c with Some s => strip s | None => [] end d
              /\ str_or match c with Some s => strip s | None => [] end d <> []).
    { intros [s|] d Hd Hne; [now apply str_or_strip|]. cbn [str_or]. auto. }
    destruct (H (row_get row (lit "category") (Some [])) (lit "uncategorized")
                eq_refl ltac:(discriminate)) as [H1 H2].
    destruct (H (row_get row (lit "currency") (Some [])) (lit "USD")
                eq_refl ltac:(discriminate)) as [H3 H4].
    repeat split; try assumption.
    rewrite str_or_nil. destruct (row_get row (lit "description") (Some [])) as [s|];
      [apply strip_idem | reflexivity].
Qed.

Lemma load_row_cases row :
  match load_row row with
  | Skipped => row_id row = None
  | Kept e => exists eid, row_id row = Some eid /\ e = row_expense eid row
  | Failed _ => True
  end.
Proof.
  unfold load_row, row_id, row_expense, row_text.
  destruct (row_is_empty row); [reflexivity|]. cbn [orb].
  destruct (row_get row (lit "id") None) as [[|c t]|]; try reflexivity.
  cbn [cell_truthy negb].
  destruct (py_int (c :: t)) as [eid|]; [|reflexivity].
  destruct (row_get row (lit "date") (Some [])) as [s1|]; [|exact I].
  destruct (row_get row (lit "amount") (Some [])) as [s2|]; [|exact I].
  destruct (row_get row (lit "category") (Some [])) as [s3|]; [|exact I].
  destruct (row_get row (lit "currency") (Some [])) as [s4|]; [|exact I].
  destruct (row_get row (lit "description") (Some [])) as [s5|]; [|exact I].
  cbn [with_strip]. exists eid. split; reflexivity.
Qed.

(** When the load succeeds, its result is the kept rows. *)
Lemma load_rows_kept rows :
  forall acc es, load_rows rows acc = inr es -> es = acc ++ kept_rows rows.
Proof.
  induction rows as [|row rows IH]; intros acc es H.
  - cbn in H. inversion H. now rewrite app_nil_r.
  - cbn [load_rows] in H. cbn [kept_rows flat_map].
    fold (kept_rows rows).
    pose proof (load_row_cases row) as Hc.
    destruct (load_row row) as [|e|x]; [| |discriminate].
    + rewrite Hc. now apply IH.
    + destruct Hc as (eid & -> & ->). rewrite (IH _ _ H). now rewrite <- app_assoc.
Qed.

Lemma kept_rows_storable rows : Forall storable (kept_rows rows).
Proof.
  induction rows as [|row rows IH]; [constructor|].
  cbn [kept_rows flat_map]. fold (kept_rows rows).
  destruct (row_id row); [|exact IH]. cbn [app]. constructor; [apply row_expense_storable | exact IH].
Qed.

(** A load that succeeds read the file to its end, and returns the
    kept rows. *)
Lemma parse_expenses_inv text es :
  parse_expenses text = inr es ->
  exists rows, reader_rows text = (rows, true) /\ es = kept_rows (DictReader rows).
Proof.
  unfold parse_expenses. destruct (reader_rows text) as [rows complete].
  destruct (load_rows (DictReader rows) []) as [x|l] eqn:E; [discriminate|].
  destruct complete; [|discriminate]. intros H. inversion H; subst.
  exists rows. split; [reflexivity|]. now apply load_rows_kept in E.
Qed.

(** Every record that [load_expenses] returns is storable. *)
Lemma parse_expenses_storable text es :
  parse_expenses text = inr es -> Forall storable es.
Proof.
  intros H. destruct (parse_expenses_inv _ _ H) as (rows & _ & ->). apply kept_rows_storable.
Qed.

Lemma holds_storable w es : holds w es -> Forall storable es.
Proof. intros (text & _ & Hp). now apply parse_expenses_storable in Hp. Qed.

Lemma amount_of_text_in_maxcontext t : in_maxcontext (amount_of_text t) = true.
Proof.
  unfold amount_of_text. destruct t as [|c t]; [reflexivity|].
  destruct (Decimal_of_str (c :: t)) as [a|] eqn:E; [|reflexivity].
  now apply Decimal_of_str_in_maxcontext in E.
Qed.

Lemma row_id_ok row eid : row_id row = Some eid -> int_ok eid = true.
Proof.
  unfold row_id. destruct (row_is_empty row); [discriminate|].
  destruct (row_get row (lit "id") None) as [[|c t]|]; try discriminate.
  apply py_int_ok.
Qed.

(** The ids and the amounts that were loaded are within the limits of
    the conversions to text. *)
Lemma kept_rows_ok rows :
  Forall (fun e => int_ok (e_id e) = true /\ in_maxcontext (e_amount e) = true)
         (kept_rows rows).
Proof.
  induction rows as [|row rows IH]; [constructor|].
  cbn [kept_rows flat_map]. fold (kept_rows rows).
  destruct (row_id row) as [eid|] eqn:E; [|exact IH]. cbn [app]. constructor; [|exact IH].
  cbn [row_expense e_id e_amount]. split; [now apply row_id_ok in E|].
  apply amount_of_text_in_maxcontext.
Qed.

Lemma holds_ids_ok w es : holds w es -> Forall (fun e => int_ok (e_id e) = true) es.
Proof.
  intros (text & _ & Hp). destruct (parse_expenses_inv _ _ Hp) as (rows & _ & ->).
  eapply Forall_impl; [|apply kept_rows_ok]. intros e (H & _). exact H.
Qed.

Lemma holds_limits w es :
  holds w es ->
  Forall (fun e => int_ok (e_id e) = true /\ in_maxcontext (e_amount e) = true) es.
Proof.
  intros (text & _ & Hp). destruct (parse_expenses_inv _ _ Hp) as (rows & _ & ->).
  apply kept_rows_ok.
Qed.

(** Records of the store whose cells, written again, are no longer than
    the csv reader accepts are read back as they are. *)
Lemma parse_render_kept w es kept :
  holds w es -> incl kept es -> Forall (fun e => Forall fits (expense_row e)) kept ->
  parse_expenses (render_expenses kept) = inr kept.
Proof.
  intros Hh Hincl Hfits.
  pose proof (holds_storable _ _ Hh) as Hs. pose proof (holds_limits _ _ Hh) as Hl.
  rewrite Forall_forall in *. apply parse_render; rewrite Forall_forall; intros e He.
  - apply Hs, Hincl, He.
  - destruct (Hl e (Hincl e He)) as [H1 H2]. repeat split; auto.
Qed.

(** After [save_expenses] of storable records that fit, the store
    holds them. *)
Lemma save_expenses_holds es w :
  Forall storable es -> Forall fits_store es ->
  holds (mkworld (Some (render_expenses es)) (stdin w) (stdout w) (today w)) es.
Proof.
  intros Hs Hf. exists (render_expenses es). split; [reflexivity | now apply parse_render].
Qed.

(* ----------------------------------------------------------------- *)
(** ** [list_expenses]: the sorted view *)

Lemma date_ltb_false_iff a b :
  date_ltb a b = false <->
  (year b < year a
   \/ (year b = year a /\ (month b < month a \/ (month b = month a /\ day b <= day a))))%Z.
Proof.
  unfold date_ltb, date_compare.
  destruct (Z.compare_spec (year a) (year b));
    destruct (Z.compare_spec (month a) (month b));
    destruct (Z.compare_spec (day a) (day b));
    split; intros; try discriminate; try reflexivity; try lia.
Qed.

Lemma not_before_trans a b c : not_before a b -> not_before b c -> not_before a c.
Proof. unfold not_before. rewrite !date_ltb_false_iff. lia. Qed.

Lemma date_ltb_asym a b : date_ltb a b = true -> date_ltb b a = false.
Proof.
  intros H. apply date_ltb_false_iff.
  destruct (date_ltb b a) eqn:E; [|now apply date_ltb_false_iff].
  exfalso. revert H E. unfold date_ltb, date_compare.
  destruct (Z.compare_spec (year a) (year b));
    destruct (Z.compare_spec (month a) (month b));
    destruct (Z.compare_spec (day a) (day b));
    destruct (Z.compare_spec (year b) (year a));
    destruct (Z.compare_spec (month b) (month a));
    destruct (Z.compare_spec (day b) (day a)); intros; try discriminate; lia.
Qed.

Section SortedDesc.
Variables (A : Type) (lt : A -> A -> bool).
Let ge (a b : A) : Prop := lt a b = false.
Hypothesis ge_trans : forall a b c, ge a b -> ge b c -> ge a c.
Hypothesis lt_asym : forall a b, lt a b = true -> lt b a = false.

Lemma insert_desc_perm x l : Permutation (insert_desc lt x l) (x :: l).
Proof.
  induction l as [|y l IH]; simpl; [reflexivity|].
  destruct (lt x y); [|reflexivity].
  rewrite IH. apply perm_swap.
Qed.

Lemma sorted_desc_perm l : Permutation (sorted_desc lt l) l.
Proof.
  induction l as [|x l IH]; simpl; [reflexivity|].
  rewrite insert_desc_perm. now constructor.
Qed.

Lemma insert_desc_sorted x l :
  StronglySorted ge l -> StronglySorted ge (insert_desc lt x l).
Proof.
  induction l as [|y l IH]; simpl; intros Hs.
  - repeat constructor.
  - inversion Hs as [|? ? Hl Hy]; subst.
    destruct (lt x y) eqn:E.
    + constructor; [now apply IH|].
      rewrite (Forall_forall (ge y)). intros z Hz.
      apply (Permutation_in _ (insert_desc_perm x l)) in Hz.
      destruct Hz as [<-|Hz]; [now apply lt_asym|].
      rewrite Forall_forall in Hy. now apply Hy.
    + constructor; [assumption|].
      constructor; [exact E|].
      rewrite Forall_forall in *. intros z Hz. apply ge_trans with y; [exact E | now apply Hy].
Qed.

Lemma sorted_desc_sorted l : StronglySorted ge (sorted_desc lt l).
Proof.
  induction l as [|x l IH]; simpl; [constructor | now apply insert_desc_sorted].
Qed.
End SortedDesc.

Lemma sort_by_date_perm es : Permutation (sort_by_date es) es.
Proof. apply sorted_desc_perm. Qed.

Lemma sort_by_date_sorted es : StronglySorted not_before (sort_by_date es).
Proof.
  apply sorted_desc_sorted.
  - intros a b c. apply not_before_trans.
  - intros a b. apply date_ltb_asym.
Qed.

Lemma StronglySorted_app_inv {A} (R : A -> A -> Prop) l1 a l2 :
  StronglySorted R (l1 ++ a :: l2) -> Forall (R a) l2.
Proof.
  induction l1 as [|x l1 IH]; simpl; intros H; inversion H; subst; auto.
Qed.

(** C6, as stated, fails: an undated record counts as dated
    0001-01-01, so it ties with a record of that very day and stays in
    front of it when it came first. *)
Lemma undated_last_counterexample :
  listed [r_undated; r_first_day] 20 = [r_undated; r_first_day]
  /\ e_date r_undated = None
  /\ e_date r_first_day = Some date_min
  /\ strptime_ymd (lit "0001-01-01") = Some date_min.
Proof. repeat split; reflexivity. Qed.

(** A negative limit is a slice from the end: more rows than the limit. *)
Example listed_negative_limit :
  listed [r_food; r_rent; r_taxi] (-1) = [r_taxi; r_rent].
Proof. reflexivity. Qed.

(** C6, amended.  For a limit that is not negative, the view is the
    first [limit] records of the records sorted by date, latest first,
    an undated record counting as dated 0001-01-01: the sorted sequence
    is a rearrangement of the records in which no record is followed by
    a later one, so an undated record is never followed by a record
    dated after 0001-01-01; and the view has at most [limit] rows. *)
Theorem listed_spec es limit :
  (0 <= limit)%Z ->
  listed es limit = firstn (Z.to_nat limit) (sort_by_date es)
  /\ (Z.of_nat (length (listed es limit)) <= limit)%Z
  /\ Permutation (sort_by_date es) es
  /\ StronglySorted not_before (sort_by_date es)
  /\ (forall l1 a l2 b l3 d,
        sort_by_date es = l1 ++ a :: l2 ++ b :: l3 ->
        e_date a = None -> e_date b = Some d -> date_ltb date_min d = false).
Proof.
  intros Hl.
  assert (Hlisted : listed es limit = firstn (Z.to_nat limit) (sort_by_date es)).
  { unfold listed, slice_to. destruct (Z.ltb_spec limit 0); [lia | reflexivity]. }
  split; [exact Hlisted|]. split; [|split; [|split]].
  - rewrite Hlisted. pose proof (firstn_le_length (Z.to_nat limit) (sort_by_date es)). lia.
  - apply sort_by_date_perm.
  - apply sort_by_date_sorted.
  - intros l1 a l2 b l3 d Hs Ha Hb.
    pose proof (sort_by_date_sorted es) as Hsorted. rewrite Hs in Hsorted.
    apply StronglySorted_app_inv in Hsorted.
    rewrite Forall_forall in Hsorted.
    assert (Hab : not_before a b) by (apply Hsorted; apply in_or_app; right; now left).
    unfold not_before, date_key in Hab. now rewrite Ha, Hb in Hab.
Qed.

Lemma listed_spec_witness :
  listed [r_undated; r_food; r_taxi] 2 = firstn (Z.to_nat 2) (sort_by_date [r_undated; r_food; r_taxi])
  /\ (Z.of_nat (length (listed [r_undated; r_food; r_taxi] 2)) <= 2)%Z
  /\ Permutation (sort_by_date [r_undated; r_food; r_taxi]) [r_undated; r_food; r_taxi]
  /\ StronglySorted not_before (sort_by_date [r_undated; r_food; r_taxi])
  /\ (forall l1 a l2 b l3 d,
        sort_by_date [r_undated; r_food; r_taxi] = l1 ++ a :: l2 ++ b :: l3 ->
        e_date a = None -> e_date b = Some d -> date_ltb date_min d = false).
Proof. apply (listed_spec [r_undated; r_food; r_taxi] 2). lia. Defined.

Example listed_example :
  listed [r_undated; r_food; r_taxi; r_rent] 20 = [r_taxi; r_rent; r_food; r_undated].
Proof. reflexivity. Qed.

(* ----------------------------------------------------------------- *)
(** ** [delete_expense] *)

Lemma match_nonempty {A B} (l : list A) (a b : B) :
  l <> [] -> match l with [] => a | _ :: _ => b end = b.
Proof. destruct l; [contradiction | reflexivity]. Qed.

Lemma print_rows_run es w :
  Forall (fun e => int_ok (e_id e) = true) es ->
  print_rows es w = Ok tt (with_out w (map Line (map table_row es))).
Proof.
  intros H. revert w. induction H as [|e es He _ IH]; intros w.
  - cbn. now rewrite with_out_nil.
  - cbn [print_rows map]. unfold bind. rewrite He, print_run, IH, with_out_app.
    reflexivity.
Qed.

Lemma slice_to_incl {A} limit (l : list A) x : In x (slice_to limit l) -> In x l.
Proof.
  assert (Hn : forall n, In x (firstn n l) -> In x l).
  { intros n H. rewrite <- (firstn_skipn n l). apply in_or_app. now left. }
  unfold slice_to. destruct (limit <? 0)%Z; apply Hn.
Qed.

Lemma listed_incl es limit e : In e (listed es limit) -> In e es.
Proof.
  intros H. apply slice_to_incl in H.
  eapply Permutation_in; [apply sort_by_date_perm | exact H].
Qed.

Lemma listed_Forall (P : expense -> Prop) es limit :
  Forall P es -> Forall P (listed es limit).
Proof.
  rewrite !Forall_forall. intros H e He. apply H. now apply listed_incl in He.
Qed.

Lemma list_expenses_run es limit w :
  es <> [] -> Forall (fun e => int_ok (e_id e) = true) es ->
  list_expenses (Some es) limit w
  = Ok tt (with_out w (Line table_header :: map Line (map table_row (listed es limit)))).
Proof.
  intros Hne Hok. unfold list_expenses, bind, ret.
  destruct es as [|e es]; [contradiction|].
  rewrite print_run, (print_rows_run _ _ (listed_Forall _ _ limit Hok)), with_out_app.
  reflexivity.
Qed.

Lemma keep_others_absent eid es :
  ~ In eid (map e_id es) -> keep_others eid es = es.
Proof.
  induction es as [|e es IH]; simpl; [reflexivity|].
  intros Hn. destruct (Z.eqb_spec (e_id e) eid) as [E|E]; simpl.
  - exfalso. apply Hn. now left.
  - rewrite IH; [reflexivity|]. intros H. apply Hn. now right.
Qed.

Lemma keep_others_present eid es :
  NoDup (map e_id es) -> In eid (map e_id es) ->
  exists l1 x l2, es = l1 ++ x :: l2 /\ e_id x = eid /\ keep_others eid es = l1 ++ l2
                  /\ ~ In eid (map e_id (l1 ++ l2)).
Proof.
  induction es as [|e es IH]; [simpl; tauto|].
  intros Hnd Hin. inversion Hnd as [|? ? Hnotin Hnd']; subst.
  destruct (Z.eq_dec (e_id e) eid) as [E|E].
  - exists [], e, es. subst eid.
    assert (Hk : keep_others (e_id e) (e :: es) = es).
    { unfold keep_others; simpl. rewrite Z.eqb_refl; simpl.
      apply keep_others_absent. assumption. }
    repeat split; auto.
  - destruct Hin as [Hin|Hin]; [contradiction|].
    destruct (IH Hnd' Hin) as (l1 & x & l2 & Hes & Hx & Hk & Hn).
    exists (e :: l1), x, l2. repeat split; auto.
    + simpl. now rewrite Hes.
    + simpl. destruct (Z.eqb_spec (e_id e) eid) as [E'|_]; [contradiction|]. simpl.
      fold (keep_others eid es). now rewrite Hk.
    + simpl. intros [H|H]; [contradiction | now apply Hn].
Qed.

Lemma delete_expense_run w es typed rest :
  holds w es -> es <> [] -> stdin w = typed :: rest ->
  let shown := Line table_header :: map Line (map table_row (listed es 50))
               ++ [Prompt (lit "Enter expense id to delete: ")] in
  delete_expense w =
  match py_int (strip typed) with
  | None => Ok tt (mkworld (file w) rest
                     (stdout w ++ shown ++ [Line (lit "Invalid id. Cancelled.")]) (today w))
  | Some eid =>
      if (length (keep_others eid es) =? length es)%nat
      then Ok tt (mkworld (file w) rest
                    (stdout w ++ shown ++ [Line (lit "No expense with that id. Nothing deleted.")])
                    (today w))
      else Ok tt (mkworld (Some (render_expenses (keep_others eid es))) rest
                    (stdout w ++ shown
                     ++ [Line (lit "Deleted expense id=" ++ str_of_int eid ++ lit ".")])
                    (today w))
  end.
Proof.
  intros Hh Hne Hin shown. subst shown. unfold delete_expense, bind.
  rewrite (load_expenses_holds _ _ Hh), (match_nonempty _ _ _ Hne).
  rewrite (list_expenses_run es 50 w Hne (holds_ids_ok _ _ Hh)).
  rewrite (input_run _ typed rest (with_out w _)) by exact Hin.
  unfold with_out; cbn [file stdin stdout today].
  destruct (py_int (strip typed)) as [eid|] eqn:Hid.
  - fold (keep_others eid es).
    destruct (length (keep_others eid es) =? length es)%nat.
    + rewrite print_run. unfold with_out; cbn [file stdin stdout today].
      repeat (rewrite <- app_assoc || rewrite <- app_comm_cons); reflexivity.
    + rewrite save_expenses_run
        by (eapply incl_Forall; [apply incl_filter | apply (holds_ids_ok _ _ Hh)]).
      unfold str_m, str_int. rewrite (py_int_ok _ _ Hid). unfold ret.
      rewrite print_run. unfold with_out; cbn [file stdin stdout today].
      repeat (rewrite <- app_assoc || rewrite <- app_comm_cons); reflexivity.
  - rewrite print_run. unfold with_out; cbn [file stdin stdout today].
    repeat (rewrite <- app_assoc || rewrite <- app_comm_cons); reflexivity.
Qed.

(** With no record in the store nothing is asked and nothing is
    written. *)
Lemma delete_expense_empty w :
  holds w [] ->
  delete_expense w = Ok tt (with_out w [Line (lit "No expenses to delete.")]).
Proof.
  intros Hh. unfold delete_expense, bind.
  rewrite (load_expenses_holds _ _ Hh). apply print_run.
Qed.

(** C4.  With distinct ids in the store and an id typed at the prompt:
    if a record carries it, the file is rewritten with that one record
    taken out, the others as they were and in their order, one record
    fewer, the id gone; if none carries it, the filter keeps every
    record, the program says so and the file is left as it was. *)
Theorem delete_expense_spec w es typed rest eid :
  holds w es -> es <> [] -> NoDup (map e_id es) ->
  stdin w = typed :: rest -> py_int (strip typed) = Some eid ->
  let shown := Line table_header :: map Line (map table_row (listed es 50))
               ++ [Prompt (lit "Enter expense id to delete: ")] in
  (In eid (map e_id es) ->
   exists l1 x l2,
     es = l1 ++ x :: l2 /\ e_id x = eid
     /\ ~ In eid (map e_id (l1 ++ l2))
     /\ S (length (l1 ++ l2)) = length es
     /\ delete_expense w
        = Ok tt (mkworld (Some (render_expenses (l1 ++ l2))) rest
                   (stdout w ++ shown
                    ++ [Line (lit "Deleted expense id=" ++ str_of_int eid ++ lit ".")])
                   (today w)))
  /\ (~ In eid (map e_id es) ->
      filter (fun e => negb (e_id e =? eid)%Z) es = es
      /\ delete_expense w
         = Ok tt (mkworld (file w) rest
                    (stdout w ++ shown
                     ++ [Line (lit "No expense with that id. Nothing deleted.")])
                    (today w))).
Proof.
  intros Hh Hne Hnd Hin Hid shown.
  pose proof (delete_expense_run w es typed rest Hh Hne Hin) as Hrun. cbv zeta in Hrun.
  rewrite Hid in Hrun. split.
  - intros Hpresent.
    destruct (keep_others_present _ _ Hnd Hpresent) as (l1 & x & l2 & Hes & Hx & Hk & Hn).
    exists l1, x, l2.
    assert (Hlen : S (length (l1 ++ l2)) = length es).
    { rewrite Hes. repeat rewrite length_app. simpl. lia. }
    repeat split; auto.
    rewrite Hrun, Hk.
    destruct (Nat.eqb_spec (length (l1 ++ l2)) (length es)) as [E|E]; [lia|].
    reflexivity.
  - intros Habsent. pose proof (keep_others_absent _ _ Habsent) as Hk.
    split; [exact Hk|]. rewrite Hrun, Hk, Nat.eqb_refl. reflexivity.
Qed.

Lemma delete_expense_spec_witness :
  exists l1 x l2,
    [r_food; r_rent; r_taxi] = l1 ++ x :: l2 /\ e_id x = 2%Z
    /\ ~ In 2%Z (map e_id (l1 ++ l2))
    /\ S (length (l1 ++ l2)) = 3
    /\ delete_expense (world_of [r_food; r_rent; r_taxi] [lit "2"])
       = Ok tt (mkworld (Some (render_expenses (l1 ++ l2))) []
                  ([] ++ (Line table_header
                          :: map Line (map table_row (listed [r_food; r_rent; r_taxi] 50))
                          ++ [Prompt (lit "Enter expense id to delete: ")])
                   ++ [Line (lit "Deleted expense id=" ++ str_of_int 2 ++ lit ".")])
                  (mkdate 2025 11 3)).
Proof.
  apply (delete_expense_spec (world_of [r_food; r_rent; r_taxi] [lit "2"])
           [r_food; r_rent; r_taxi] (lit "2") [] 2%Z).
  - exists (render_expenses [r_food; r_rent; r_taxi]). split; [reflexivity | vm_compute; reflexivity].
  - discriminate.
  - simpl. repeat constructor; simpl; intuition discriminate.
  - reflexivity.
  - reflexivity.
  - simpl. auto.
Defined.

(* ----------------------------------------------------------------- *)
(** ** [summarize_expenses] *)

Lemma lift_arith_run {A} (a : arith A) w :
  lift_arith a w = match a with
                   | Val v => Ok v w
                   | Trap s => Raise (DecimalException s) w
                   end.
Proof. destruct a; reflexivity. Qed.

(** The numbers of a month that parses were returned by [int]: they
    convert to text. *)
Lemma parse_month_ok m y mon :
  parse_month m = Some (y, mon) -> int_ok y = true /\ int_ok mon = true.
Proof.
  unfold parse_month. destruct (split_on "-" m) as [|p0 rest]; [discriminate|].
  destruct (py_int p0) as [y'|] eqn:E0; [|discriminate].
  destruct rest as [|p1 rest]; [discriminate|].
  destruct (py_int p1) as [m'|] eqn:E1; [|discriminate].
  intros H. inversion H; subst. split; eapply py_int_ok; eassumption.
Qed.

(** Making the title raises nothing. *)
Lemma scope_of_run month es w : scope_of month es w = Ok (month_scope month es) w.
Proof.
  unfold scope_of, month_scope. destruct month as [[|c m]|]; try reflexivity.
  destruct (parse_month (c :: m)) as [[y mon]|] eqn:E; [|reflexivity].
  destruct (parse_month_ok _ _ _ E) as [Hy Hm].
  unfold bind, str_m, str_int, fmt_m. rewrite Hy, Hm. reflexivity.
Qed.

(** What [summarize_expenses] does once records have been loaded. *)
Lemma summarize_expenses_run month w es w1 :
  load_expenses w = Ok es w1 -> es <> [] ->
  summarize_expenses month w =
  match month_scope month es with
  | None => Ok tt (with_out w [Line msg_invalid_month])
  | Some ([], title) => Ok tt (with_out w [Line (lit "No expenses for " ++ title ++ lit ".")])
  | Some (first :: rest, title) =>
      match py_sum (map e_amount (first :: rest)) with
      | Trap s => Raise (DecimalException s) w
      | Val total =>
          match by_category (first :: rest) [] with
          | Trap s => Raise (DecimalException s) w
          | Val by_cat =>
              let head := [Line title; Line (total_line total first);
                           Line (lit "By category:")] in
              match sort_by_subtotal by_cat with
              | Trap s => Raise (DecimalException s) (with_out w head)
              | Val lines =>
                  Ok tt (with_out w (head ++ map Line (map category_line lines)))
              end
          end
      end
  end.
Proof.
  intros Hload Hne.
  destruct (load_expenses_nonempty _ _ _ Hload Hne) as [_ ->].
  unfold summarize_expenses, bind. rewrite Hload, (match_nonempty _ _ _ Hne), scope_of_run.
  destruct (month_scope month es) as [[[|first rest] title]|]; try reflexivity.
  rewrite lift_arith_run.
  destruct (py_sum (map e_amount (first :: rest))) as [total|s]; [|reflexivity].
  rewrite lift_arith_run.
  destruct (by_category (first :: rest) []) as [by_cat|s]; [|reflexivity].
  repeat rewrite print_run. repeat rewrite with_out_app. cbn [app].
  rewrite lift_arith_run.
  destruct (sort_by_subtotal by_cat) as [lines|s]; [|reflexivity].
  rewrite print_all_run, with_out_app. reflexivity.
Qed.

(** C10.  When loading finds no record, [summarize_expenses] prints
    that there is nothing to summarize and returns, whatever the month
    argument is: the month is not looked at. *)
Theorem summarize_empty_shortcut month w w1 :
  load_expenses w = Ok [] w1 ->
  summarize_expenses month w = Ok tt (with_out w1 [Line msg_nothing_to_summarize]).
Proof.
  intros Hload. unfold summarize_expenses, bind. rewrite Hload. apply print_run.
Qed.

Lemma summarize_empty_shortcut_witness :
  summarize_expenses (Some (lit "not a month")) (world_of [] [])
  = Ok tt (with_out (world_of [] []) [Line msg_nothing_to_summarize]).
Proof.
  apply (summarize_empty_shortcut (Some (lit "not a month")) (world_of [] []) (world_of [] [])).
  vm_compute. reflexivity.
Defined.

(** The shortcut also holds when the file did not exist: it is created
    with its header, and the month is still not looked at. *)
Lemma summarize_no_file month w :
  file w = None ->
  summarize_expenses month w
  = Ok tt (mkworld (Some header_text) (stdin w)
             (stdout w ++ [Line msg_nothing_to_summarize]) (today w)).
Proof.
  intros Hf. unfold summarize_expenses, bind.
  rewrite (load_expenses_absent w Hf), print_run. reflexivity.
Qed.

(** C7, as stated, fails: a text that is not of the form YYYY-MM can
    be summarized (the parts after the second are ignored), and on an
    empty store no month is checked at all. *)
Lemma month_validation_counterexample :
  well_formed_month (lit "2025-10-junk") = false
  /\ summarize_expenses (Some (lit "2025-10-junk")) (world_of [r_food] [])
     = Ok tt (with_out (world_of [r_food] [])
                [Line (lit "Summary for 2025-10"); Line (lit "Total: 10.10 USD");
                 Line (lit "By category:"); Line (lit " - food: 10.10")])
  /\ well_formed_month (lit "abc") = false
  /\ summarize_expenses (Some (lit "abc")) (world_of [] [])
     = Ok tt (with_out (world_of [] []) [Line msg_nothing_to_summarize]).
Proof. repeat split; vm_compute; reflexivity. Qed.

(** C7, amended.  With at least one record in the store, a month text
    that does not split at its dashes into two leading integer
    literals is answered by the format message alone: no summary, and
    the file, the pending input and the calendar are as before. *)
Theorem month_rejected w w1 es m :
  load_expenses w = Ok es w1 -> es <> [] -> m <> [] -> parse_month m = None ->
  summarize_expenses (Some m) w = Ok tt (with_out w [Line msg_invalid_month])
  /\ file (with_out w [Line msg_invalid_month]) = file w.
Proof.
  intros Hload Hne Hm Hp. split; [|reflexivity].
  rewrite (summarize_expenses_run (Some m) w es w1 Hload Hne).
  unfold month_scope. destruct m as [|c m]; [contradiction|]. now rewrite Hp.
Qed.

Lemma month_rejected_witness :
  summarize_expenses (Some (lit "October")) (world_of [r_food] [])
  = Ok tt (with_out (world_of [r_food] []) [Line msg_invalid_month])
  /\ file (with_out (world_of [r_food] []) [Line msg_invalid_month]) = file (world_of [r_food] []).
Proof.
  apply (month_rejected (world_of [r_food] []) (world_of [r_food] []) [r_food] (lit "October")).
  - vm_compute. reflexivity.
  - discriminate.
  - discriminate.
  - reflexivity.
Defined.

Lemma in_month_iff y mon e :
  in_month y mon e = true <->
  exists d, e_date e = Some d /\ year d = y /\ month d = mon.
Proof.
  unfold in_month. destruct (e_date e) as [d|].
  - rewrite andb_true_iff, !Z.eqb_eq. split.
    + intros [Hy Hm]. exists d. auto.
    + intros (d' & Hd & Hy & Hm). inversion Hd; subst. auto.
  - split; [discriminate | intros (d & Hd & _); discriminate].
Qed.

Lemma month_ok_all : forallb month_ok (Z_range 1 12) = true.
Proof. vm_compute. reflexivity. Qed.

Lemma split_on_plain sep s :
  forallb (fun c => negb (Ascii.eqb c sep)) s = true -> split_on sep s = [s].
Proof.
  induction s as [|c s IH]; cbn [forallb split_on]; [reflexivity|].
  intros H. apply andb_true_iff in H. destruct H as [Hc Hs].
  apply negb_true_iff in Hc. now rewrite Hc, (IH Hs).
Qed.

Lemma split_on_sep sep a b :
  forallb (fun c => negb (Ascii.eqb c sep)) a = true ->
  split_on sep (a ++ sep :: b) = a :: split_on sep b.
Proof.
  induction a as [|c a IH]; cbn [forallb app split_on].
  - intros _. now rewrite Ascii.eqb_refl.
  - intros H. apply andb_true_iff in H. destruct H as [Hc Ha].
    apply negb_true_iff in Hc. now rewrite Hc, (IH Ha).
Qed.

Lemma digits_no_dash s :
  forallb isdigit s = true -> forallb (fun c => negb (Ascii.eqb c "-")) s = true.
Proof.
  induction s as [|c s IH]; cbn [forallb]; [reflexivity|].
  intros H. apply andb_true_iff in H. destruct H as [Hc Hs].
  now rewrite (proj1 (isdigit_not_sign c Hc)), (IH Hs).
Qed.

(** A month written [YYYY-MM] is read as that year and that month. *)
Lemma parse_month_text y mon :
  (1 <= y <= 9999)%Z -> (1 <= mon <= 12)%Z -> parse_month (month_text y mon) = Some (y, mon).
Proof.
  intros Hy Hm.
  pose proof year_ok_all as HY. rewrite forallb_forall in HY.
  specialize (HY y (Z_range_In 1 9999 y Hy)). unfold year_ok in HY.
  pose proof month_ok_all as HM. rewrite forallb_forall in HM.
  specialize (HM mon (Z_range_In 1 12 mon Hm)). unfold month_ok in HM.
  apply andb_true_iff in HM. destruct HM as [Hmd HM].
  unfold parse_month, month_text.
  destruct (fmt_0d 4 y) as [|a [|b [|c [|d [|? ?]]]]]; try discriminate.
  apply andb_true_iff in HY. destruct HY as [Hyd HY].
  rewrite (split_on_sep "-" [a; b; c; d] (fmt_0d 2 mon) (digits_no_dash _ Hyd)).
  rewrite (split_on_plain "-" (fmt_0d 2 mon) (digits_no_dash _ Hmd)).
  destruct (py_int [a; b; c; d]) as [v|]; [|discriminate].
  apply Z.eqb_eq in HY. subst v.
  destruct (py_int (fmt_0d 2 mon)) as [v|]; [|discriminate].
  apply Z.eqb_eq in HM. now subst v.
Qed.

(** C3, as stated, fails: the total of a month is not always the exact
    sum of the amounts of that month.  Two records of October 2025 with
    the amounts 1E+30 and 1 are both included by the filter 2025-10,
    and the total shown is 1.000000000000000000000000000E+30. *)
Lemma month_filter_counterexample :
  filter (in_month 2025 10) [r_big; r_one] = [r_big; r_one]
  /\ summarize_expenses (Some (lit "2025-10")) (world_of [r_big; r_one] [])
     = Ok tt (with_out (world_of [r_big; r_one] [])
                [Line (lit "Summary for 2025-10");
                 Line (lit "Total: 1.000000000000000000000000000E+30 USD");
                 Line (lit "By category:");
                 Line (lit " - misc: 1.000000000000000000000000000E+30")])
  /\ Decimal_of_str (lit "1.000000000000000000000000000E+30")
     = Some (Fin false 1000000000000000000000000000 3)
  /\ ~ (dec_value (Fin false 1000000000000000000000000000 3)
        == sum_values (map e_amount [r_big; r_one]))%Q.
Proof.
  split; [reflexivity|]. split; [vm_compute; reflexivity|]. split; [vm_compute; reflexivity|].
  intros H. vm_compute in H. discriminate H.
Qed.

(** C3, amended.  With records in the store and a month text that reads
    as year [y] and month [mon], as every text [YYYY-MM] of a year from
    1 to 9999 and a month from 1 to 12 does: the records summarized are
    those of the store, in their order, whose date is present with that
    year and month; if there is none, the only output is the line saying
    that there are no expenses for that month; otherwise, when the
    amounts of these records stay within the decimal context, the total
    and the subtotals are computed without a signal, the total is the
    exact sum of the amounts of these records, and the title, the total
    with the currency of the first of them and the lines of the
    categories are printed.  Of records dated 2025-10-01, 2025-10-31 and
    2025-11-01 the month 2025-10 keeps the first two, whose amounts
    10.10 and 0.20 total 10.30, and the month 2025-12 keeps none. *)
Theorem month_filter_spec w w1 es m y mon :
  load_expenses w = Ok es w1 -> es <> [] -> parse_month m = Some (y, mon) ->
  let filtered := filter (in_month y mon) es in
  let title := lit "Summary for " ++ str_of_int y ++ lit "-" ++ fmt_0d 2 mon in
  (forall e, In e filtered <->
             In e es /\ exists d, e_date e = Some d /\ year d = y /\ month d = mon)
  /\ (exists others, Permutation es (filtered ++ others)
                     /\ Forall (fun e => in_month y mon e = false) others)
  /\ (filtered = [] ->
      summarize_expenses (Some m) w
      = Ok tt (with_out w [Line (lit "No expenses for " ++ title ++ lit ".")]))
  /\ (forall first rest e0,
        filtered = first :: rest ->
        within_context e0 (map e_amount filtered) ->
        exists total by_cat lines,
          py_sum (map e_amount filtered) = Val total
          /\ is_finite total = true
          /\ (dec_value total == sum_values (map e_amount filtered))%Q
          /\ by_category filtered [] = Val by_cat
          /\ (forall cat,
                match dict_get by_cat cat with
                | Some sub =>
                    In cat (map e_category filtered)
                    /\ is_finite sub = true
                    /\ (dec_value sub == sum_values (amounts_of cat filtered))%Q
                | None => ~ In cat (map e_category filtered)
                end)
          /\ sort_by_subtotal by_cat = Val lines
          /\ Permutation lines by_cat
          /\ summarize_expenses (Some m) w
             = Ok tt (with_out w
                        ([Line title;
                          Line (lit "Total: " ++ dec_str total ++ lit " " ++ e_currency first);
                          Line (lit "By category:")]
                         ++ map (fun kv => Line (lit " - " ++ fst kv ++ lit ": "
                                                 ++ dec_str (snd kv))) lines)))
  /\ (forall y' mon', (1 <= y' <= 9999)%Z -> (1 <= mon' <= 12)%Z ->
                      parse_month (month_text y' mon') = Some (y', mon'))
  /\ (month_text 2025 10 = lit "2025-10"
      /\ filter (in_month 2025 10) [r_food; r_rent; r_taxi] = [r_food; r_rent]
      /\ py_sum (map e_amount [r_food; r_rent]) = Val (Fin false 1030 (-2))
      /\ (dec_value (Fin false 1030 (-2)) == sum_values (map e_amount [r_food; r_rent]))%Q
      /\ filter (in_month 2025 12) [r_food; r_rent; r_taxi] = []).
Proof.
  intros Hload Hne Hp filtered title.
  pose proof (summarize_expenses_run (Some m) w es w1 Hload Hne) as Hrun.
  assert (Hscope : month_scope (Some m) es = Some (filtered, title)).
  { unfold month_scope. destruct m as [|c m]; [discriminate Hp|]. now rewrite Hp. }
  rewrite Hscope in Hrun.
  split; [|split; [|split; [|split; [|split; [|repeat split; vm_compute; reflexivity]]]]].
  - intros e. unfold filtered. rewrite filter_In, in_month_iff. tauto.
  - exists (filter (fun e => negb (in_month y mon e)) es). split.
    + unfold filtered. clear. induction es as [|e es IH]; [constructor|].
      cbn [filter]. destruct (in_month y mon e); cbn [negb app].
      * now constructor.
      * now apply Permutation_cons_app.
    + rewrite Forall_forall. intros e He. apply filter_In in He.
      destruct He as [_ He]. now apply negb_true_iff in He.
  - intros Hnil. rewrite Hrun, Hnil. reflexivity.
  - intros first rest e0 Hf Hctx.
    destruct (py_sum_exact e0 _ Hctx) as (s & c & e & Hsum & Hval).
    destruct (by_category_entries e0 _ Hctx) as (by_cat & Hcat & _ & Hinv & Hfin).
    pose proof (sort_by_subtotal_finite _ Hfin) as Hsort.
    eexists (Fin s c e), by_cat, _.
    split; [exact Hsum|]. split; [reflexivity|]. split; [exact Hval|].
    split; [exact Hcat|]. split; [|split; [exact Hsort|split; [apply sorted_desc_perm|]]].
    + intros cat. specialize (Hinv cat).
      destruct (dict_get by_cat cat) as [sub|]; cbn [subtotal_ok] in Hinv; [|exact Hinv].
      destruct Hinv as (Hin & s' & c' & e' & -> & He' & Hal & _).
      split; [exact Hin|]. split; [reflexivity|].
      destruct Hctx as (He0 & Hfin0 & _).
      rewrite (dec_value_aligned e0 s' c' e') by lia.
      rewrite (sum_values_aligned e0 (amounts_of cat filtered)), Hal
        by (now apply amounts_of_finite).
      reflexivity.
    + rewrite Hrun. rewrite Hf in *. rewrite Hsum, Hcat. cbv zeta. rewrite Hsort.
      rewrite map_map. reflexivity.
  - apply parse_month_text.
Qed.

Lemma month_filter_spec_witness :
  exists total by_cat lines,
    py_sum (map e_amount (filter (in_month 2025 10) [r_food; r_rent; r_taxi])) = Val total
    /\ is_finite total = true
    /\ (dec_value total
        == sum_values (map e_amount (filter (in_month 2025 10) [r_food; r_rent; r_taxi])))%Q
    /\ by_category (filter (in_month 2025 10) [r_food; r_rent; r_taxi]) [] = Val by_cat
    /\ (forall cat,
          match dict_get by_cat cat with
          | Some sub =>
              In cat (map e_category (filter (in_month 2025 10) [r_food; r_rent; r_taxi]))
              /\ is_finite sub = true
              /\ (dec_value sub
                  == sum_values (amounts_of cat (filter (in_month 2025 10)
                                                        [r_food; r_rent; r_taxi])))%Q
          | None =>
              ~ In cat (map e_category (filter (in_month 2025 10) [r_food; r_rent; r_taxi]))
          end)
    /\ sort_by_subtotal by_cat = Val lines
    /\ Permutation lines by_cat
    /\ summarize_expenses (Some (lit "2025-10")) (world_of [r_food; r_rent; r_taxi] [])
       = Ok tt (with_out (world_of [r_food; r_rent; r_taxi] [])
                  ([Line (lit "Summary for " ++ str_of_int 2025 ++ lit "-" ++ fmt_0d 2 10);
                    Line (lit "Total: " ++ dec_str total ++ lit " " ++ e_currency r_food);
                    Line (lit "By category:")]
                   ++ map (fun kv => Line (lit " - " ++ fst kv ++ lit ": "
                                           ++ dec_str (snd kv))) lines)).
Proof.
  apply (month_filter_spec (world_of [r_food; r_rent; r_taxi] [])
           (world_of [r_food; r_rent; r_taxi] []) [r_food; r_rent; r_taxi]
           (lit "2025-10") 2025 10 eq_refl ltac:(discriminate) eq_refl) with (rest := [r_rent]) (e0 := (-2)%Z).
  - reflexivity.
  - split; [vm_compute; split; discriminate|]. split.
    + repeat constructor; eexists _, _, _; (split; [reflexivity | lia]).
    + vm_compute. reflexivity.
Defined.

(** The scenario of the specification: records of 2025-10-01,
    2025-10-31 and 2025-11-01.  The filter 2025-10 keeps the first two
    and totals 10.10 + 0.20 = 10.30; the filter 2025-12 keeps none and
    the answer is the line that says so. *)
Example month_filter_example :
  filter (in_month 2025 10) [r_food; r_rent; r_taxi] = [r_food; r_rent]
  /\ py_sum (map e_amount [r_food; r_rent]) = Val (Fin false 1030 (-2))
  /\ summarize_expenses (Some (lit "2025-10")) (world_of [r_food; r_rent; r_taxi] [])
     = Ok tt (with_out (world_of [r_food; r_rent; r_taxi] [])
                [Line (lit "Summary for 2025-10"); Line (lit "Total: 10.30 USD");
                 Line (lit "By category:"); Line (lit " - food: 10.10");
                 Line (lit " - rent: 0.20")])
  /\ summarize_expenses (Some (lit "2025-12")) (world_of [r_food; r_rent; r_taxi] [])
     = Ok tt (with_out (world_of [r_food; r_rent; r_taxi] [])
                [Line (lit "No expenses for Summary for 2025-12.")]).
Proof. repeat split; vm_compute; reflexivity. Qed.

(** The first record that a filter keeps is the first of the list that
    passes it. *)
Lemma filter_head {A} (p : A -> bool) l x rest :
  filter p l = x :: rest ->
  exists l1 l2, l = l1 ++ x :: l2 /\ forallb (fun y => negb (p y)) l1 = true.
Proof.
  induction l as [|y l IH]; simpl; [discriminate|].
  destruct (p y) eqn:Hy.
  - intros H. inversion H; subst. exists [], l. auto.
  - intros H. destruct (IH H) as (l1 & l2 & -> & Hall).
    exists (y :: l1), l2. simpl. rewrite Hy. auto.
Qed.

(** C8, as stated, fails: the currency shown is not that of the most
    recent record.  Here the store holds a record of 1 October in USD
    and then one of 31 October in EUR; the total is shown in USD. *)
Lemma summary_currency_counterexample :
  summarize_expenses None (world_of [r_food; r_rent] [])
  = Ok tt (with_out (world_of [r_food; r_rent] [])
             [Line (lit "Summary (all time)"); Line (lit "Total: 10.30 USD");
              Line (lit "By category:"); Line (lit " - food: 10.10");
              Line (lit " - rent: 0.20")])
  /\ map e_currency (firstn 1 (sort_by_date [r_food; r_rent])) = [lit "EUR"].
Proof. split; vm_compute; reflexivity. Qed.

(** C8, amended.  When a summary is printed, the currency on its total
    line is that of the first record in scope in the order of the
    store: the first record of the file when no month is given, the
    first record of the file that falls in the month otherwise.  No
    sorting takes place and the currencies are not compared. *)
Theorem summary_currency w w1 es month first rest title total by_cat :
  load_expenses w = Ok es w1 -> es <> [] ->
  month_scope month es = Some (first :: rest, title) ->
  py_sum (map e_amount (first :: rest)) = Val total ->
  by_category (first :: rest) [] = Val by_cat ->
  let head := [Line title;
               Line (lit "Total: " ++ dec_str total ++ lit " " ++ e_currency first);
               Line (lit "By category:")] in
  summarize_expenses month w
  = match sort_by_subtotal by_cat with
    | Val lines => Ok tt (with_out w (head ++ map Line (map category_line lines)))
    | Trap s => Raise (DecimalException s) (with_out w head)
    end
  /\ exists l1 l2, es = l1 ++ first :: l2
                   /\ forall x, In x l1 -> ~ In x (first :: rest).
Proof.
  intros Hload Hne Hscope Hsum Hcat head. split.
  - rewrite (summarize_expenses_run month w es w1 Hload Hne), Hscope, Hsum, Hcat.
    cbv zeta. destruct (sort_by_subtotal by_cat); reflexivity.
  - unfold month_scope in Hscope.
    assert (Hall : es = first :: rest -> exists l1 l2, es = l1 ++ first :: l2
                     /\ forall x, In x l1 -> ~ In x (first :: rest)).
    { intros ->. exists [], rest. split; [reflexivity | intros x []]. }
    destruct month as [[|c m]|]; try (inversion Hscope; subst; now apply Hall).
    destruct (parse_month (c :: m)) as [[y mon]|]; [|discriminate].
    injection Hscope as Hf Ht.
    destruct (filter_head _ _ _ _ Hf) as (l1 & l2 & Hes & Hno).
    exists l1, l2. split; [exact Hes|].
    intros x Hx Hin. rewrite <- Hf in Hin. apply filter_In in Hin. destruct Hin as [_ Hp].
    rewrite forallb_forall in Hno. specialize (Hno x Hx). rewrite Hp in Hno. discriminate.
Qed.

Lemma summary_currency_witness :
  summarize_expenses None (world_of [r_food; r_rent] [])
  = match sort_by_subtotal [(lit "food", Fin false 1010 (-2)); (lit "rent", Fin false 20 (-2))] with
    | Val lines =>
        Ok tt (with_out (world_of [r_food; r_rent] [])
                 ([Line (lit "Summary (all time)");
                   Line (lit "Total: " ++ dec_str (Fin false 1030 (-2)) ++ lit " " ++ e_currency r_food);
                   Line (lit "By category:")] ++ map Line (map category_line lines)))
    | Trap s =>
        Raise (DecimalException s)
          (with_out (world_of [r_food; r_rent] [])
             [Line (lit "Summary (all time)");
              Line (lit "Total: " ++ dec_str (Fin false 1030 (-2)) ++ lit " " ++ e_currency r_food);
              Line (lit "By category:")])
    end
  /\ exists l1 l2, [r_food; r_rent] = l1 ++ r_food :: l2
                   /\ forall x, In x l1 -> ~ In x (r_food :: [r_rent]).
Proof.
  apply (summary_currency (world_of [r_food; r_rent] []) (world_of [r_food; r_rent] [])
           [r_food; r_rent] None r_food [r_rent] (lit "Summary (all time)")).
  - vm_compute. reflexivity.
  - discriminate.
  - reflexivity.
  - vm_compute. reflexivity.
  - vm_compute. reflexivity.
Defined.

(* ----------------------------------------------------------------- *)
(** ** [add_expense] *)

(** With a date and an amount that parse, [add_expense] asks its five
    questions and saves the records it loaded followed by a new one
    that carries [next_id].  When that id has more digits than [str]
    converts, the new row is not written and the command raises. *)
Lemma add_expense_run w es d c a cu ds rest dt amt :
  holds w es ->
  stdin w = d :: c :: a :: cu :: ds :: rest ->
  strptime_ymd (str_or (strip d) (isoformat (today w))) = Some dt ->
  Decimal_of_str (strip a) = Some amt ->
  let new_expense :=
    mkexpense (next_id es) (Some dt) (str_or (strip c) (lit "uncategorized")) amt
              (str_or (strip cu) (lit "USD")) (strip ds) in
  add_expense w
  = if int_ok (next_id es)
    then Ok tt (mkworld (Some (render_expenses (es ++ [new_expense]))) rest
                  (stdout w ++ add_prompts w ++ [Line (added_line new_expense)]) (today w))
    else Raise ValueError
           (mkworld (Some (render_expenses es)) rest (stdout w ++ add_prompts w) (today w)).
Proof.
  intros Hh Hin Hdate Hamt new_expense.
  pose proof (holds_ids_ok w es Hh) as Hok.
  destruct w as [f i o t]. cbn [stdin today stdout] in *. subst i.
  unfold add_expense, bind. rewrite (load_expenses_holds _ _ Hh).
  unfold get_today, input, emit. cbn [stdin file stdout today].
  rewrite Hdate. cbn [stdin file stdout today]. rewrite Hamt.
  cbn [stdin file stdout today]. unfold save_expenses. fold new_expense.
  rewrite (write_rows_last es new_expense header_text Hok).
  unfold add_prompts, prompt_date, prompt_category, prompt_amount, prompt_currency,
    prompt_description, added_line, render_expenses.
  subst new_expense. cbn [e_id today].
  destruct (int_ok (next_id es)) eqn:Hid.
  - unfold write_file, bind, ret, str_m, str_int, print, emit. rewrite Hid. unfold ret.
    cbn [stdin file stdout today e_id e_amount e_currency e_date e_category].
    repeat (rewrite <- (@app_assoc out); cbn [app]). reflexivity.
  - unfold write_file, bind, raise. cbn [stdin file stdout today].
    repeat (rewrite <- (@app_assoc out); cbn [app]). reflexivity.
Qed.

(** The records that [add_expense] stores are storable, and within the
    limits of the conversions when the store was and the new cells fit. *)
Lemma add_expense_storable w es c cu ds dt amt d a :
  holds w es ->
  strptime_ymd (str_or (strip d) (isoformat (today w))) = Some dt ->
  Decimal_of_str (strip a) = Some amt ->
  Forall storable
    (es ++ [mkexpense (next_id es) (Some dt) (str_or (strip c) (lit "uncategorized")) amt
                      (str_or (strip cu) (lit "USD")) (strip ds)]).
Proof.
  intros Hh Hdate Hamt. apply Forall_app. split; [exact (holds_storable w es Hh)|].
  constructor; [|constructor].
  unfold storable. cbn [e_date e_category e_currency e_description].
  destruct (str_or_strip c (lit "uncategorized") eq_refl ltac:(discriminate)) as [H1 H2].
  destruct (str_or_strip cu (lit "USD") eq_refl ltac:(discriminate)) as [H3 H4].
  repeat split; try assumption; [|apply strip_idem].
  intros d0 Hd0. inversion Hd0; subst. now apply strptime_valid in Hdate.
Qed.

Example add_expense_example :
  exists w',
    add_expense (world_of [r_food; r_taxi] [[]; lit " fun "; lit "7.5"; lit "eur"; lit " cinema "])
    = Ok tt w'
    /\ holds w' [r_food; r_taxi;
                 mkexpense 4 (Some (mkdate 2025 11 3)) (lit "fun") (Fin false 75 (-1))
                           (lit "eur") (lit "cinema")].
Proof.
  eexists. split; [vm_compute; reflexivity|].
  eexists. split; [reflexivity | vm_compute; reflexivity].
Qed.

(** C5.  [next_id] is [1] on the empty sequence; on a non-empty one it
    is one more than the greatest id, an id that some record carries and
    none exceeds; so it differs from the id of every record present.
    [add_expense] gives that id to the record it adds: it is the id of
    none of the records of the store, distinct ids stay distinct, and
    the file is written with the records of the store followed by the
    new one.  (When the new id has more digits than [str] converts,
    no record is added: the records of the store are written back and
    the command raises.) *)
Theorem next_id_spec :
  next_id [] = 1%Z
  /\ (forall e es,
        (exists x, In x (e :: es) /\ next_id (e :: es) = (e_id x + 1)%Z)
        /\ (forall x, In x (e :: es) -> (e_id x + 1 <= next_id (e :: es))%Z))
  /\ (forall es x, In x es -> e_id x <> next_id es)
  /\ (forall w es d c a cu ds rest dt amt,
        holds w es ->
        stdin w = d :: c :: a :: cu :: ds :: rest ->
        strptime_ymd (str_or (strip d) (isoformat (today w))) = Some dt ->
        Decimal_of_str (strip a) = Some amt ->
        let new_expense :=
          mkexpense (next_id es) (Some dt) (str_or (strip c) (lit "uncategorized")) amt
                    (str_or (strip cu) (lit "USD")) (strip ds) in
        (forall x, In x es -> e_id x <> e_id new_expense)
        /\ (NoDup (map e_id es) -> NoDup (map e_id (es ++ [new_expense])))
        /\ (int_ok (next_id es) = true ->
            exists w', add_expense w = Ok tt w'
                       /\ file w' = Some (render_expenses (es ++ [new_expense])))
        /\ (int_ok (next_id es) = false ->
            exists w', add_expense w = Raise ValueError w'
                       /\ file w' = Some (render_expenses es))).
Proof.
  split; [reflexivity|]. split; [|split].
  - intros e es. split; [apply next_id_attained|].
    intros x Hx. pose proof (next_id_above _ _ Hx). lia.
  - intros es x Hx. pose proof (next_id_above _ _ Hx). lia.
  - intros w es d c a cu ds rest dt amt Hh Hin Hdate Hamt.
    pose proof (add_expense_run w es d c a cu ds rest dt amt Hh Hin Hdate Hamt) as Hrun.
    cbv zeta in Hrun. cbv zeta. cbn [e_id]. split; [|split; [|split]].
    + intros x Hx. pose proof (next_id_above _ _ Hx). lia.
    + apply next_id_fresh.
    + intros Hid. rewrite Hid in Hrun. eexists. split; [exact Hrun | reflexivity].
    + intros Hid. rewrite Hid in Hrun. eexists. split; [exact Hrun | reflexivity].
Qed.

Lemma next_id_spec_witness :
  e_id r_food <> next_id [r_food; r_rent; r_taxi]
  /\ exists w',
       add_expense (world_of [r_food; r_taxi] [[]; lit "fun"; lit "7.5"; []; []]) = Ok tt w'
       /\ file w'
          = Some (render_expenses
                    ([r_food; r_taxi]
                     ++ [mkexpense (next_id [r_food; r_taxi]) (Some (mkdate 2025 11 3))
                                   (str_or (strip (lit "fun")) (lit "uncategorized"))
                                   (Fin false 75 (-1))
                                   (str_or (strip []) (lit "USD")) (strip [])])).
Proof.
  destruct next_id_spec as (_ & _ & Hneq & Hadd). split.
  - apply (Hneq [r_food; r_rent; r_taxi] r_food). simpl. auto.
  - apply (Hadd (world_of [r_food; r_taxi] [[]; lit "fun"; lit "7.5"; []; []])
             [r_food; r_taxi] [] (lit "fun") (lit "7.5") [] [] []
             (mkdate 2025 11 3) (Fin false 75 (-1))).
    + exists (render_expenses [r_food; r_taxi]). split; [reflexivity | vm_compute; reflexivity].
    + reflexivity.
    + vm_compute. reflexivity.
    + vm_compute. reflexivity.
    + reflexivity.
Defined.

(* ================================================================= *)
(** * Further properties of the program *)
(* ================================================================= *)

(* ----------------------------------------------------------------- *)
(** ** What commands leave alone *)

Lemma final_bind {A B} (m : M A) (k : A -> M B) w :
  final (bind m k w) = match m w with
                       | Ok a w1 => final (k a w1)
                       | Raise _ w1 => w1
                       end.
Proof. unfold bind. destruct (m w); reflexivity. Qed.

Section Preserves.
Variable R : World -> World -> Prop.
Hypothesis R_refl : forall w, R w w.
Hypothesis R_trans : forall a b c, R a b -> R b c -> R a c.

Lemma preserves_ret {A} (a : A) : preserves R (ret a).
Proof. intros w. apply R_refl. Qed.

Lemma preserves_raise {A} e : preserves R (@raise A e).
Proof. intros w. apply R_refl. Qed.

Lemma preserves_bind {A B} (m : M A) (k : A -> M B) :
  preserves R m -> (forall a, preserves R (k a)) -> preserves R (bind m k).
Proof.
  intros Hm Hk w. rewrite final_bind. specialize (Hm w).
  destruct (m w) as [a w1|e w1]; cbn [final] in Hm; [|exact Hm].
  apply R_trans with w1; [exact Hm | apply Hk].
Qed.

Lemma preserves_lift_arith {A} (a : arith A) : preserves R (lift_arith a).
Proof. destruct a; [apply preserves_ret | apply preserves_raise]. Qed.

Lemma preserves_str_m z : preserves R (str_m z).
Proof. unfold str_m. destruct (str_int z); [apply preserves_ret | apply preserves_raise]. Qed.

Lemma preserves_fmt_m n z : preserves R (fmt_m n z).
Proof. unfold fmt_m. destruct (int_ok z); [apply preserves_ret | apply preserves_raise]. Qed.

Lemma preserves_scope_of month es : preserves R (scope_of month es).
Proof.
  unfold scope_of. destruct month as [[|c m]|]; try apply preserves_ret.
  destruct (parse_month (c :: m)) as [[y mon]|]; [|apply preserves_ret].
  apply preserves_bind; [apply preserves_str_m|]. intros ys.
  apply preserves_bind; [apply preserves_fmt_m|]. intros ms. apply preserves_ret.
Qed.
End Preserves.

Lemma keeps_file_refl w : keeps_file w w.
Proof. intros t H. exact H. Qed.

Lemma keeps_file_trans a b c : keeps_file a b -> keeps_file b c -> keeps_file a c.
Proof. intros H1 H2 t H. apply H2, H1, H. Qed.

Lemma reads_on_refl w : reads_on w w.
Proof. now exists []. Qed.

Lemma reads_on_trans a b c : reads_on a b -> reads_on b c -> reads_on a c.
Proof.
  intros (u1 & H1) (u2 & H2). exists (u1 ++ u2). rewrite H1, H2. apply app_assoc.
Qed.

Section Commands.
Variable R : World -> World -> Prop.
Hypothesis R_refl : forall w, R w w.
Hypothesis R_trans : forall a b c, R a b -> R b c -> R a c.
Hypothesis R_print : forall s, preserves R (print s).
Hypothesis R_input : forall p, preserves R (input p).
Hypothesis R_load : preserves R load_expenses.
Hypothesis R_save : forall es, preserves R (save_expenses es).

Lemma preserves_print_all ls : preserves R (print_all ls).
Proof.
  induction ls as [|l ls IH]; cbn [print_all].
  - now apply preserves_ret.
  - apply preserves_bind; auto.
Qed.

Lemma preserves_print_rows es : preserves R (print_rows es).
Proof.
  induction es as [|e es IH]; cbn [print_rows].
  - now apply preserves_ret.
  - apply preserves_bind; [assumption | | auto].
    destruct (int_ok (e_id e)); [apply R_print | now apply preserves_raise].
Qed.

Lemma preserves_list_expenses es limit : preserves R (list_expenses es limit).
Proof.
  unfold list_expenses. apply preserves_bind; [assumption | |].
  - destruct es; [now apply preserves_ret | exact R_load].
  - intros [|e l]; [apply R_print|].
    apply preserves_bind; [assumption | apply R_print |].
    intros _. apply preserves_print_rows.
Qed.

Lemma preserves_summarize_expenses month : preserves R (summarize_expenses month).
Proof.
  unfold summarize_expenses. apply preserves_bind; [assumption | exact R_load |].
  intros [|e l]; [apply R_print|].
  apply preserves_bind; [assumption | now apply preserves_scope_of |].
  intros [[[|first rest] title]|]; try apply R_print.
  repeat first
    [ apply preserves_bind; [assumption | | intros ?]
    | now apply preserves_lift_arith
    | apply R_print
    | apply preserves_print_all ].
Qed.

Lemma preserves_add_expense : preserves R add_expense.
Proof.
  unfold add_expense. apply preserves_bind; [assumption | exact R_load |]. intros es.
  apply preserves_bind; [assumption | intros w; apply R_refl |]. intros t; cbv zeta.
  apply preserves_bind; [assumption | apply R_input |]. intros d.
  destruct (strptime_ymd _); [|apply R_print].
  apply preserves_bind; [assumption | apply R_input |]. intros c.
  apply preserves_bind; [assumption | apply R_input |]. intros a.
  destruct (Decimal_of_str _); [|apply R_print].
  apply preserves_bind; [assumption | apply R_input |]. intros cu.
  apply preserves_bind; [assumption | apply R_input |]. intros ds.
  apply preserves_bind; [assumption | apply R_save |]. intros _.
  apply preserves_bind; [assumption | now apply preserves_str_m |]. intros id_text.
  apply R_print.
Qed.

Lemma preserves_delete_expense : preserves R delete_expense.
Proof.
  unfold delete_expense. apply preserves_bind; [assumption | exact R_load |].
  intros [|e l]; [apply R_print|].
  apply preserves_bind; [assumption | apply preserves_list_expenses |]. intros _.
  apply preserves_bind; [assumption | apply R_input |]. intros typed.
  destruct (py_int _); [|apply R_print]. cbv zeta.
  destruct (_ =? _)%nat; [apply R_print|].
  apply preserves_bind; [assumption | apply R_save |]. intros _.
  apply preserves_bind; [assumption | now apply preserves_str_m |]. intros id_text.
  apply R_print.
Qed.

Lemma preserves_dispatch dash choice : preserves R (dispatch dash choice).
Proof.
  unfold dispatch. destruct choice as [|c t]; [now apply preserves_ret|].
  repeat match goal with
         | |- preserves R (if ?b then _ else _) => destruct b
         end;
    repeat first
      [ now apply preserves_ret
      | apply R_print | apply R_input
      | apply preserves_add_expense | apply preserves_delete_expense
      | apply preserves_list_expenses | apply preserves_summarize_expenses
      | apply preserves_bind; [assumption | | intros ?] ].
Qed.
End Commands.

Lemma print_keeps_file s : preserves keeps_file (print s).
Proof. intros w t H. exact H. Qed.

Lemma print_reads_on s : preserves reads_on (print s).
Proof. intros w. now exists []. Qed.

Lemma input_keeps_file p : preserves keeps_file (input p).
Proof. intros w t H. unfold input, emit. cbn [stdin]. destruct (stdin w); exact H. Qed.

Lemma input_reads_on p : preserves reads_on (input p).
Proof.
  intros w. unfold input, emit. cbn [stdin]. destruct (stdin w) as [|l ls] eqn:E; cbn [final stdin].
  - exists []. now rewrite E.
  - exists [l]. now rewrite E.
Qed.

(** [load_expenses] ends in the world in which it started, the file
    having been created when it was not there. *)
Lemma load_expenses_final w : final (load_expenses w) = with_file w.
Proof.
  unfold with_file. destruct (file w) as [text|] eqn:Hf.
  - rewrite (load_expenses_run _ _ Hf). destruct w as [f i o t]. cbn in Hf. subst f.
    destruct (parse_expenses text); reflexivity.
  - rewrite (load_expenses_absent _ Hf). reflexivity.
Qed.

Lemma load_keeps_file : preserves keeps_file load_expenses.
Proof.
  intros w t H. rewrite load_expenses_final. unfold with_file. cbn [file]. now rewrite H.
Qed.

Lemma load_reads_on : preserves reads_on load_expenses.
Proof. intros w. rewrite load_expenses_final. now exists []. Qed.

Lemma save_reads_on es : preserves reads_on (save_expenses es).
Proof.
  intros w. unfold save_expenses. destruct (write_rows es header_text) as [text []];
    now exists [].
Qed.

(* ----------------------------------------------------------------- *)
(** ** The file and its loading *)

Lemma with_file_present w text : file w = Some text -> with_file w = w.
Proof. intros H. destruct w as [f i o t]. cbn in H. subst f. reflexivity. Qed.

(** X1.  [ensure_file] creates the file with its header row when there is
    none, leaves an existing file as it is, whatever it holds, and
    done a second time changes nothing.  The file it creates holds no
    record. *)
Theorem ensure_file_idempotent w :
  ensure_file w = Ok tt (with_file w)
  /\ ensure_file (with_file w) = Ok tt (with_file w)
  /\ (forall text, file w = Some text -> with_file w = w)
  /\ (file w = None ->
      file (with_file w)
      = Some (lit "id,date,category,amount,currency,description" ++ [CR; LF])
      /\ holds (with_file w) []).
Proof.
  split; [|split; [|split]].
  - rewrite ensure_file_run. unfold with_file. destruct w as [[t|] i o d]; reflexivity.
  - rewrite ensure_file_run. reflexivity.
  - apply with_file_present.
  - intros H. unfold with_file. rewrite H. cbn [file]. split; [reflexivity|].
    exists header_text. split; [reflexivity | exact parse_header_text].
Qed.

(** X2.  [load_expenses] writes nothing but the header of a missing file,
    reads no input and prints nothing; repeated, it gives the same
    records and changes nothing more. *)
Theorem load_expenses_repeatable w :
  final (load_expenses w) = with_file w
  /\ load_expenses (with_file w) = load_expenses w
  /\ (forall es w1, load_expenses w = Ok es w1 -> w1 = with_file w /\ holds w1 es).
Proof.
  split; [apply load_expenses_final|]. split.
  - destruct (file w) as [text|] eqn:Hf.
    + now rewrite (with_file_present _ _ Hf).
    + rewrite (load_expenses_absent _ Hf). unfold with_file. rewrite Hf.
      now rewrite (load_expenses_run
                     (mkworld (Some header_text) (stdin w) (stdout w) (today w))
                     header_text eq_refl), parse_header_text.
  - intros es w1 H. pose proof (load_expenses_final w) as Hfin. rewrite H in Hfin.
    cbn [final] in Hfin. split; [exact Hfin|].
    destruct (load_expenses_inv _ _ _ H) as [[Hh ->]|[Hf ->]]; [exact Hh|].
    rewrite Hfin. unfold with_file. rewrite Hf.
    exists header_text. split; [reflexivity | exact parse_header_text].
Qed.

(** X3.  What was loaded from a file, whatever the file held, is in the
    form that [save_expenses] and [load_expenses] keep: stripped text
    fields, a category and a currency that are not empty, dates of the
    calendar, ids that convert to text and amounts within the widest
    decimal context.  When the cells written for these records are no
    longer than the csv reader accepts, saved and loaded again they are
    the same sequence of records. *)
Theorem load_save_load text es :
  parse_expenses text = inr es ->
  Forall storable es
  /\ Forall (fun e => int_ok (e_id e) = true /\ in_maxcontext (e_amount e) = true) es
  /\ (Forall (fun e => Forall fits (expense_row e)) es ->
      parse_expenses (render_expenses es) = inr es
      /\ forall w, exists w',
           save_expenses es w = Ok tt w' /\ file w' = Some (render_expenses es)
           /\ load_expenses w' = Ok es w').
Proof.
  intros H. pose proof (parse_expenses_storable _ _ H) as Hs.
  assert (Hok : Forall (fun e => int_ok (e_id e) = true /\ in_maxcontext (e_amount e) = true) es).
  { destruct (parse_expenses_inv _ _ H) as (rows & _ & ->). apply kept_rows_ok. }
  split; [exact Hs|]. split; [exact Hok|]. intros Hfits.
  assert (Hf : Forall fits_store es).
  { rewrite Forall_forall in *. intros e He. destruct (Hok e He) as [H1 H2].
    repeat split; auto. }
  split; [now apply parse_render|].
  intros w. rewrite (save_expenses_run es w (fits_store_ids _ Hf)).
  eexists. split; [reflexivity|]. split; [reflexivity|].
  apply load_expenses_holds. now apply save_expenses_holds.
Qed.

Lemma load_save_load_witness :
  parse_expenses (render_expenses
       [mkexpense 7 None (lit "uncategorized") dec_zero (lit "USD") [];
        mkexpense 8 (Some (mkdate 2025 1 2)) (lit "food") (Fin false 2 0) (lit "USD") (lit "b")])
  = inr [mkexpense 7 None (lit "uncategorized") dec_zero (lit "USD") [];
         mkexpense 8 (Some (mkdate 2025 1 2)) (lit "food") (Fin false 2 0)
                   (lit "USD") (lit "b")]
  /\ forall w, exists w',
       save_expenses
         [mkexpense 7 None (lit "uncategorized") dec_zero (lit "USD") [];
          mkexpense 8 (Some (mkdate 2025 1 2)) (lit "food") (Fin false 2 0) (lit "USD") (lit "b")]
         w = Ok tt w'
       /\ file w'
          = Some (render_expenses
                    [mkexpense 7 None (lit "uncategorized") dec_zero (lit "USD") [];
                     mkexpense 8 (Some (mkdate 2025 1 2)) (lit "food") (Fin false 2 0)
                               (lit "USD") (lit "b")])
       /\ load_expenses w'
          = Ok [mkexpense 7 None (lit "uncategorized") dec_zero (lit "USD") [];
                mkexpense 8 (Some (mkdate 2025 1 2)) (lit "food") (Fin false 2 0)
                          (lit "USD") (lit "b")] w'.
Proof.
  apply (load_save_load full_row_file); [vm_compute; reflexivity|].
  repeat (apply Forall_cons;
          [repeat (apply Forall_cons; [unfold fits; vm_compute; discriminate|]);
           apply Forall_nil|]).
  apply Forall_nil.
Defined.

(** X4.  A file that the csv reader reads to its end (no field beyond
    the limit of 131072 characters) and in which no record is shorter
    than the header loads: the rows whose id cell is missing, empty or
    not read by [int] are left out, and each other row gives one
    record, in the order of the file; nothing is written. *)
Theorem load_complete_rows w text fieldnames data :
  file w = Some text ->
  reader_rows text = (fieldnames :: data, true) ->
  Forall (fun r => r = [] \/ (length fieldnames <= length r)%nat) data ->
  load_expenses w = Ok (kept_rows (DictReader (fieldnames :: data))) w
  /\ (length (kept_rows (DictReader (fieldnames :: data))) <= length data)%nat.
Proof.
  intros Hf Hr Hd. split.
  - rewrite (load_expenses_run _ _ Hf), (parse_expenses_tolerant _ _ _ Hr Hd). reflexivity.
  - cbn [DictReader].
    apply Nat.le_trans with (length (filter (fun r => negb (row_is_blank r)) data));
      [|apply filter_length_le].
    rewrite <- (length_map (make_row fieldnames)).
    generalize (map (make_row fieldnames) (filter (fun r => negb (row_is_blank r)) data)).
    intros rows. induction rows as [|r rows IH]; [cbn; lia|].
    cbn [kept_rows flat_map]. fold (kept_rows rows).
    destruct (row_id r); cbn [app length]; lia.
Qed.

Lemma load_complete_rows_witness :
  load_expenses (mkworld (Some full_row_file) [] [] (mkdate 2025 11 3))
  = Ok (kept_rows (DictReader
           [FIELDNAMES;
            [lit "x"; lit "2025-01-01"; lit "food"; lit "1.00"; lit "USD"; lit "a"];
            [lit "7"; []; []; []; []; []];
            [lit "8"; lit "2025-01-02"; lit "food"; lit "2"; lit "USD"; lit "b"]]))
       (mkworld (Some full_row_file) [] [] (mkdate 2025 11 3))
  /\ (length (kept_rows (DictReader
           [FIELDNAMES;
            [lit "x"; lit "2025-01-01"; lit "food"; lit "1.00"; lit "USD"; lit "a"];
            [lit "7"; []; []; []; []; []];
            [lit "8"; lit "2025-01-02"; lit "food"; lit "2"; lit "USD"; lit "b"]]))
      <= 3)%nat.
Proof.
  apply (load_complete_rows (mkworld (Some full_row_file) [] [] (mkdate 2025 11 3))
           full_row_file FIELDNAMES
           [[lit "x"; lit "2025-01-01"; lit "food"; lit "1.00"; lit "USD"; lit "a"];
            [lit "7"; []; []; []; []; []];
            [lit "8"; lit "2025-01-02"; lit "food"; lit "2"; lit "USD"; lit "b"]]).
  - reflexivity.
  - vm_compute. reflexivity.
  - repeat constructor; right; cbn; lia.
Defined.





(* ----------------------------------------------------------------- *)
(** ** [save_expenses]: the cells of the file *)

(** X6.  Whatever the texts of the records hold (commas, quotes, line
    ends), when the ids convert to text and no cell is longer than the
    csv reader accepts, the file that [save_expenses] writes is read by
    the csv reader as the header followed by one record of six cells
    per expense, the cells being the texts that were written; the
    console is left alone. *)
Theorem saved_cells_read_back es w :
  Forall (fun e => int_ok (e_id e) = true) es ->
  Forall (fun e => Forall fits (expense_row e)) es ->
  exists w',
    save_expenses es w = Ok tt w'
    /\ file w' = Some (render_expenses es)
    /\ reader_rows (render_expenses es) = (FIELDNAMES :: map expense_row es, true)
    /\ DictReader (FIELDNAMES :: map expense_row es)
       = map (fun e => make_row FIELDNAMES (expense_row e)) es
    /\ stdin w' = stdin w /\ stdout w' = stdout w /\ today w' = today w.
Proof.
  intros Hok Hfits. rewrite (save_expenses_run es w Hok).
  eexists. split; [reflexivity|]. cbn [file stdin stdout today].
  split; [reflexivity|]. split; [|split; [|auto]].
  - rewrite render_expenses_rows. apply reader_rows_writerows.
    constructor; [apply fits_fieldnames|]. rewrite Forall_forall in *.
    intros r Hr. apply in_map_iff in Hr. destruct Hr as (e & <- & He). now apply Hfits.
  - cbn [DictReader]. clear. induction es as [|e es IH]; [reflexivity|].
    cbn [map filter expense_row row_is_blank negb]. now rewrite IH.
Qed.

Lemma saved_cells_read_back_witness :
  exists w',
    save_expenses [r_quoted; r_food] (world_of [] []) = Ok tt w'
    /\ file w' = Some (render_expenses [r_quoted; r_food])
    /\ reader_rows (render_expenses [r_quoted; r_food])
       = (FIELDNAMES :: map expense_row [r_quoted; r_food], true)
    /\ DictReader (FIELDNAMES :: map expense_row [r_quoted; r_food])
       = map (fun e => make_row FIELDNAMES (expense_row e)) [r_quoted; r_food]
    /\ stdin w' = stdin (world_of [] []) /\ stdout w' = stdout (world_of [] [])
    /\ today w' = today (world_of [] []).
Proof.
  apply (saved_cells_read_back [r_quoted; r_food] (world_of [] [])).
  - repeat constructor.
  - repeat (apply Forall_cons;
            [repeat (apply Forall_cons; [unfold fits; vm_compute; discriminate|]);
             apply Forall_nil|]).
    apply Forall_nil.
Defined.

(* ----------------------------------------------------------------- *)
(** ** [add_expense]: what is refused and what is filled in *)

(** A command that starts by loading does the same whether the file
    was missing or held the header alone. *)
Lemma load_then_with_file {A} (k : list expense -> M A) w :
  bind load_expenses k w = bind load_expenses k (with_file w).
Proof.
  unfold bind. destruct (file w) as [text|] eqn:Hf.
  - now rewrite (with_file_present _ _ Hf).
  - rewrite (load_expenses_absent _ Hf). unfold with_file. rewrite Hf.
    now rewrite (load_expenses_run
                   (mkworld (Some header_text) (stdin w) (stdout w) (today w))
                   header_text eq_refl), parse_header_text.
Qed.

(** X7.  A date that does not parse: the message, and no other question;
    the file is not written. *)
Theorem add_expense_bad_date w es d rest :
  holds w es -> stdin w = d :: rest ->
  strptime_ymd (str_or (strip d) (isoformat (today w))) = None ->
  add_expense w
  = Ok tt (mkworld (file w) rest
             (stdout w ++ [prompt_date w;
                           Line (lit "Invalid date format. Use YYYY-MM-DD. Expense not added.")])
             (today w)).
Proof.
  intros Hh Hin Hdate. destruct w as [f i o t]. cbn [stdin today file stdout] in *. subst i.
  unfold add_expense, bind. rewrite (load_expenses_holds _ _ Hh).
  unfold get_today, input, emit. cbn [stdin file stdout today].
  rewrite Hdate. unfold print, emit. cbn [stdin file stdout today].
  unfold prompt_date. cbn [today]. now rewrite <- app_assoc.
Qed.

Lemma add_expense_bad_date_witness :
  add_expense (world_of [r_food] [lit "2025-02-30"; lit "left unread"])
  = Ok tt (mkworld (file (world_of [r_food] [lit "2025-02-30"; lit "left unread"]))
             [lit "left unread"]
             (stdout (world_of [r_food] [lit "2025-02-30"; lit "left unread"])
              ++ [prompt_date (world_of [r_food] [lit "2025-02-30"; lit "left unread"]);
                  Line (lit "Invalid date format. Use YYYY-MM-DD. Expense not added.")])
             (today (world_of [r_food] [lit "2025-02-30"; lit "left unread"]))).
Proof.
  apply (add_expense_bad_date (world_of [r_food] [lit "2025-02-30"; lit "left unread"])
           [r_food] (lit "2025-02-30") [lit "left unread"]).
  - exists (render_expenses [r_food]). split; [reflexivity | vm_compute; reflexivity].
  - reflexivity.
  - vm_compute. reflexivity.
Defined.

(** X8.  An amount that [Decimal] does not read, a blank one for instance:
    the message after the third question, no further question, and the
    file is not written. *)
Theorem add_expense_bad_amount w es d c a rest dt :
  holds w es -> stdin w = d :: c :: a :: rest ->
  strptime_ymd (str_or (strip d) (isoformat (today w))) = Some dt ->
  Decimal_of_str (strip a) = None ->
  add_expense w
  = Ok tt (mkworld (file w) rest
             (stdout w ++ [prompt_date w; prompt_category; prompt_amount;
                           Line (lit "Invalid amount. Use numbers like 12.50. Expense not added.")])
             (today w))
  /\ Decimal_of_str (strip []) = None.
Proof.
  intros Hh Hin Hdate Hamt. split; [|reflexivity].
  destruct w as [f i o t]. cbn [stdin today file stdout] in *. subst i.
  unfold add_expense, bind. rewrite (load_expenses_holds _ _ Hh).
  unfold get_today, input, emit. cbn [stdin file stdout today].
  rewrite Hdate. cbn [stdin file stdout today]. rewrite Hamt.
  unfold print, emit. cbn [stdin file stdout today].
  unfold prompt_date, prompt_category, prompt_amount. cbn [today].
  repeat rewrite <- app_assoc. reflexivity.
Qed.

Lemma add_expense_bad_amount_witness :
  add_expense (world_of [r_food] [[]; lit "fun"; lit "  "; lit "left unread"])
  = Ok tt (mkworld (file (world_of [r_food] [[]; lit "fun"; lit "  "; lit "left unread"]))
             [lit "left unread"]
             (stdout (world_of [r_food] [[]; lit "fun"; lit "  "; lit "left unread"])
              ++ [prompt_date (world_of [r_food] [[]; lit "fun"; lit "  "; lit "left unread"]);
                  prompt_category; prompt_amount;
                  Line (lit "Invalid amount. Use numbers like 12.50. Expense not added.")])
             (today (world_of [r_food] [[]; lit "fun"; lit "  "; lit "left unread"])))
  /\ Decimal_of_str (strip []) = None.
Proof.
  apply (add_expense_bad_amount (world_of [r_food] [[]; lit "fun"; lit "  "; lit "left unread"])
           [r_food] [] (lit "fun") (lit "  ") [lit "left unread"] (mkdate 2025 11 3)).
  - exists (render_expenses [r_food]). split; [reflexivity | vm_compute; reflexivity].
  - reflexivity.
  - vm_compute. reflexivity.
  - vm_compute. reflexivity.
Defined.

(** X9.  Blank answers: the date is today, the category "uncategorized",
    the currency "USD"; the record is written after those that were
    there, under [next_id], and the addition is confirmed. *)
Theorem add_expense_defaults w es d c a cu ds rest amt :
  holds w es -> valid_date (today w) = true ->
  stdin w = d :: c :: a :: cu :: ds :: rest ->
  strip d = [] -> strip c = [] -> strip cu = [] ->
  Decimal_of_str (strip a) = Some amt ->
  int_ok (next_id es) = true ->
  let new_expense :=
    mkexpense (next_id es) (Some (today w)) (lit "uncategorized") amt (lit "USD") (strip ds) in
  add_expense w
  = Ok tt (mkworld (Some (render_expenses (es ++ [new_expense]))) rest
             (stdout w ++ add_prompts w ++ [Line (added_line new_expense)]) (today w)).
Proof.
  intros Hh Hv Hin Hd Hc Hcu Hamt Hid new_expense.
  destruct (strptime_isoformat _ Hv) as (Hp & _ & _).
  assert (Hdate : strptime_ymd (str_or (strip d) (isoformat (today w))) = Some (today w)).
  { rewrite Hd. exact Hp. }
  pose proof (add_expense_run w es d c a cu ds rest (today w) amt Hh Hin Hdate Hamt) as Hrun.
  cbv zeta in Hrun. rewrite Hid, Hc, Hcu in Hrun. exact Hrun.
Qed.

Lemma add_expense_defaults_witness :
  add_expense (world_of [r_food; r_taxi] [lit " "; []; lit "7.5"; []; lit "bus"])
  = Ok tt (mkworld
             (Some (render_expenses
                      ([r_food; r_taxi]
                       ++ [mkexpense (next_id [r_food; r_taxi])
                             (Some (today (world_of [r_food; r_taxi]
                                             [lit " "; []; lit "7.5"; []; lit "bus"])))
                             (lit "uncategorized") (Fin false 75 (-1)) (lit "USD")
                             (strip (lit "bus"))])))
             []
             (stdout (world_of [r_food; r_taxi] [lit " "; []; lit "7.5"; []; lit "bus"])
              ++ add_prompts (world_of [r_food; r_taxi] [lit " "; []; lit "7.5"; []; lit "bus"])
              ++ [Line (added_line
                          (mkexpense (next_id [r_food; r_taxi])
                             (Some (today (world_of [r_food; r_taxi]
                                             [lit " "; []; lit "7.5"; []; lit "bus"])))
                             (lit "uncategorized") (Fin false 75 (-1)) (lit "USD")
                             (strip (lit "bus"))))])
             (today (world_of [r_food; r_taxi] [lit " "; []; lit "7.5"; []; lit "bus"]))).
Proof.
  apply (add_expense_defaults (world_of [r_food; r_taxi] [lit " "; []; lit "7.5"; []; lit "bus"])
           [r_food; r_taxi] (lit " ") [] (lit "7.5") [] (lit "bus") [] (Fin false 75 (-1))).
  - exists (render_expenses [r_food; r_taxi]). split; [reflexivity | vm_compute; reflexivity].
  - reflexivity.
  - reflexivity.
  - reflexivity.
  - reflexivity.
  - reflexivity.
  - vm_compute. reflexivity.
  - reflexivity.
Defined.

(** X10.  Without a file, [add_expense] creates it and the record it
    writes is the only one, with the id 1; when its cells are no longer
    than the csv reader accepts, the store then holds that record. *)
Theorem add_expense_first w d c a cu ds rest dt amt :
  file w = None ->
  stdin w = d :: c :: a :: cu :: ds :: rest ->
  strptime_ymd (str_or (strip d) (isoformat (today w))) = Some dt ->
  Decimal_of_str (strip a) = Some amt ->
  let new_expense :=
    mkexpense 1 (Some dt) (str_or (strip c) (lit "uncategorized")) amt
              (str_or (strip cu) (lit "USD")) (strip ds) in
  exists w',
    add_expense w = Ok tt w'
    /\ stdin w' = rest
    /\ file w' = Some (render_expenses [new_expense])
    /\ (Forall fits (expense_row new_expense) -> holds w' [new_expense]).
Proof.
  intros Hf Hin Hdate Hamt new_expense.
  assert (Hh : holds (with_file w) []).
  { exists header_text. unfold with_file. rewrite Hf. split; [reflexivity | exact parse_header_text]. }
  pose proof (add_expense_run (with_file w) [] d c a cu ds rest dt amt Hh Hin Hdate Hamt) as Hrun.
  cbv zeta in Hrun. change (int_ok (next_id [])) with true in Hrun. cbv iota in Hrun.
  eexists. split; [|split; [|split]].
  - unfold add_expense. rewrite load_then_with_file. exact Hrun.
  - reflexivity.
  - reflexivity.
  - intros Hfits. eexists. split; [reflexivity|].
    apply (parse_render [new_expense]).
    + apply (add_expense_storable (with_file w) [] c cu ds dt amt d a Hh Hdate Hamt).
    + constructor; [|constructor]. split; [reflexivity|]. split; [|exact Hfits].
      now apply Decimal_of_str_in_maxcontext in Hamt.
Qed.

Lemma add_expense_first_witness :
  exists w',
    add_expense (mkworld None [lit "2025-11-02"; lit "food"; lit "3"; lit "EUR"; []] []
                         (mkdate 2025 11 3)) = Ok tt w'
    /\ stdin w' = []
    /\ file w'
       = Some (render_expenses
                 [mkexpense 1 (Some (mkdate 2025 11 2))
                    (str_or (strip (lit "food")) (lit "uncategorized")) (Fin false 3 0)
                    (str_or (strip (lit "EUR")) (lit "USD")) (strip [])])
    /\ (Forall fits (expense_row
                       (mkexpense 1 (Some (mkdate 2025 11 2))
                          (str_or (strip (lit "food")) (lit "uncategorized")) (Fin false 3 0)
                          (str_or (strip (lit "EUR")) (lit "USD")) (strip [])))
        -> holds w' [mkexpense 1 (Some (mkdate 2025 11 2))
                       (str_or (strip (lit "food")) (lit "uncategorized")) (Fin false 3 0)
                       (str_or (strip (lit "EUR")) (lit "USD")) (strip [])]).
Proof.
  apply (add_expense_first
           (mkworld None [lit "2025-11-02"; lit "food"; lit "3"; lit "EUR"; []] []
                    (mkdate 2025 11 3))
           (lit "2025-11-02") (lit "food") (lit "3") (lit "EUR") [] []
           (mkdate 2025 11 2) (Fin false 3 0)).
  - reflexivity.
  - reflexivity.
  - vm_compute. reflexivity.
  - vm_compute. reflexivity.
Defined.

(* ----------------------------------------------------------------- *)
(** ** [delete_expense]: answers that are not an id, ids held twice *)

(** X11.  An answer that is not an integer literal cancels: the file is not
    written. *)
Theorem delete_expense_invalid_id w es typed rest :
  holds w es -> es <> [] -> stdin w = typed :: rest -> py_int (strip typed) = None ->
  delete_expense w
  = Ok tt (mkworld (file w) rest
             (stdout w ++ delete_preview es ++ [Line (lit "Invalid id. Cancelled.")])
             (today w)).
Proof.
  intros Hh Hne Hin Hid.
  pose proof (delete_expense_run w es typed rest Hh Hne Hin) as Hrun. cbv zeta in Hrun.
  rewrite Hid in Hrun. exact Hrun.
Qed.

Lemma delete_expense_invalid_id_witness :
  delete_expense (world_of [r_food; r_rent] [lit "two"])
  = Ok tt (mkworld (file (world_of [r_food; r_rent] [lit "two"])) []
             (stdout (world_of [r_food; r_rent] [lit "two"])
              ++ delete_preview [r_food; r_rent] ++ [Line (lit "Invalid id. Cancelled.")])
             (today (world_of [r_food; r_rent] [lit "two"]))).
Proof.
  apply (delete_expense_invalid_id (world_of [r_food; r_rent] [lit "two"])
           [r_food; r_rent] (lit "two") []).
  - exists (render_expenses [r_food; r_rent]). split; [reflexivity | vm_compute; reflexivity].
  - discriminate.
  - reflexivity.
  - reflexivity.
Defined.

Lemma keep_others_length eid es :
  (length (keep_others eid es) + count_occ Z.eq_dec (map e_id es) eid = length es)%nat.
Proof.
  unfold keep_others. induction es as [|e es IH]; [reflexivity|].
  cbn [filter map count_occ length].
  destruct (Z.eq_dec (e_id e) eid) as [E|E].
  - rewrite (proj2 (Z.eqb_eq _ _) E). cbn [negb]. lia.
  - rewrite (proj2 (Z.eqb_neq _ _) E). cbn [negb length]. lia.
Qed.

Lemma keep_others_In eid es e :
  In e (keep_others eid es) <-> In e es /\ e_id e <> eid.
Proof.
  unfold keep_others. rewrite filter_In, negb_true_iff, Z.eqb_neq. tauto.
Qed.

(** X12.  When the id is held by one record or by several, all of them go:
    the file is rewritten with the records of every other id, in their
    order; and when the cells written for these are no longer than the
    csv reader accepts, that is what the store then holds. *)
Theorem delete_expense_every_match w es typed rest eid :
  holds w es -> stdin w = typed :: rest -> py_int (strip typed) = Some eid ->
  In eid (map e_id es) ->
  exists w',
    delete_expense w = Ok tt w'
    /\ file w' = Some (render_expenses (keep_others eid es))
    /\ (Forall (fun e => Forall fits (expense_row e)) (keep_others eid es) ->
        holds w' (keep_others eid es))
    /\ (forall e, In e (keep_others eid es) <-> In e es /\ e_id e <> eid)
    /\ (length (keep_others eid es) + count_occ Z.eq_dec (map e_id es) eid = length es)%nat
    /\ (0 < count_occ Z.eq_dec (map e_id es) eid)%nat.
Proof.
  intros Hh Hin Hid Hpresent.
  assert (Hne : es <> []) by (intros ->; destruct Hpresent).
  pose proof (keep_others_length eid es) as Hlen.
  assert (Hc : (0 < count_occ Z.eq_dec (map e_id es) eid)%nat)
    by (now apply count_occ_In).
  pose proof (delete_expense_run w es typed rest Hh Hne Hin) as Hrun. cbv zeta in Hrun.
  rewrite Hid in Hrun.
  destruct (Nat.eqb_spec (length (keep_others eid es)) (length es)) as [E|E]; [lia|].
  eexists. split; [exact Hrun|]. cbn [file]. split; [reflexivity|].
  split; [|split; [apply keep_others_In | split; assumption]].
  intros Hfits. eexists. split; [reflexivity|].
  apply (parse_render_kept w es); [exact Hh | apply incl_filter | exact Hfits].
Qed.

Lemma delete_expense_every_match_witness :
  exists w',
    delete_expense (world_of [r_food; r_rent; r_food] [lit "1"]) = Ok tt w'
    /\ file w' = Some (render_expenses (keep_others 1 [r_food; r_rent; r_food]))
    /\ (Forall (fun e => Forall fits (expense_row e)) (keep_others 1 [r_food; r_rent; r_food]) ->
        holds w' (keep_others 1 [r_food; r_rent; r_food]))
    /\ (forall e, In e (keep_others 1 [r_food; r_rent; r_food])
                  <-> In e [r_food; r_rent; r_food] /\ e_id e <> 1%Z)
    /\ (length (keep_others 1 [r_food; r_rent; r_food])
        + count_occ Z.eq_dec (map e_id [r_food; r_rent; r_food]) 1%Z
        = length [r_food; r_rent; r_food])%nat
    /\ (0 < count_occ Z.eq_dec (map e_id [r_food; r_rent; r_food]) 1%Z)%nat.
Proof.
  apply (delete_expense_every_match (world_of [r_food; r_rent; r_food] [lit "1"])
           [r_food; r_rent; r_food] (lit "1") [] 1%Z).
  - exists (render_expenses [r_food; r_rent; r_food]).
    split; [reflexivity | vm_compute; reflexivity].
  - reflexivity.
  - reflexivity.
  - simpl. auto.
Defined.

(* ----------------------------------------------------------------- *)
(** ** [next_id] after a deletion *)

Lemma next_id_of_greatest es y :
  In y es -> (forall x, In x es -> (e_id x <= e_id y)%Z) -> next_id es = (e_id y + 1)%Z.
Proof.
  intros Hy Hmax. destruct es as [|e es]; [destruct Hy|].
  destruct (next_id_attained e es) as (x & Hx & Hn).
  pose proof (next_id_above _ _ Hy). pose proof (Hmax x Hx). lia.
Qed.

(** X13.  Ids can come back: once the records of the greatest id [eid] are
    filtered out, [next_id] is at most [eid], so the next record gets an
    id that was in use or a smaller one.  Filtering out another id
    leaves [next_id] as it was. *)
Theorem next_id_after_delete es eid :
  (forall x, In x es -> (e_id x <= eid)%Z) ->
  ((1 <= eid)%Z -> (next_id (keep_others eid es) <= eid)%Z)
  /\ (forall y, In y es -> e_id y = eid ->
        forall other, other <> eid -> next_id (keep_others other es) = (eid + 1)%Z)
  /\ (forall y, In y es -> e_id y = eid -> next_id es = (eid + 1)%Z).
Proof.
  intros Hmax. split; [|split].
  - intros Hpos. destruct (keep_others eid es) as [|k ks] eqn:E; [cbn; lia|].
    destruct (next_id_attained k ks) as (x & Hx & ->).
    rewrite <- E in Hx. apply keep_others_In in Hx. destruct Hx as [Hx Hne].
    specialize (Hmax x Hx). lia.
  - intros y Hy Hid other Hother. subst eid.
    apply next_id_of_greatest.
    + apply keep_others_In. split; [exact Hy | congruence].
    + intros x Hx. apply keep_others_In in Hx. now apply Hmax.
  - intros y Hy Hid. subst eid. now apply next_id_of_greatest.
Qed.

Lemma next_id_after_delete_witness :
  ((1 <= 3)%Z -> (next_id (keep_others 3 [r_food; r_rent; r_taxi]) <= 3)%Z)
  /\ (forall y, In y [r_food; r_rent; r_taxi] -> e_id y = 3%Z ->
        forall other, other <> 3%Z ->
        next_id (keep_others other [r_food; r_rent; r_taxi]) = (3 + 1)%Z)
  /\ (forall y, In y [r_food; r_rent; r_taxi] -> e_id y = 3%Z ->
        next_id [r_food; r_rent; r_taxi] = (3 + 1)%Z).
Proof.
  apply (next_id_after_delete [r_food; r_rent; r_taxi] 3%Z).
  intros x [<-|[<-|[<-|[]]]]; cbn; lia.
Defined.

(* ----------------------------------------------------------------- *)
(** ** The reports write nothing and read nothing *)

Lemma same_input_refl w : same_input w w.
Proof. reflexivity. Qed.

Lemma same_input_trans a b c : same_input a b -> same_input b c -> same_input a c.
Proof. unfold same_input. congruence. Qed.

Lemma print_same_input s : preserves same_input (print s).
Proof. intros w. reflexivity. Qed.

Lemma load_same_input : preserves same_input load_expenses.
Proof. intros w. rewrite load_expenses_final. reflexivity. Qed.

(** X14.  [list_expenses] and [summarize_expenses], however they end (a
    report, a message or an exception), leave the file as it was, or
    as [ensure_file] made it when there was none, and read no input. *)
Theorem reports_write_nothing w limit month :
  file (final (list_expenses None limit w)) = file (with_file w)
  /\ stdin (final (list_expenses None limit w)) = stdin w
  /\ file (final (summarize_expenses month w)) = file (with_file w)
  /\ stdin (final (summarize_expenses month w)) = stdin w.
Proof.
  assert (Hl : list_expenses None limit w = list_expenses None limit (with_file w))
    by apply load_then_with_file.
  assert (Hs : summarize_expenses month w = summarize_expenses month (with_file w))
    by apply load_then_with_file.
  split; [|split; [|split]].
  - rewrite Hl.
    apply (preserves_list_expenses keeps_file keeps_file_refl keeps_file_trans
             print_keeps_file load_keeps_file None limit (with_file w)).
    reflexivity.
  - apply (preserves_list_expenses same_input same_input_refl same_input_trans
             print_same_input load_same_input None limit w).
  - rewrite Hs.
    apply (preserves_summarize_expenses keeps_file keeps_file_refl keeps_file_trans
             print_keeps_file load_keeps_file month (with_file w)).
    reflexivity.
  - apply (preserves_summarize_expenses same_input same_input_refl same_input_trans
             print_same_input load_same_input month w).
Qed.

(* ----------------------------------------------------------------- *)
(** ** [list_expenses] *)

(** X15.  Called without records, [list_expenses] shows those of the file:
    one line when there is none; otherwise the header and the first
    [limit] records by date.  When the limit is not below the number of
    records, each record has its row, once. *)
Theorem list_expenses_from_file w es limit :
  holds w es -> (0 <= limit)%Z ->
  list_expenses None limit w
  = Ok tt (with_out w match es with
                      | [] => [Line (lit "No expenses found.")]
                      | _ => Line table_header
                             :: map Line (map table_row
                                            (firstn (Z.to_nat limit) (sort_by_date es)))
                      end)
  /\ ((length es <= Z.to_nat limit)%nat -> Permutation (listed es limit) es).
Proof.
  intros Hh Hl.
  assert (Hlisted : listed es limit = firstn (Z.to_nat limit) (sort_by_date es)).
  { unfold listed, slice_to. destruct (Z.ltb_spec limit 0); [lia | reflexivity]. }
  split.
  - unfold list_expenses, bind. rewrite (load_expenses_holds _ _ Hh).
    pose proof (listed_Forall _ _ limit (holds_ids_ok _ _ Hh)) as Hok.
    destruct es as [|e es]; [apply print_run|].
    rewrite print_run, (print_rows_run _ _ Hok), with_out_app, Hlisted. reflexivity.
  - intros Hlen. rewrite Hlisted, firstn_all2; [apply sort_by_date_perm|].
    rewrite (Permutation_length (sort_by_date_perm es)). exact Hlen.
Qed.

Lemma list_expenses_from_file_witness :
  list_expenses None 20 (world_of [r_food; r_taxi] [])
  = Ok tt (with_out (world_of [r_food; r_taxi] [])
             (Line table_header
              :: map Line (map table_row (firstn (Z.to_nat 20) (sort_by_date [r_food; r_taxi])))))
  /\ ((length [r_food; r_taxi] <= Z.to_nat 20)%nat
      -> Permutation (listed [r_food; r_taxi] 20) [r_food; r_taxi]).
Proof.
  apply (list_expenses_from_file (world_of [r_food; r_taxi] []) [r_food; r_taxi] 20).
  - exists (render_expenses [r_food; r_taxi]). split; [reflexivity | vm_compute; reflexivity].
  - lia.
Defined.

Lemma insert_desc_filter {A} (lt : A -> A -> bool) (p : A -> bool) x l :
  (p x = true -> forall y, lt x y = true -> p y = false) ->
  filter p (insert_desc lt x l) = filter p (x :: l).
Proof.
  intros H. induction l as [|y l IH]; [reflexivity|].
  cbn [insert_desc]. destruct (lt x y) eqn:E; [|reflexivity].
  cbn [filter] in *. rewrite IH.
  destruct (p x) eqn:Px; [|reflexivity].
  now rewrite (H eq_refl y E).
Qed.

Lemma date_compare_eq a b : date_compare a b = Eq -> a = b.
Proof.
  unfold date_compare. destruct a as [y1 m1 d1], b as [y2 m2 d2]. cbn [year month day].
  destruct (Z.compare_spec y1 y2); try discriminate.
  destruct (Z.compare_spec m1 m2); try discriminate.
  destruct (Z.compare_spec d1 d2); try discriminate.
  intros _. congruence.
Qed.

Lemma date_ltb_irrefl a : date_ltb a a = false.
Proof.
  unfold date_ltb, date_compare. now rewrite !Z.compare_refl.
Qed.

(** X16.  The sort is stable: the records of one day, and likewise the
    undated records together with those of 0001-01-01, are in the
    sorted sequence in the order they have in the file. *)
Theorem sort_by_date_stable es d :
  filter (same_day d) (sort_by_date es) = filter (same_day d) es.
Proof.
  unfold sort_by_date. induction es as [|e es IH]; [reflexivity|].
  cbn [sorted_desc fold_right]. fold (sorted_desc (fun x y => date_ltb (date_key x) (date_key y)) es).
  rewrite insert_desc_filter.
  - cbn [filter]. now rewrite IH.
  - unfold same_day. intros He y Hlt.
    destruct (date_compare (date_key e) d) eqn:E1; try discriminate.
    apply date_compare_eq in E1.
    destruct (date_compare (date_key y) d) eqn:E2; try reflexivity.
    apply date_compare_eq in E2. rewrite E1, E2, date_ltb_irrefl in Hlt. discriminate.
Qed.

(* ----------------------------------------------------------------- *)
(** ** The table *)

Lemma fmt_0d_length w z :
  (0 <= z < 10 ^ Z.of_nat (S w))%Z -> length (fmt_0d (S w) z) = S w.
Proof.
  intros [H0 H1]. unfold fmt_0d. destruct (Z.ltb_spec z 0); [lia|]. cbv zeta.
  assert (Hn : (Z.to_N z < 10 ^ N.of_nat (S w))%N).
  { apply N2Z.inj_lt. rewrite Z2N.id by lia. rewrite N2Z.inj_pow.
    now rewrite nat_N_Z. }
  pose proof (str_of_N_length _ _ Hn).
  rewrite length_app. unfold zeros. rewrite repeat_length. lia.
Qed.

Lemma isoformat_length d : valid_date d = true -> length (isoformat d) = 10%nat.
Proof.
  intros Hv. apply valid_date_bounds in Hv. destruct Hv as (Hy & Hm & Hd).
  unfold isoformat. rewrite length_app. cbn [length]. rewrite length_app. cbn [length].
  rewrite (fmt_0d_length 3), !(fmt_0d_length 1); [reflexivity | | |];
    change (10 ^ Z.of_nat 2)%Z with 100%Z; change (10 ^ Z.of_nat 4)%Z with 10000%Z; lia.
Qed.

Lemma ljust_length w s : (length s <= w)%nat -> length (ljust w s) = w.
Proof. intros H. unfold ljust, spaces. rewrite length_app, repeat_length. lia. Qed.

Lemma rjust_length w s : (length s <= w)%nat -> length (rjust w s) = w.
Proof. intros H. unfold rjust, spaces. rewrite length_app, repeat_length. lia. Qed.

(** X17.  A record whose id, category, amount and currency fit their
    columns has its description at the column where the header has the
    word "description": the rows of the table line up. *)
Theorem table_row_aligned e :
  fits_columns e ->
  exists cols hcols,
    table_row e = cols ++ e_description e
    /\ table_header = hcols ++ lit "description"
    /\ length cols = columns_width /\ length hcols = columns_width.
Proof.
  intros (Hid & Hdate & Hcat & Hamt & Hcur).
  unfold table_row. cbv zeta.
  set (date_str := match e_date e with Some d => isoformat d | None => [] end).
  assert (Hd : (length date_str <= 10)%nat).
  { subst date_str. destruct (e_date e) as [d|]; [|cbn; lia].
    rewrite (isoformat_length d (Hdate d eq_refl)). lia. }
  exists (ljust 4 (str_of_int (e_id e)) ++ " "%char :: ljust 10 date_str ++ " "%char
          :: ljust 15 (e_category e) ++ " "%char :: rjust 10 (dec_str (e_amount e))
          ++ " "%char :: ljust 8 (e_currency e) ++ [" "%char]).
  exists (firstn columns_width table_header).
  split; [|split; [reflexivity | split; [|reflexivity]]].
  - unfold sp. repeat (rewrite <- app_assoc; cbn [app]). reflexivity.
  - repeat (rewrite length_app; cbn [length]).
    rewrite !ljust_length, rjust_length by assumption. reflexivity.
Qed.

Lemma table_row_aligned_witness :
  exists cols hcols,
    table_row r_food = cols ++ e_description r_food
    /\ table_header = hcols ++ lit "description"
    /\ length cols = columns_width /\ length hcols = columns_width.
Proof.
  apply (table_row_aligned r_food).
  split; [vm_compute; lia|].
  split; [intros d H; inversion H; reflexivity|].
  split; [vm_compute; lia|]. split; vm_compute; lia.
Defined.

(* ----------------------------------------------------------------- *)
(** ** [summarize_expenses]: the breakdown by category *)

Lemma amounts_of_cons cat e l :
  amounts_of cat (e :: l)
  = if str_eqb (e_category e) cat then e_amount e :: amounts_of cat l else amounts_of cat l.
Proof. unfold amounts_of. cbn [filter]. destruct (str_eqb (e_category e) cat); reflexivity. Qed.

Lemma by_keys_cons e0 e l ks :
  total_aligned e0 (flat_map (fun k => amounts_of k (e :: l)) ks)
  = (Z.of_nat (count_occ (list_eq_dec ascii_dec) ks (e_category e)) * aligned e0 (e_amount e)
     + total_aligned e0 (flat_map (fun k => amounts_of k l) ks))%Z.
Proof.
  induction ks as [|k ks IH]; [reflexivity|].
  cbn [flat_map count_occ]. rewrite !total_aligned_app, IH, amounts_of_cons.
  destruct (list_eq_dec ascii_dec k (e_category e)) as [E|E].
  - subst k. rewrite str_eqb_refl. cbn [total_aligned fold_right].
    fold (total_aligned e0 (amounts_of (e_category e) l)). lia.
  - rewrite str_eqb_neq by congruence. lia.
Qed.

(** The amounts, taken category by category, are all the amounts. *)
Lemma by_keys_total e0 l ks :
  NoDup ks -> (forall e, In e l -> In (e_category e) ks) ->
  total_aligned e0 (flat_map (fun k => amounts_of k l) ks)
  = total_aligned e0 (map e_amount l).
Proof.
  intros Hnd. induction l as [|e l IH]; intros Hin.
  - clear. induction ks as [|k ks IHk]; [reflexivity|].
    cbn [flat_map]. rewrite total_aligned_app, IHk. reflexivity.
  - rewrite by_keys_cons, IH by (intros x Hx; apply Hin; now right).
    rewrite (proj1 (NoDup_count_occ' (list_eq_dec ascii_dec) ks) Hnd)
      by (apply Hin; now left).
    cbn [map total_aligned fold_right]. fold (total_aligned e0 (map e_amount l)). lia.
Qed.

Lemma entries_total e0 l (d : list (pystr * Decimal)) :
  (forall k v, In (k, v) d -> aligned e0 v = total_aligned e0 (amounts_of k l)) ->
  total_aligned e0 (map snd d)
  = total_aligned e0 (flat_map (fun k => amounts_of k l) (map fst d)).
Proof.
  induction d as [|[k v] d IH]; intros H; [reflexivity|].
  cbn [map snd fst flat_map].
  change (total_aligned e0 (v :: map snd d))
    with (aligned e0 v + total_aligned e0 (map snd d))%Z.
  rewrite total_aligned_app, IH by (intros k' v' Hin; apply H; now right).
  rewrite (H k v) by now left. reflexivity.
Qed.

(** X18.  Within the context, [by_cat] has one entry for each category that
    a record in scope carries, and the subtotals add up to the total. *)
Theorem subtotals_add_up filtered e0 :
  within_context e0 (map e_amount filtered) ->
  exists total by_cat,
    py_sum (map e_amount filtered) = Val total
    /\ by_category filtered [] = Val by_cat
    /\ NoDup (map fst by_cat)
    /\ (forall cat, In cat (map fst by_cat) <-> In cat (map e_category filtered))
    /\ (sum_values (map snd by_cat) == dec_value total)%Q.
Proof.
  intros Hctx. destruct (py_sum_exact e0 _ Hctx) as (s & c & e & Hsum & Hval).
  destruct Hctx as (He0 & Hfin & Hw).
  destruct (by_category_exact e0 filtered [] [] He0 Hfin Hw) as (d' & Hd' & Hinv).
  { intros cat. cbn. tauto. }
  cbn [app] in Hinv.
  pose proof (by_category_nodup filtered [] d' Hd' (NoDup_nil _)) as Hnd.
  assert (Hkeys : forall cat, In cat (map fst d') <-> In cat (map e_category filtered)).
  { intros cat. specialize (Hinv cat). destruct (dict_get d' cat) as [v|] eqn:E;
      cbn [subtotal_ok] in Hinv.
    - destruct Hinv as [Hin _]. split; [auto|]. intros _.
      destruct (in_dec (list_eq_dec ascii_dec) cat (map fst d')) as [H|H]; [exact H|].
      apply dict_get_none in H. congruence.
    - apply dict_get_none in E. tauto. }
  assert (Hentry : forall k v, In (k, v) d' ->
            finite_from e0 v /\ aligned e0 v = total_aligned e0 (amounts_of k filtered)).
  { intros k v Hin. specialize (Hinv k). rewrite (dict_get_nodup _ _ _ Hnd Hin) in Hinv.
    cbn [subtotal_ok] in Hinv. destruct Hinv as (_ & s' & c' & e' & -> & He' & Hal & _).
    split; [exists s', c', e'; split; [reflexivity | lia] | exact Hal]. }
  exists (Fin s c e), d'. repeat split; auto; try apply Hkeys.
  rewrite Hval, (sum_values_aligned e0 (map e_amount filtered) Hfin).
  rewrite (sum_values_aligned e0 (map snd d')).
  - rewrite (entries_total e0 filtered d') by (intros k v Hin; now apply Hentry).
    rewrite (by_keys_total e0 filtered (map fst d') Hnd); [reflexivity|].
    intros x Hx. apply Hkeys. now apply in_map.
  - rewrite Forall_forall. intros v Hv. apply in_map_iff in Hv.
    destruct Hv as ([k v'] & <- & Hin). now apply (Hentry k v').
Qed.

Lemma subtotals_add_up_witness :
  exists total by_cat,
    py_sum (map e_amount [r_food; r_rent; r_taxi]) = Val total
    /\ by_category [r_food; r_rent; r_taxi] [] = Val by_cat
    /\ NoDup (map fst by_cat)
    /\ (forall cat, In cat (map fst by_cat)
                    <-> In cat (map e_category [r_food; r_rent; r_taxi]))
    /\ (sum_values (map snd by_cat) == dec_value total)%Q.
Proof.
  apply (subtotals_add_up [r_food; r_rent; r_taxi] (-2)%Z).
  split; [vm_compute; split; discriminate|]. split.
  - repeat constructor; eexists _, _, _; (split; [reflexivity | lia]).
  - vm_compute. reflexivity.
Defined.

Section SortedOn.
Variables (A : Type) (lt : A -> A -> bool) (P : A -> Prop) (ge : A -> A -> Prop).
Hypothesis ge_trans : forall a b c, ge a b -> ge b c -> ge a c.
Hypothesis not_lt_ge : forall a b, P a -> P b -> lt a b = false -> ge a b.
Hypothesis lt_ge : forall a b, P a -> P b -> lt a b = true -> ge b a.

Lemma insert_desc_sorted_on x l :
  P x -> Forall P l -> StronglySorted ge l -> StronglySorted ge (insert_desc lt x l).
Proof.
  intros Px. induction l as [|y l IH]; cbn [insert_desc]; intros Hp Hs.
  - repeat constructor.
  - inversion Hs as [|? ? Hl Hy]; subst. inversion Hp as [|? ? Py Pl]; subst.
    destruct (lt x y) eqn:E.
    + constructor; [now apply IH|].
      rewrite Forall_forall. intros z Hz.
      apply (Permutation_in _ (insert_desc_perm A lt x l)) in Hz.
      destruct Hz as [<-|Hz]; [now apply lt_ge|].
      rewrite Forall_forall in Hy. now apply Hy.
    + constructor; [assumption|].
      constructor; [now apply not_lt_ge|].
      rewrite Forall_forall in *. intros z Hz.
      apply ge_trans with y; [now apply not_lt_ge | now apply Hy].
Qed.

Lemma sorted_desc_sorted_on l : Forall P l -> StronglySorted ge (sorted_desc lt l).
Proof.
  induction l as [|x l IH]; intros Hp; cbn [sorted_desc fold_right]; [constructor|].
  inversion Hp; subst. apply insert_desc_sorted_on; [assumption | | now apply IH].
  rewrite Forall_forall in *. intros z Hz.
  apply (Permutation_in _ (sorted_desc_perm A lt l)) in Hz. auto.
Qed.
End SortedOn.

(** [a < b] on finite decimals compares the numbers they denote. *)
Lemma dec_lt_finite s1 c1 e1 s2 c2 e2 :
  exists b, dec_lt (Fin s1 c1 e1) (Fin s2 c2 e2) = Val b
            /\ (b = true <-> (dec_value (Fin s1 c1 e1) < dec_value (Fin s2 c2 e2))%Q).
Proof.
  eexists. split; [reflexivity|]. cbv zeta.
  set (e := Z.min e1 e2).
  rewrite (dec_value_aligned e s1 c1 e1), (dec_value_aligned e s2 c2 e2) by (subst e; lia).
  cbn [aligned].
  rewrite Qmult_lt_r by (apply Qpower_0_lt; reflexivity).
  rewrite <- Zlt_Qlt. apply Z.ltb_lt.
Qed.

(** X19.  Finite subtotals are shown from the greatest to the smallest, each
    category once. *)
Theorem category_order by_cat :
  Forall finite_item by_cat ->
  exists lines,
    sort_by_subtotal by_cat = Val lines
    /\ Permutation lines by_cat
    /\ StronglySorted not_smaller lines.
Proof.
  intros Hfin. rewrite (sort_by_subtotal_finite _ Hfin). eexists. split; [reflexivity|].
  split; [apply sorted_desc_perm|].
  apply (sorted_desc_sorted_on _ _ finite_item not_smaller); [| | |exact Hfin].
  - intros a b c Hab Hbc. unfold not_smaller in *. now apply Qle_trans with (dec_value (snd b)).
  - intros [ka a] [kb b] Ha Hb. unfold finite_item, not_smaller in *. cbn [snd] in *.
    destruct a as [s1 c1 e1| |]; try discriminate. destruct b as [s2 c2 e2| |]; try discriminate.
    destruct (dec_lt_finite s1 c1 e1 s2 c2 e2) as (b & -> & Hb'). intros ->.
    apply Qnot_lt_le. intros H. apply Hb' in H. discriminate.
  - intros [ka a] [kb b] Ha Hb. unfold finite_item, not_smaller in *. cbn [snd] in *.
    destruct a as [s1 c1 e1| |]; try discriminate. destruct b as [s2 c2 e2| |]; try discriminate.
    destruct (dec_lt_finite s1 c1 e1 s2 c2 e2) as (b & -> & Hb'). intros ->.
    apply Qlt_le_weak. now apply Hb'.
Qed.

Lemma category_order_witness :
  exists lines,
    sort_by_subtotal [(lit "rent", Fin false 20 (-2)); (lit "food", Fin false 1510 (-2))]
    = Val lines
    /\ Permutation lines [(lit "rent", Fin false 20 (-2)); (lit "food", Fin false 1510 (-2))]
    /\ StronglySorted not_smaller lines.
Proof.
  apply (category_order [(lit "rent", Fin false 20 (-2)); (lit "food", Fin false 1510 (-2))]).
  repeat constructor.
Defined.

(** X20.  A month text whose numbers are no month of the calendar (a month
    13, a year 0) is not refused: no stored date can match it, and the
    answer is that there are no expenses for that month. *)
Theorem month_out_of_range w es m y mon :
  holds w es -> es <> [] -> m <> [] -> parse_month m = Some (y, mon) ->
  ~ (1 <= y <= 9999 /\ 1 <= mon <= 12)%Z ->
  summarize_expenses (Some m) w
  = Ok tt (with_out w [Line (lit "No expenses for Summary for " ++ str_of_int y
                             ++ lit "-" ++ fmt_0d 2 mon ++ lit ".")]).
Proof.
  intros Hh Hne Hm Hp Hout.
  rewrite (summarize_expenses_run (Some m) w es w (load_expenses_holds _ _ Hh) Hne).
  unfold month_scope. destruct m as [|ch m]; [contradiction|]. rewrite Hp.
  assert (Hnil : filter (in_month y mon) es = []).
  { pose proof (holds_storable _ _ Hh) as Hst. clear - Hst Hout.
    induction Hst as [|e es He _ IH]; [reflexivity|]. cbn [filter]. rewrite IH.
    destruct (in_month y mon e) eqn:E; [|reflexivity]. exfalso.
    apply in_month_iff in E. destruct E as (d & Hd & Hy & Hmo).
    destruct He as (Hv & _). apply Hv, valid_date_bounds in Hd. lia. }
  rewrite Hnil. repeat (rewrite <- app_assoc; cbn [app]). reflexivity.
Qed.

Lemma month_out_of_range_witness :
  summarize_expenses (Some (lit "2025-13")) (world_of [r_food] [])
  = Ok tt (with_out (world_of [r_food] [])
             [Line (lit "No expenses for Summary for " ++ str_of_int 2025
                    ++ lit "-" ++ fmt_0d 2 13 ++ lit ".")]).
Proof.
  apply (month_out_of_range (world_of [r_food] []) [r_food] (lit "2025-13") 2025 13).
  - exists (render_expenses [r_food]). split; [reflexivity | vm_compute; reflexivity].
  - discriminate.
  - discriminate.
  - reflexivity.
  - lia.
Defined.

(* ----------------------------------------------------------------- *)
(** ** [main]: the loop *)

Lemma main_body_run dash w :
  main_body dash w
  = match stdin w with
    | [] => Raise EOFError (with_out w [Line options_text; Prompt (lit "Choose: ")])
    | typed :: rest =>
        dispatch dash (choice_of typed)
          (mkworld (file w) rest (stdout w ++ [Line options_text; Prompt (lit "Choose: ")])
                   (today w))
    end.
Proof.
  unfold main_body, bind. rewrite print_run. unfold input, emit, with_out.
  cbn [stdin file stdout today]. rewrite <- app_assoc.
  destruct (stdin w); reflexivity.
Qed.

Lemma then_continue {A} (m : M A) w w' :
  (m ;;; ret Continue) w <> Ok Break w'.
Proof. unfold bind, ret. destruct (m w); discriminate. Qed.

Lemma bind_then_continue {A B} (m : M A) (k : A -> M B) w w' :
  (x <- m ;; (k x ;;; ret Continue)) w <> Ok Break w'.
Proof.
  unfold bind at 1. destruct (m w) as [a w1|e w1]; [apply then_continue | discriminate].
Qed.

(** Only the choice of quitting ends the loop. *)
Lemma dispatch_break dash c w w' :
  dispatch dash c w = Ok Break w' ->
  str_in c [lit "q"; lit "quit"; lit "exit"] = true
  /\ w' = with_out w [Line (goodbye dash)].
Proof.
  unfold dispatch. destruct c as [|ch c]; [discriminate|].
  repeat match goal with
         | |- context [if ?b then _ else _] => destruct b eqn:?
         end;
    intros H;
    try (exfalso; exact (then_continue _ _ _ H));
    try (exfalso; exact (bind_then_continue _ _ _ _ H)).
  unfold bind in H. rewrite print_run in H. inversion H. auto.
Qed.

Lemma str_in_quit c :
  str_in c [lit "q"; lit "quit"; lit "exit"] = true ->
  c = lit "q" \/ c = lit "quit" \/ c = lit "exit".
Proof.
  unfold str_in. cbn [existsb]. rewrite !orb_true_iff.
  intros [H|[H|[H|H]]]; try discriminate; apply str_eqb_eq in H; auto.
Qed.

Lemma dispatch_quit dash c w :
  str_in c [lit "q"; lit "quit"; lit "exit"] = true ->
  dispatch dash c w = Ok Break (with_out w [Line (goodbye dash)]).
Proof.
  intros H. apply str_in_quit in H. destruct H as [ -> | [ -> | -> ] ]; reflexivity.
Qed.

(** One turn of the loop reads the line of the choice and, after it,
    what the command chosen reads; the turn that ends the loop reads the
    choice alone and prints the farewell. *)
Lemma main_body_step dash w s w' :
  main_body dash w = Ok s w' ->
  exists typed used,
    stdin w = typed :: used ++ stdin w'
    /\ (s = Break ->
        is_quit typed = true /\ used = []
        /\ stdout w' = stdout w ++ [Line options_text; Prompt (lit "Choose: ");
                                    Line (goodbye dash)]).
Proof.
  rewrite main_body_run. destruct (stdin w) as [|typed rest] eqn:E; [discriminate|].
  intros H. exists typed.
  pose proof (preserves_dispatch reads_on reads_on_refl reads_on_trans
                print_reads_on input_reads_on load_reads_on save_reads_on
                dash (choice_of typed)
                (mkworld (file w) rest
                   (stdout w ++ [Line options_text; Prompt (lit "Choose: ")]) (today w)))
    as (used & Hused).
  rewrite H in Hused. cbn [final stdin] in Hused. exists used.
  split; [now rewrite Hused|].
  intros ->. apply dispatch_break in H. destruct H as (Hq & ->).
  cbn [with_out stdin stdout] in *. split; [exact Hq|]. split.
  - apply (f_equal (@length pystr)) in Hused. rewrite length_app in Hused.
    destruct used; [reflexivity | cbn [length] in Hused; lia].
  - now rewrite <- app_assoc.
Qed.

Lemma main_loop_more_fuel dash f :
  forall w o, main_loop dash f w = Some o -> main_loop dash (S f) w = Some o.
Proof.
  induction f as [|f IH]; intros w o H; [discriminate|].
  cbn [main_loop] in *. destruct (main_body dash w) as [[|] w1|e w1]; auto.
Qed.

Lemma main_loop_fuel_le dash f f' w o :
  (f <= f')%nat -> main_loop dash f w = Some o -> main_loop dash f' w = Some o.
Proof.
  intros Hle H. induction Hle; [exact H | now apply main_loop_more_fuel].
Qed.

Lemma main_loop_ends dash f :
  forall w, (length (stdin w) < f)%nat -> exists o, main_loop dash f w = Some o.
Proof.
  induction f as [|f IH]; intros w Hlen; [lia|].
  cbn [main_loop]. destruct (main_body dash w) as [[|] w1|e w1] eqn:E; eauto.
  destruct (main_body_step _ _ _ _ E) as (typed & used & Hin & _).
  apply IH. rewrite Hin in Hlen. cbn [length] in Hlen. rewrite length_app in Hlen. lia.
Qed.

Lemma main_start dash w :
  (ensure_file ;;; print (banner dash)) w
  = Ok tt (with_out (with_file w) [Line (banner dash)]).
Proof.
  unfold bind. rewrite ensure_file_run, print_run.
  destruct w as [[t|] i o d]; reflexivity.
Qed.

(** X21.  [main] comes to an end on every input: with more turns than there
    are lines to read the loop has ended, by the choice of quitting or
    by an exception (the end of the input, for one), and more turns
    change nothing. *)
Theorem main_terminates dash w fuel :
  (length (stdin w) < fuel)%nat ->
  exists o,
    main dash fuel w = Some o
    /\ forall fuel', (fuel <= fuel')%nat -> main dash fuel' w = Some o.
Proof.
  intros Hlen. unfold main. rewrite main_start.
  destruct (main_loop_ends dash fuel (with_out (with_file w) [Line (banner dash)]) Hlen)
    as (o & Ho).
  exists o. split; [exact Ho|]. intros fuel' Hle. now apply (main_loop_fuel_le dash fuel).
Qed.

Lemma main_terminates_witness :
  exists o,
    main (lit "-") 3 (world_of [r_food] [lit "l"; lit "what"]) = Some o
    /\ forall fuel', (3 <= fuel')%nat ->
       main (lit "-") fuel' (world_of [r_food] [lit "l"; lit "what"]) = Some o.
Proof.
  apply (main_terminates (lit "-") (world_of [r_food] [lit "l"; lit "what"]) 3).
  cbn. lia.
Defined.

Lemma main_loop_quit dash f :
  forall w w', main_loop dash f w = Some (Ok tt w') ->
  exists used typed earlier,
    stdin w = used ++ typed :: stdin w'
    /\ is_quit typed = true
    /\ stdout w' = earlier ++ [Line (goodbye dash)].
Proof.
  induction f as [|f IH]; intros w w' H; [discriminate|].
  cbn [main_loop] in H. destruct (main_body dash w) as [[|] w1|e w1] eqn:E; [| |discriminate].
  - destruct (main_body_step _ _ _ _ E) as (typed & used & Hin & _).
    destruct (IH _ _ H) as (used' & typed' & earlier & Hin' & Hq & Hout).
    exists (typed :: used ++ used'), typed', earlier.
    split; [|auto]. rewrite Hin, Hin'. cbn [app]. now rewrite <- app_assoc.
  - inversion H; subst w1.
    destruct (main_body_step _ _ _ _ E) as (typed & used & Hin & Hb).
    destruct (Hb eq_refl) as (Hq & -> & Hout).
    exists [], typed, (stdout w ++ [Line options_text; Prompt (lit "Choose: ")]).
    split; [exact Hin|]. split; [exact Hq|]. rewrite Hout, <- app_assoc. reflexivity.
Qed.

(** X22.  [main] returns only by the choice of quitting: a line that,
    stripped and in lower case, is q, quit or exit was read at the
    menu, nothing of the input after it was read, and the farewell is
    the last thing printed. *)
Theorem main_returns_by_quit dash fuel w w' :
  main dash fuel w = Some (Ok tt w') ->
  exists used typed earlier,
    stdin w = used ++ typed :: stdin w'
    /\ is_quit typed = true
    /\ stdout w' = earlier ++ [Line (goodbye dash)].
Proof.
  unfold main. rewrite main_start. intros H.
  destruct (main_loop_quit _ _ _ _ H) as (used & typed & earlier & Hin & Hq & Hout).
  exists used, typed, earlier. split; [|auto].
  rewrite <- Hin. destruct w as [[t|] i o d]; reflexivity.
Qed.

Lemma main_returns_by_quit_witness :
  exists used typed earlier,
    stdin (world_of [r_food] [[]; lit " Quit "; lit "unread"])
    = used ++ typed
      :: stdin (mkworld (Some (render_expenses [r_food])) [lit "unread"]
                  [Line (banner (lit "-")); Line options_text; Prompt (lit "Choose: ");
                   Line options_text; Prompt (lit "Choose: "); Line (goodbye (lit "-"))]
                  (mkdate 2025 11 3))
    /\ is_quit typed = true
    /\ stdout (mkworld (Some (render_expenses [r_food])) [lit "unread"]
                 [Line (banner (lit "-")); Line options_text; Prompt (lit "Choose: ");
                  Line options_text; Prompt (lit "Choose: "); Line (goodbye (lit "-"))]
                 (mkdate 2025 11 3))
       = earlier ++ [Line (goodbye (lit "-"))].
Proof.
  apply (main_returns_by_quit (lit "-") 4 (world_of [r_food] [[]; lit " Quit "; lit "unread"])).
  vm_compute. reflexivity.
Defined.

(** X23.  A first line that chooses to quit: the banner, the menu and the
    farewell are printed, the file is there (created when it was not),
    and the rest of the input is not read. *)
Theorem main_quit_at_once dash fuel w typed rest :
  stdin w = typed :: rest -> is_quit typed = true ->
  main dash (S fuel) w
  = Some (Ok tt (mkworld (file (with_file w)) rest
                   (stdout w ++ [Line (banner dash); Line options_text;
                                 Prompt (lit "Choose: "); Line (goodbye dash)])
                   (today w))).
Proof.
  intros Hin Hq. unfold main. rewrite main_start. cbn [main_loop].
  rewrite main_body_run. cbn [with_out with_file stdin file stdout today]. rewrite Hin.
  rewrite (dispatch_quit dash _ _ Hq). unfold with_out. cbn [file stdin stdout today].
  repeat (rewrite <- app_assoc; cbn [app]). reflexivity.
Qed.

Lemma main_quit_at_once_witness :
  main (lit "-") 1 (mkworld None [lit "EXIT"; lit "unread"] [] (mkdate 2025 11 3))
  = Some (Ok tt (mkworld
                   (file (with_file (mkworld None [lit "EXIT"; lit "unread"] []
                                             (mkdate 2025 11 3))))
                   [lit "unread"]
                   (stdout (mkworld None [lit "EXIT"; lit "unread"] [] (mkdate 2025 11 3))
                    ++ [Line (banner (lit "-")); Line options_text;
                        Prompt (lit "Choose: "); Line (goodbye (lit "-"))])
                   (today (mkworld None [lit "EXIT"; lit "unread"] [] (mkdate 2025 11 3))))).
Proof.
  apply (main_quit_at_once (lit "-") 0
           (mkworld None [lit "EXIT"; lit "unread"] [] (mkdate 2025 11 3))
           (lit "EXIT") [lit "unread"]).
  - reflexivity.
  - reflexivity.
Defined.

Lemma str_in_add c :
  str_in c [lit "a"; lit "add"] = true -> c = lit "a" \/ c = lit "add".
Proof.
  unfold str_in. cbn [existsb]. rewrite !orb_true_iff.
  intros [H|[H|H]]; try discriminate; apply str_eqb_eq in H; auto.
Qed.

Lemma dispatch_add dash c w :
  str_in c [lit "a"; lit "add"] = true ->
  dispatch dash c w = (add_expense ;;; ret Continue) w.
Proof.
  intros H. apply str_in_add in H. destruct H as [ -> | -> ]; reflexivity.
Qed.

(** X24.  A whole session: the choice of adding, five answers of which the
    date and the amount parse, then the choice of quitting.  [main]
    returns, the file has been written with the records the store held
    followed by the new one under [next_id], the addition and the
    farewell are the last lines printed, and the input after the choice
    of quitting is not read. *)
Theorem main_add_then_quit dash fuel w es choice d c a cu ds quit rest dt amt :
  holds w es ->
  stdin w = choice :: d :: c :: a :: cu :: ds :: quit :: rest ->
  str_in (choice_of choice) [lit "a"; lit "add"] = true ->
  is_quit quit = true ->
  strptime_ymd (str_or (strip d) (isoformat (today w))) = Some dt ->
  Decimal_of_str (strip a) = Some amt ->
  int_ok (next_id es) = true ->
  let new_expense :=
    mkexpense (next_id es) (Some dt) (str_or (strip c) (lit "uncategorized")) amt
              (str_or (strip cu) (lit "USD")) (strip ds) in
  main dash (S (S fuel)) w
  = Some (Ok tt (mkworld (Some (render_expenses (es ++ [new_expense]))) rest
                   (stdout w
                    ++ [Line (banner dash); Line options_text; Prompt (lit "Choose: ")]
                    ++ add_prompts w
                    ++ [Line (added_line new_expense); Line options_text;
                        Prompt (lit "Choose: "); Line (goodbye dash)])
                   (today w))).
Proof.
  intros Hh Hin Hadd Hquit Hdate Hamt Hid new_expense.
  destruct Hh as (text & Hf & Hp).
  unfold main. rewrite main_start. rewrite (with_file_present _ _ Hf).
  cbn [main_loop]. rewrite main_body_run. cbn [with_out stdin file stdout today].
  rewrite Hin, (dispatch_add dash _ _ Hadd).
  set (w1 := mkworld (file w) (d :: c :: a :: cu :: ds :: quit :: rest)
               ((stdout w ++ [Line (banner dash)])
                ++ [Line options_text; Prompt (lit "Choose: ")]) (today w)).
  assert (Hh1 : holds w1 es) by (exists text; auto).
  pose proof (add_expense_run w1 es d c a cu ds (quit :: rest) dt amt Hh1 eq_refl Hdate Hamt)
    as Hrun.
  cbv zeta in Hrun. rewrite Hid in Hrun. fold new_expense in Hrun.
  unfold bind at 1. rewrite Hrun. unfold ret.
  rewrite main_body_run. cbn [stdin]. rewrite (dispatch_quit dash _ _ Hquit).
  unfold with_out, w1, add_prompts, prompt_date. cbn [file stdin stdout today].
  repeat (rewrite <- (@app_assoc out); cbn [app]). reflexivity.
Qed.

Lemma main_add_then_quit_witness :
  main (lit "-") 2
    (world_of [r_food; r_taxi]
       [lit "A"; []; lit "fun"; lit "7.5"; []; []; lit "q"; lit "unread"])
  = Some (Ok tt (mkworld
                   (Some (render_expenses
                            ([r_food; r_taxi]
                             ++ [mkexpense (next_id [r_food; r_taxi]) (Some (mkdate 2025 11 3))
                                   (str_or (strip (lit "fun")) (lit "uncategorized"))
                                   (Fin false 75 (-1))
                                   (str_or (strip []) (lit "USD")) (strip [])])))
                   [lit "unread"]
                   (stdout (world_of [r_food; r_taxi]
                              [lit "A"; []; lit "fun"; lit "7.5"; []; []; lit "q"; lit "unread"])
                    ++ [Line (banner (lit "-")); Line options_text; Prompt (lit "Choose: ")]
                    ++ add_prompts (world_of [r_food; r_taxi]
                              [lit "A"; []; lit "fun"; lit "7.5"; []; []; lit "q"; lit "unread"])
                    ++ [Line (added_line
                                (mkexpense (next_id [r_food; r_taxi]) (Some (mkdate 2025 11 3))
                                   (str_or (strip (lit "fun")) (lit "uncategorized"))
                                   (Fin false 75 (-1))
                                   (str_or (strip []) (lit "USD")) (strip [])));
                        Line options_text; Prompt (lit "Choose: "); Line (goodbye (lit "-"))])
                   (today (world_of [r_food; r_taxi]
                              [lit "A"; []; lit "fun"; lit "7.5"; []; []; lit "q";
                               lit "unread"])))).
Proof.
  apply (main_add_then_quit (lit "-") 0
           (world_of [r_food; r_taxi]
              [lit "A"; []; lit "fun"; lit "7.5"; []; []; lit "q"; lit "unread"])
           [r_food; r_taxi] (lit "A") [] (lit "fun") (lit "7.5") [] [] (lit "q")
           [lit "unread"] (mkdate 2025 11 3) (Fin false 75 (-1))).
  - exists (render_expenses [r_food; r_taxi]). split; [reflexivity | vm_compute; reflexivity].
  - reflexivity.
  - reflexivity.
  - reflexivity.
  - vm_compute. reflexivity.
  - vm_compute. reflexivity.
  - reflexivity.
Defined.
